(** * The TCP underlay of mieru's protocolv2: a shallow embedding

    Source: [pkg/protocolv2/underlay_tcp.go].

    The underlay owns one TCP connection, a send and a receive block
    cipher, the candidate ciphers and (through the embedded
    [baseUnderlay]) the session table.  Every Go function of the file is
    a function of the same name here, written in a small state-and-error
    monad over the [World]: the underlay, the process-wide replay cache
    with its two counters, the random number generator and the sessions
    the underlay's pointers refer to.

    A Go function that returns an error has still performed the
    mutations made before the [return]; the monad therefore returns the
    state next to the outcome in every case. *)

From Stdlib Require Import ZArith List Bool Lia.
From stdpp Require Import base option list gmap strings.

Local Open Scope Z_scope.

Abbreviation byte := Byte.byte.
Abbreviation bytes := (list Byte.byte).

(** ** Errors *)

(** [stderror]'s three sentinel errors, the errors made by [fmt.Errorf]
    (the format string; [Errorw] when the format wraps a cause with [%w]
    or prints it with [%v]), and the errors handed back by the transport
    and the ciphers. *)
Inductive error : Type :=
| ErrNullPointer
| ErrInvalidOperation
| ErrInvalidArgument
| Errorf (format : string)
| Errorw (format : string) (cause : error)
| ErrIO (what : string)
| ErrCipher (what : string).

(** The outcome of a call: a value, an error, or a run-time panic
    (index out of range, failed type assertion, nil dereference). *)
Inductive Res (A : Type) : Type :=
| Ok (a : A)
| Err (e : error)
| Panic.
Arguments Ok {A} a.
Arguments Err {A} e.
Arguments Panic {A}.

Definition isErr {A} (r : Res A) : bool :=
  match r with Err _ => true | _ => false end.

(** ** Segments and their metadata *)

(** Modelled from the spec: the two fixed-length metadata structures of
    the segment codec ([sessionStruct] and [dataAckStruct] are declared
    outside this file); the fields are those of the data model. *)
Record sessionStruct : Type := {
  ss_protocol : byte;
  ss_sessionID : N;
  ss_seq : N;
  ss_payloadLen : Z;   (* uint16 *)
  ss_suffixLen : Z;    (* uint8 *)
  ss_flags : Z;
}.

(** Modelled from the spec: the data-ack metadata, next to the session
    metadata above. *)
Record dataAckStruct : Type := {
  das_protocol : byte;
  das_sessionID : N;
  das_seq : N;
  das_ack : N;
  das_payloadLen : Z;  (* uint16 *)
  das_prefixLen : Z;   (* uint8 *)
  das_suffixLen : Z;   (* uint8 *)
  das_window : Z;
}.

Definition ss_with_suffixLen (ss : sessionStruct) (n : Z) : sessionStruct :=
  {| ss_protocol := ss_protocol ss; ss_sessionID := ss_sessionID ss;
     ss_seq := ss_seq ss; ss_payloadLen := ss_payloadLen ss;
     ss_suffixLen := n; ss_flags := ss_flags ss |}.

Definition das_with_padding (das : dataAckStruct) (p s : Z) : dataAckStruct :=
  {| das_protocol := das_protocol das; das_sessionID := das_sessionID das;
     das_seq := das_seq das; das_ack := das_ack das;
     das_payloadLen := das_payloadLen das;
     das_prefixLen := p; das_suffixLen := s; das_window := das_window das |}.

(** Modelled from the spec: the [metadata] interface value held by a
    segment is one of the two structures (a tagged union); Go's interface
    also admits some other implementation, [MOther]. *)
Inductive metadata : Type :=
| MSession (ss : sessionStruct)
| MDataAck (das : dataAckStruct)
| MOther (p : byte).

(** Modelled from the spec: [Protocol()] gives the protocol byte, the
    first field of either structure. *)
Definition Protocol (m : metadata) : byte :=
  match m with
  | MSession ss => ss_protocol ss
  | MDataAck das => das_protocol das
  | MOther p => p
  end.

(** Modelled from the spec: a segment is its metadata and its payload. *)
Record segment : Type := {
  seg_metadata : metadata;
  seg_payload : bytes;
}.

(** Go's conversions [uint8(x)] and arithmetic on [uint16]. *)
Definition uint8 (x : Z) : Z := x mod 256.
Definition uint16 (x : Z) : Z := x mod 65536.

(** ** Sessions *)

(** Modelled from the spec: the session object (declared outside this
    file).  [s_recvChan] is the content of the channel [recvChan], oldest
    first; [s_ready] tells whether the latch [ready] has been closed;
    [s_attached] whether [conn] points to this underlay; [s_loops] counts
    the input and output loops started for it. *)
Record Session : Type := {
  s_id : N;
  s_isClient : bool;
  s_mtu : Z;
  s_recvChan : list segment;
  s_ready : bool;
  s_attached : bool;
  s_loops : nat;
}.

(** Modelled from the spec: a new session has an empty channel, an open
    [ready] latch and no underlay yet. *)
Definition NewSession (id : N) (isClient : bool) (mtu : Z) : Session :=
  {| s_id := id; s_isClient := isClient; s_mtu := mtu; s_recvChan := [];
     s_ready := false; s_attached := false; s_loops := 0 |}.

(** [s.recvChan <- seg] *)
Definition chanSend (seg : segment) (s : Session) : Session :=
  {| s_id := s_id s; s_isClient := s_isClient s; s_mtu := s_mtu s;
     s_recvChan := s_recvChan s ++ [seg];
     s_ready := s_ready s; s_attached := s_attached s; s_loops := s_loops s |}.

(** [s.conn = t] *)
Definition set_attached (s : Session) : Session :=
  {| s_id := s_id s; s_isClient := s_isClient s; s_mtu := s_mtu s;
     s_recvChan := s_recvChan s;
     s_ready := s_ready s; s_attached := true; s_loops := s_loops s |}.

(** [close(s.ready); s.wg.Add(2); go ...; go ...] *)
Definition start (s : Session) : Session :=
  {| s_id := s_id s; s_isClient := s_isClient s; s_mtu := s_mtu s;
     s_recvChan := s_recvChan s;
     s_ready := true; s_attached := s_attached s;
     s_loops := (s_loops s + 2)%nat |}.

(** A [*Session] is an index into the store of sessions. *)
Abbreviation ptr := nat (only parsing).

(** ** The embedded baseUnderlay and the transport *)

(** The structure [baseUnderlay] is declared outside this file; its
    fields are those the file reads and writes: [t.isClient], [t.MTU()],
    [t.done], [t.sessionMap] and [t.readySessions]. *)
Record baseUnderlay : Type := {
  isClient : bool;
  mtu : Z;
  done : bool;                    (* the latch [done] has been closed *)
  sessionMap : gmap N nat;        (* map[uint32]*Session *)
  readySessions : list nat;       (* chan *Session, oldest first *)
}.

(** [*net.TCPConn]: the bytes still to be read from the peer, the
    argument of every [Write] call so far (latest last), and whether
    [Close] was called. *)
Record TCPConn : Type := {
  unread : bytes;
  written : list bytes;
  closed : bool;
}.

(** ** The random number generator *)

(** Modelled from the spec: [rng.Intn(n)] yields a number of [[0, n)] and
    [newPadding(n)] yields [n] random bytes (both are declared outside
    this file).  The randomness is an arbitrary pair of streams read at a
    cursor. *)
Record RNG : Type := {
  draws : nat -> Z;
  noise : nat -> byte;
  cursor : nat;
}.

Definition rng_advance (k : nat) (r : RNG) : RNG :=
  {| draws := draws r; noise := noise r; cursor := (cursor r + k)%nat |}.

(** Modelled from the spec: the next draw, brought into [[0, n)]. *)
Definition rng_Intn (n : Z) (r : RNG) : Z * RNG :=
  (draws r (cursor r) mod n, rng_advance 1 r).

(** Modelled from the spec: the next [n] bytes of noise. *)
Definition rng_padding (n : Z) (r : RNG) : bytes * RNG :=
  (map (noise r) (seq (cursor r) (Z.to_nat n)), rng_advance (Z.to_nat n) r).

(** ** What the file imports *)

(** The interface [cipher.BlockCipher].  A cipher handle carries its
    nonce counter, so encrypting and decrypting also give the handle's
    next state; [None] is a returned error. *)
Class BlockCipher (C : Type) : Type := {
  Encrypt : C -> bytes -> option bytes * C;
  Decrypt : C -> bytes -> option bytes * C;
  Clone : C -> C;
  SetImplicitNonceMode : C -> bool -> C;
  IsStateless : C -> bool;
}.

(** The rest of what [underlay_tcp.go] uses and does not declare: the
    constants and functions of the packages [cipher] and [replay], the
    segment codec of [protocolv2], the methods of [baseUnderlay] and the
    dialer of package [net]. *)
Class Imports (C : Type) : Type := {
  (* package cipher *)
  DefaultOverhead : nat;
  DefaultNonceSize : nat;
  SelectDecrypt : bytes -> list C -> option (C * bytes);
  (* package replay *)
  Cache : Type;
  IsDuplicate : Cache -> bytes -> bytes -> bool * Cache;
  EmptyTag : bytes;
  (* the segment codec *)
  metadataLength : nat;
  isSessionProtocol : byte -> bool;
  isDataAckProtocol : byte -> bool;
  openSessionRequest : byte;
  openSessionResponse : byte;
  closeSessionRequest : byte;
  closeSessionResponse : byte;
  closeConnRequest : byte;
  closeConnResponse : byte;
  ss_Marshal : sessionStruct -> bytes;
  ss_Unmarshal : bytes -> option sessionStruct;
  das_Marshal : dataAckStruct -> bytes;
  das_Unmarshal : bytes -> option dataAckStruct;
  toSessionStruct : metadata -> option sessionStruct;
  toDataAckStruct : metadata -> option dataAckStruct;
  (* baseUnderlay: each method acts on the embedded structure and on the
     sessions it points to *)
  newBaseUnderlay : bool -> Z -> baseUnderlay;
  base_AddSession : ptr -> baseUnderlay * list Session ->
                    option error * (baseUnderlay * list Session);
  base_RemoveSession : ptr -> baseUnderlay * list Session ->
                       option error * (baseUnderlay * list Session);
  base_Close : baseUnderlay * list Session -> baseUnderlay * list Session;
  (* package net *)
  ResolveTCPAddr : string -> string -> option string;
  DialContext : string -> option string -> string -> option TCPConn;
}.

(** [cipher.CloneBlockCiphers] *)
Definition CloneBlockCiphers `{BlockCipher C} (blocks : list C) : list C :=
  map Clone blocks.

Declare Scope go_scope.
Delimit Scope go_scope with go.

Section Underlay.

Context {C : Type} `{BC : BlockCipher C} `{IM : Imports C}.

(** ** The state *)

Record TCPUnderlay : Type := {
  base : baseUnderlay;
  conn : option TCPConn;          (* nil before a connection is set *)
  send : option C;
  recv : option C;
  candidates : list C;
}.

Record World : Type := {
  underlay : TCPUnderlay;        (* the receiver [t] *)
  sessions : list Session;        (* the Session a pointer refers to *)
  tcpReplayCache : Cache;
  replay_NewSession : nat;        (* replay.NewSession *)
  replay_KnownSession : nat;      (* replay.KnownSession *)
  rng : RNG;
}.

Definition with_t (f : TCPUnderlay -> TCPUnderlay) (w : World) : World :=
  {| underlay := f (underlay w); sessions := sessions w;
     tcpReplayCache := tcpReplayCache w;
     replay_NewSession := replay_NewSession w;
     replay_KnownSession := replay_KnownSession w; rng := rng w |}.

Definition set_base (b : baseUnderlay) (u : TCPUnderlay) : TCPUnderlay :=
  {| base := b; conn := conn u; send := send u; recv := recv u;
     candidates := candidates u |}.

Definition set_conn (c : option TCPConn) (u : TCPUnderlay) : TCPUnderlay :=
  {| base := base u; conn := c; send := send u; recv := recv u;
     candidates := candidates u |}.

Definition set_send (s : option C) (u : TCPUnderlay) : TCPUnderlay :=
  {| base := base u; conn := conn u; send := s; recv := recv u;
     candidates := candidates u |}.

Definition set_recv (r : option C) (u : TCPUnderlay) : TCPUnderlay :=
  {| base := base u; conn := conn u; send := send u; recv := r;
     candidates := candidates u |}.

Definition set_sessions (h : list Session) (w : World) : World :=
  {| underlay := underlay w; sessions := h; tcpReplayCache := tcpReplayCache w;
     replay_NewSession := replay_NewSession w;
     replay_KnownSession := replay_KnownSession w; rng := rng w |}.

Definition set_cache (c : Cache) (w : World) : World :=
  {| underlay := underlay w; sessions := sessions w; tcpReplayCache := c;
     replay_NewSession := replay_NewSession w;
     replay_KnownSession := replay_KnownSession w; rng := rng w |}.

Definition add_NewSession (k : nat) (w : World) : World :=
  {| underlay := underlay w; sessions := sessions w;
     tcpReplayCache := tcpReplayCache w;
     replay_NewSession := (replay_NewSession w + k)%nat;
     replay_KnownSession := replay_KnownSession w; rng := rng w |}.

Definition add_KnownSession (k : nat) (w : World) : World :=
  {| underlay := underlay w; sessions := sessions w;
     tcpReplayCache := tcpReplayCache w;
     replay_NewSession := replay_NewSession w;
     replay_KnownSession := (replay_KnownSession w + k)%nat; rng := rng w |}.

Definition set_rng (r : RNG) (w : World) : World :=
  {| underlay := underlay w; sessions := sessions w;
     tcpReplayCache := tcpReplayCache w;
     replay_NewSession := replay_NewSession w;
     replay_KnownSession := replay_KnownSession w; rng := r |}.

(** ** The monad *)

Definition M (A : Type) : Type := World -> Res A * World.

Definition ret {A} (a : A) : M A := fun w => (Ok a, w).
Definition fail {A} (e : error) : M A := fun w => (Err e, w).
Definition panic {A} : M A := fun w => (Panic, w).

Definition bind {A B} (m : M A) (k : A -> M B) : M B :=
  fun w =>
    match m w with
    | (Ok a, w') => k a w'
    | (Err e, w') => (Err e, w')
    | (Panic, w') => (Panic, w')
    end.

(** [if err != nil { return fmt.Errorf(format, err) }] around a call *)
Definition wrap {A} (format : string) (m : M A) : M A :=
  fun w =>
    match m w with
    | (Err e, w') => (Err (Errorw format e), w')
    | r => r
    end.

(** Reading the receiver's fields. *)
Definition gets {A} (f : World -> A) : M A := fun w => (Ok (f w), w).
Definition modify (f : World -> World) : M unit := fun w => (Ok tt, f w).

(** [_ = f()]: the returned error is dropped. *)
Definition ignore_error (m : M unit) : M unit :=
  fun w =>
    match m w with
    | (Err _, w') => (Ok tt, w')
    | r => r
    end.

Notation "x <- m ; k" := (bind m (fun x => k))
  (at level 100, m at next level, right associativity) : go_scope.
Notation "m ;; k" := (bind m (fun _ => k))
  (at level 100, right associativity) : go_scope.
Local Open Scope go_scope.

(** [x == nil] for a cipher interface value *)
Definition isNil {A} (o : option A) : bool :=
  match o with None => true | Some _ => false end.

(** ** The transport *)

(** [t.conn] is a [*net.TCPConn], whose methods [Read], [Write] and
    [Close] are promoted from the struct it embeds: a call through a nil
    pointer panics (nil pointer dereference) before the method's own
    check is reached. *)

(** [io.ReadFull(t.conn, buf)] with [len(buf) = n].  For an empty buffer
    [Read] is not called and nothing is read; otherwise a nil connection
    panics, a closed connection fails, and a stream that ends before [n]
    bytes is consumed and fails. *)
Definition ReadFull (n : nat) : M bytes := fun w =>
  if (n =? 0)%nat then (Ok [], w) else
  match conn (underlay w) with
  | None => (Panic, w)
  | Some c =>
      if closed c then (Err (ErrIO "use of closed network connection"), w)
      else if (n <=? length (unread c))%nat then
        (Ok (take n (unread c)),
         with_t (set_conn (Some {| unread := drop n (unread c);
                                   written := written c;
                                   closed := false |})) w)
      else
        (Err (ErrIO "EOF"),
         with_t (set_conn (Some {| unread := []; written := written c;
                                   closed := false |})) w)
  end.

(** [t.conn.Write(data)]: one call, one entry of [written]; a nil
    connection panics. *)
Definition conn_Write (data : bytes) : M unit := fun w =>
  match conn (underlay w) with
  | None => (Panic, w)
  | Some c =>
      if closed c then (Err (ErrIO "use of closed network connection"), w)
      else (Ok tt,
            with_t (set_conn (Some {| unread := unread c;
                                      written := written c ++ [data];
                                      closed := false |})) w)
  end.

(** [t.conn.Close()]; a nil connection panics. *)
Definition conn_Close : M unit := fun w =>
  match conn (underlay w) with
  | None => (Panic, w)
  | Some c =>
      if closed c then (Err (ErrIO "use of closed network connection"), w)
      else (Ok tt,
            with_t (set_conn (Some {| unread := unread c;
                                      written := written c;
                                      closed := true |})) w)
  end.

(** [b[:n]]: a slice expression past the capacity panics. *)
Definition slice_to (n : nat) (b : bytes) : M bytes :=
  if (n <=? length b)%nat then ret (take n b) else panic.

(** ** Close, AddSession, RemoveSession *)

Definition run_base (f : baseUnderlay * list Session ->
                         baseUnderlay * list Session) (w : World) : World :=
  let '(b, h) := f (base (underlay w), sessions w) in
  set_sessions h (with_t (set_base b) w).

Definition Close : M unit := fun w =>
  if done (base (underlay w)) then (Ok tt, w)
  else conn_Close (run_base base_Close w).

(** Storing through a nil [s] panics, and so does closing the latch
    [ready] a second time. *)
Definition AddSession (s : ptr) : M unit := fun w =>
  let '(err, bh) := base_AddSession s (base (underlay w), sessions w) in
  let w1 := run_base (fun _ => bh) w in
  match err with
  | Some e => (Err e, w1)
  | None =>
      match sessions w1 !! s with
      | None => (Panic, w1)
      | Some x =>
          let w2 := set_sessions (alter set_attached s (sessions w1)) w1 in
          if s_ready x then (Panic, w2)
          else (Ok tt, set_sessions (alter start s (sessions w2)) w2)
      end
  end.

(** The error of [t.Close()] is dropped; a panic in it is not. *)
Definition RemoveSession (s : ptr) : M unit := fun w =>
  let '(err, bh) := base_RemoveSession s (base (underlay w), sessions w) in
  let w1 := run_base (fun _ => bh) w in
  let res := match err with Some e => Err e | None => Ok tt end in
  if bool_decide (size (sessionMap (base (underlay w1))) = 0%nat) then
    match Close w1 with
    | (Panic, w2) => (Panic, w2)
    | (_, w2) => (res, w2)
    end
  else (res, w1).

(** ** readOneSegment *)

(** [tcpReplayCache.IsDuplicate(tag, replay.EmptyTag)] *)
Definition tcpReplayCache_IsDuplicate (tag : bytes) : M bool := fun w =>
  let '(dup, c) := IsDuplicate (tcpReplayCache w) tag EmptyTag in
  (Ok dup, set_cache c w).

(** [t.recv.Decrypt(data)]; the method call panics on a nil [t.recv]. *)
Definition recv_Decrypt (data : bytes) : M bytes := fun w =>
  match recv (underlay w) with
  | None => (Panic, w)
  | Some r =>
      let '(res, r') := Decrypt r data in
      let w' := with_t (set_recv (Some r')) w in
      match res with
      | Some plain => (Ok plain, w')
      | None => (Err (Errorw "Decrypt() failed: %w" (ErrCipher "Decrypt")), w')
      end
  end.

(** Lines 272-285: the length to read, and the read. *)
Definition readEncryptedMetadata : M (bool * bytes) :=
  u <- gets underlay;
  let firstRead := isNil (recv u) in
  let readLen := (metadataLength + DefaultOverhead +
                  (if firstRead then DefaultNonceSize else 0))%nat in
  encryptedMeta <- wrap "metadata: read %d bytes from TCPUnderlay failed: %w"
                        (ReadFull readLen);
  ret (firstRead, encryptedMeta).

(** Lines 286-293: the replay check on the first bytes of the buffer. *)
Definition checkReplay (firstRead : bool) (encryptedMeta : bytes) : M unit :=
  tag <- slice_to DefaultOverhead encryptedMeta;
  dup <- tcpReplayCache_IsDuplicate tag;
  if dup then
    if firstRead then
      modify (add_NewSession 1);;
      fail (Errorf "found possible replay attack in %v")
    else modify (add_KnownSession 1)
  else ret tt.

(** Lines 295-315: the receive cipher is set up if needed, the metadata
    decrypted and its length checked. *)
Definition decryptMetadata (encryptedMeta : bytes) : M bytes :=
  u <- gets underlay;
  (if isNil (recv u) && isClient (base u) then
     match candidates u with
     | [] => panic
     | c :: _ => modify (with_t (set_recv (Some (Clone c))))
     end
   else ret tt);;
  u <- gets underlay;
  decryptedMeta <-
    (if isNil (recv u) then
       match SelectDecrypt encryptedMeta
               (CloneBlockCiphers (candidates u)) with
       | None => fail (Errorw "cipher.SelectDecrypt() failed: %w"
                              (ErrCipher "SelectDecrypt"))
       | Some (peerBlock, plain) =>
           modify (with_t (set_recv (Some (Clone peerBlock))));;
           ret plain
       end
     else recv_Decrypt encryptedMeta);
  if negb (length decryptedMeta =? metadataLength)%nat then
    fail (Errorf "decrypted metadata size %d is unexpected")
  else ret decryptedMeta.

(** Lines 340-352 and again 376-388: read and decrypt the payload.  The
    length [payloadLen + cipher.DefaultOverhead] is computed in uint16. *)
Definition readEncryptedPayload (payloadLen : Z) : M bytes :=
  let n := Z.to_nat (uint16 (payloadLen + Z.of_nat DefaultOverhead)) in
  encryptedPayload <- wrap "payload: read %d bytes from TCPUnderlay failed: %w"
                           (ReadFull n);
  tag <- slice_to DefaultOverhead encryptedPayload;
  dup <- tcpReplayCache_IsDuplicate tag;
  (if dup then modify (add_KnownSession 1) else ret tt);;
  recv_Decrypt encryptedPayload.

Definition readPadding (len : Z) : M unit :=
  if 0 <? len then
    wrap "padding: read %d bytes from TCPUnderlay failed: %w"
         (ReadFull (Z.to_nat len));;
    ret tt
  else ret tt.

Definition readSessionSegment (ss : sessionStruct) : M segment :=
  decryptedPayload <-
    (if 0 <? ss_payloadLen ss then readEncryptedPayload (ss_payloadLen ss)
     else ret []);
  readPadding (ss_suffixLen ss);;
  ret {| seg_metadata := MSession ss; seg_payload := decryptedPayload |}.

Definition readDataAckSegment (das : dataAckStruct) : M segment :=
  readPadding (das_prefixLen das);;
  decryptedPayload <-
    (if 0 <? das_payloadLen das then readEncryptedPayload (das_payloadLen das)
     else ret []);
  readPadding (das_suffixLen das);;
  ret {| seg_metadata := MDataAck das; seg_payload := decryptedPayload |}.

(** Lines 317-333: the protocol byte selects the structure to decode
    and the rest of the segment to read. *)
Definition readPayload (decryptedMeta : bytes) : M segment :=
  match decryptedMeta with
  | [] => panic
  | p :: _ =>
      if isSessionProtocol p then
        match ss_Unmarshal decryptedMeta with
        | None =>
            fail (Errorw "Unmarshal() failed: %w" (Errorf "sessionStruct"))
        | Some ss => readSessionSegment ss
        end
      else if isDataAckProtocol p then
        match das_Unmarshal decryptedMeta with
        | None =>
            fail (Errorw "Unmarshal() failed: %w" (Errorf "dataAckStruct"))
        | Some das => readDataAckSegment das
        end
      else fail (Errorf "unable to handle protocol %d")
  end.

Definition readOneSegment : M segment :=
  r <- readEncryptedMetadata;
  let '(firstRead, encryptedMeta) := r in
  checkReplay firstRead encryptedMeta;;
  decryptedMeta <- decryptMetadata encryptedMeta;
  readPayload decryptedMeta.

(** ** writeOneSegment *)

Definition maybeInitSendBlockCipher : M unit := fun w =>
  let u := underlay w in
  match send u with
  | Some _ => (Ok tt, w)
  | None =>
      if isClient (base u) then
        match candidates u with
        | [] => (Panic, w)
        | c :: _ => (Ok tt, with_t (set_send (Some (Clone c))) w)
        end
      else
        match recv u with
        | Some r =>
            let s := Clone r in
            let s := SetImplicitNonceMode s false in
            let s := SetImplicitNonceMode s true in
            (Ok tt, with_t (set_send (Some s)) w)
        | None => (Err (Errorf "recv cipher is nil"), w)
        end
  end.

(** [t.send.Encrypt(data)]; the method call panics on a nil [t.send]. *)
Definition send_Encrypt (data : bytes) : M bytes := fun w =>
  match send (underlay w) with
  | None => (Panic, w)
  | Some s =>
      let '(res, s') := Encrypt s data in
      let w' := with_t (set_send (Some s')) w in
      match res with
      | Some cipher => (Ok cipher, w')
      | None => (Err (Errorw "Encrypt() failed: %w" (ErrCipher "Encrypt")), w')
      end
  end.

(** [rng.Intn(n)] and [newPadding(n)] on the process's generator. *)
Definition Intn (n : Z) : M Z := fun w =>
  let '(x, r) := rng_Intn n (rng w) in (Ok x, set_rng r w).

Definition newPadding (n : Z) : M bytes := fun w =>
  let '(p, r) := rng_padding n (rng w) in (Ok p, set_rng r w).

(** The payload, when there is one, is encrypted and appended:
    [if len(seg.payload) > 0 { ...; dataToSend = append(dataToSend, ...) }] *)
Definition appendEncryptedPayload (dataToSend payload : bytes) : M bytes :=
  if (0 <? length payload)%nat then
    encryptedPayload <- send_Encrypt payload;
    ret (dataToSend ++ encryptedPayload)
  else ret dataToSend.

(** [seg] is a [*segment]: [None] is the nil pointer.  The lengths drawn
    are stored into the segment's own metadata structure, which is then
    marshalled. *)
Definition writeOneSegment (seg : option segment) : M unit :=
  match seg with
  | None => fail ErrNullPointer
  | Some seg =>
      match toSessionStruct (seg_metadata seg) with
      | Some ss =>
          suffixLen <- Intn 255;
          let ss := ss_with_suffixLen ss (uint8 suffixLen) in
          padding <- newPadding suffixLen;
          let plaintextMetadata := ss_Marshal ss in
          wrap "maybeInitSendBlockCipher() failed: %w"
               maybeInitSendBlockCipher;;
          encryptedMetadata <- send_Encrypt plaintextMetadata;
          let dataToSend := encryptedMetadata in
          dataToSend <- appendEncryptedPayload dataToSend (seg_payload seg);
          let dataToSend := dataToSend ++ padding in
          wrap "Write() failed: %w" (conn_Write dataToSend)
      | None =>
          match toDataAckStruct (seg_metadata seg) with
          | Some das =>
              paddingLen1 <- Intn 255;
              paddingLen2 <- Intn 255;
              let das := das_with_padding das (uint8 paddingLen1)
                                          (uint8 paddingLen2) in
              padding1 <- newPadding paddingLen1;
              padding2 <- newPadding paddingLen2;
              let plaintextMetadata := das_Marshal das in
              wrap "maybeInitSendBlockCipher() failed: %w"
                   maybeInitSendBlockCipher;;
              encryptedMetadata <- send_Encrypt plaintextMetadata;
              let dataToSend := encryptedMetadata ++ padding1 in
              dataToSend <- appendEncryptedPayload dataToSend (seg_payload seg);
              let dataToSend := dataToSend ++ padding2 in
              wrap "Write() failed: %w" (conn_Write dataToSend)
          | None => fail ErrInvalidArgument
          end
      end
  end.

(** ** The event loop *)

(** [session.recvChan <- seg] through the pointer [session].  The
    channel is taken to have room: a send on a full channel would block
    the event loop until the session's input loop makes room. *)
Definition recvChan_send (session : ptr) (seg : segment) : M unit :=
  modify (fun w => set_sessions (alter (chanSend seg) session (sessions w)) w).

(** [t.readySessions <- session], the channel having room. *)
Definition readySessions_send (session : ptr) : M unit :=
  modify (with_t (fun u =>
    set_base {| isClient := isClient (base u); mtu := mtu (base u);
                done := done (base u); sessionMap := sessionMap (base u);
                readySessions := readySessions (base u) ++ [session] |} u)).

(** [NewSession(...)] allocates: the new pointer is the next free index. *)
Definition new_Session (id : N) (client : bool) (m : Z) : M ptr := fun w =>
  (Ok (length (sessions w)),
   set_sessions (sessions w ++ [NewSession id client m]) w).

(** The type assertion of [seg.metadata] to a pointer to [sessionStruct]
    panics on any other dynamic type. *)
Definition assertSessionStruct (seg : segment) : M sessionStruct :=
  match seg_metadata seg with
  | MSession ss => ret ss
  | _ => panic
  end.

Definition onOpenSessionRequest (seg : segment) : M unit :=
  u <- gets underlay;
  if isClient (base u) then fail ErrInvalidOperation else
  ss <- assertSessionStruct seg;
  let sessionID := ss_sessionID ss in
  if (sessionID =? 0)%N then fail (Errorf "reserved session ID %d is used") else
  match sessionMap (base u) !! sessionID with
  | Some _ => fail (Errorf "session ID %d is already used")
  | None =>
      session <- new_Session sessionID (isClient (base u))
                             (mtu (base u));
      ignore_error (AddSession session);;
      recvChan_send session seg;;
      readySessions_send session
  end.

Definition onOpenSessionResponse (seg : segment) : M unit :=
  u <- gets underlay;
  if negb (isClient (base u)) then fail ErrInvalidOperation else
  ss <- assertSessionStruct seg;
  match sessionMap (base u) !! ss_sessionID ss with
  | None => fail (Errorf "session ID %d is not found")
  | Some session => recvChan_send session seg
  end.

(** [session.wg.Wait()] returns once the session's two loops have ended;
    it changes nothing in the state. *)
Definition onCloseSession (seg : segment) : M unit :=
  u <- gets underlay;
  ss <- assertSessionStruct seg;
  match sessionMap (base u) !! ss_sessionID ss with
  | None => fail (Errorf "session ID %d is not found")
  | Some session =>
      recvChan_send session seg;;
      ignore_error (RemoveSession session)
  end.

(** The body of the [for] after a segment was read: [true] goes on to
    the next iteration. *)
Definition dispatch (seg : segment) : M bool :=
  let p := Protocol (seg_metadata seg) in
  if isSessionProtocol p then
    (if Byte.eqb p openSessionRequest then
       wrap "onOpenSessionRequest() failed: %v" (onOpenSessionRequest seg)
     else if Byte.eqb p openSessionResponse then
       wrap "onOpenSessionResponse() failed: %v" (onOpenSessionResponse seg)
     else if Byte.eqb p closeSessionRequest
             || Byte.eqb p closeSessionResponse then
       wrap "onCloseSession() failed: %v" (onCloseSession seg)
     else if Byte.eqb p closeConnRequest then ret tt
     else if Byte.eqb p closeConnResponse then ret tt
     else ret tt);;
    ret true
  else if isDataAckProtocol p then
    match toDataAckStruct (seg_metadata seg) with
    | None => panic
    | Some das =>
        u <- gets underlay;
        match sessionMap (base u) !! das_sessionID das with
        | None => ret true
        | Some session => recvChan_send session seg;; ret true
        end
    end
  else ret true.

(** One iteration of the [for]; [cancelled] tells whether [ctx.Done()]
    is closed when the [select] looks at it.  [false] is [return nil]. *)
Definition iteration (cancelled : bool) : M bool :=
  u <- gets underlay;
  if cancelled || done (base u) then ret false else
  seg <- wrap "readOneSegment() failed: %w" readOneSegment;
  dispatch seg.

(** How a call of [RunEventLoop] stands after the iterations observed:
    it has returned nil, or it is about to start another iteration. *)
Inductive Exit : Type := Returned | Running.

Fixpoint eventLoop (ctx : list bool) : M Exit :=
  match ctx with
  | [] => ret Running
  | cancelled :: ctx' =>
      continue <- iteration cancelled;
      if continue then eventLoop ctx' else ret Returned
  end.

(** [ctx] lists what each iteration's [select] sees of [ctx.Done()]; the
    loop is followed for that many iterations. *)
Definition RunEventLoop (ctx : list bool) : M Exit :=
  u <- gets underlay;
  if isNil (conn u) then fail ErrNullPointer else eventLoop ctx.

End Underlay.

(** ** NewTCPUnderlay *)

(** The calls made to package [net], in order. *)
Inductive NetCall : Type :=
| CallResolveTCPAddr (network laddr : string)
| CallDialContext (network : string) (localAddr : option string)
                  (raddr : string).

Section Construction.

Context {C : Type} `{BC : BlockCipher C} `{IM : Imports C}.

Definition NewTCPUnderlay (network laddr raddr : string) (mtu : Z) (block : C)
  : Res (@TCPUnderlay C) * list NetCall :=
  if negb (String.eqb network "tcp" || String.eqb network "tcp4"
           || String.eqb network "tcp6") then
    (Err (Errorf "network %s is not supported for TCP underlay"), [])
  else if IsStateless block then
    (Err (Errorf "TCP block cipher must not be stateless"), [])
  else
    let resolved :=
      if negb (String.eqb laddr "") then
        match ResolveTCPAddr network laddr with
        | None =>
            (Err (Errorw "net.ResolveTCPAddr() failed: %w" (ErrIO "resolve")),
             [CallResolveTCPAddr network laddr])
        | Some a => (Ok (Some a), [CallResolveTCPAddr network laddr])
        end
      else (Ok None, []) in
    match resolved with
    | (Ok localAddr, calls) =>
        let calls := calls ++ [CallDialContext network localAddr raddr] in
        match DialContext network localAddr raddr with
        | None =>
            (Err (Errorw "DialContext() failed: %w" (ErrIO "dial")), calls)
        | Some c =>
            (Ok {| base := newBaseUnderlay true mtu; conn := Some c;
                   send := None; recv := None; candidates := [block] |}, calls)
        end
    | (Err e, calls) => (Err e, calls)
    | (Panic, calls) => (Panic, calls)
    end.

End Construction.

(** * The vocabulary of the statements *)

Section Vocabulary.

Context {C : Type} `{BC : BlockCipher C} `{IM : Imports C}.

(** [keeps R m]: whatever [m] does and however it ends, the state it
    leaves is related by [R] to the one it started from. *)
Definition keeps {A} (R : World -> World -> Prop) (m : M A) : Prop :=
  forall w, R w (snd (m w)).

(** The view [proj] of the state is the same in both states. *)
Definition unchanged {V} (proj : World -> V) (w w' : World) : Prop :=
  proj w' = proj w.

(** The embedded [baseUnderlay] (with the session table) and the
    sessions themselves (with their channels) are the same in both
    states. *)
Definition same_sessions (w w' : World) : Prop :=
  base (underlay w') = base (underlay w) /\ sessions w' = sessions w.

(** [commutes f m]: running [m] after the state change [f] gives the
    outcome of running [m] first, and the state with [f] applied last. *)
Definition commutes {A} (f : World -> World) (m : M A) : Prop :=
  forall w, m (f w) = (fst (m w), f (snd (m w))).

(** The connection of the underlay has been closed. *)
Definition connClosed (w : World) : bool :=
  match conn (underlay w) with
  | Some c => closed c
  | None => false
  end.

(** Everything written to the transport so far, one entry per call. *)
Definition writes (w : World) : list bytes :=
  match conn (underlay w) with
  | Some c => written c
  | None => []
  end.

(** The bytes the peer has sent that the underlay has not read yet. *)
Definition unreadBytes (w : World) : bytes :=
  match conn (underlay w) with
  | Some c => unread c
  | None => []
  end.

(** The length of the encrypted metadata on the wire: the nonce is there
    on the first read, when the receive cipher is still nil. *)
Definition wireMetadataLength (w : World) : nat :=
  (metadataLength + DefaultOverhead
   + (if isNil (recv (underlay w)) then DefaultNonceSize else 0))%nat.

(** The plaintext and the next cipher state that the receive side gets
    for [encryptedMeta]: from the receive cipher when there is one, from
    a clone of the first candidate on a client, from the candidate picked
    by [SelectDecrypt] on a server. *)
Definition metadataPlaintext (encryptedMeta : bytes) (w : World)
  : option (bytes * C) :=
  let u := underlay w in
  match recv u with
  | Some r =>
      match Decrypt r encryptedMeta with
      | (Some plain, r') => Some (plain, r')
      | (None, _) => None
      end
  | None =>
      if isClient (base u) then
        match candidates u with
        | c :: _ =>
            match Decrypt (Clone c) encryptedMeta with
            | (Some plain, r') => Some (plain, r')
            | (None, _) => None
            end
        | [] => None
        end
      else
        match SelectDecrypt encryptedMeta
                (CloneBlockCiphers (candidates u)) with
        | Some (peerBlock, plain) => Some (plain, Clone peerBlock)
        | None => None
        end
  end.

(** What goes on the wire for [payload] from a cipher in state [s]:
    nothing when the payload is empty, its ciphertext otherwise. *)
Definition payloadCiphertext (s : C) (payload out : bytes) : Prop :=
  (payload = [] /\ out = []) \/
  (payload <> [] /\ exists s', Encrypt s payload = (Some out, s')).

(** The iteration of the event loop that starts in [w] (and is not
    cancelled) ends by going on to the next iteration. *)
Definition goes_on (w : World) : Prop :=
  exists w', iteration false w = (Ok true, w').

(** Lines 295-333, what follows the replay check: decrypt and decode
    the metadata, read the rest of the segment. *)
Definition decodeSegment (encryptedMeta : bytes) : M segment :=
  bind (decryptMetadata encryptedMeta) readPayload.

(** Reading: the only thing that happens to the connection is that a
    prefix of the unread bytes is taken off; nothing is written, nothing
    is closed, and the send side, the candidates, the session table, the
    sessions and the random generator are as before. *)
Definition only_reads (w w' : World) : Prop :=
  base (underlay w') = base (underlay w) /\
  sessions w' = sessions w /\
  send (underlay w') = send (underlay w) /\
  candidates (underlay w') = candidates (underlay w) /\
  rng w' = rng w /\
  writes w' = writes w /\
  connClosed w' = connClosed w /\
  exists taken, unreadBytes w = taken ++ unreadBytes w'.

(** Writing: the receive side, the unread bytes, the session table, the
    sessions, the replay cache and its counters and the candidates are
    as before, and the connection is not closed. *)
Definition only_sends (w w' : World) : Prop :=
  base (underlay w') = base (underlay w) /\
  sessions w' = sessions w /\
  recv (underlay w') = recv (underlay w) /\
  candidates (underlay w') = candidates (underlay w) /\
  tcpReplayCache w' = tcpReplayCache w /\
  replay_NewSession w' = replay_NewSession w /\
  replay_KnownSession w' = replay_KnownSession w /\
  unreadBytes w' = unreadBytes w /\
  connClosed w' = connClosed w.

(** At most one more [Write] call was made on the connection. *)
Definition at_most_one_write (w w' : World) : Prop :=
  writes w' = writes w \/ exists data, writes w' = writes w ++ [data].

(** Nothing sent yet: the receive side is untouched and the write log is
    as it was. *)
Definition quiet (w w' : World) : Prop :=
  only_sends w w' /\ writes w' = writes w.

(** A send cipher that is there stays there. *)
Definition send_stays (w w' : World) : Prop :=
  send (underlay w) <> None -> send (underlay w') <> None.

(** Where a reader in mid-connection stands: its receive cipher is in
    state [r], its connection is open and [u] is still to be read. *)
Definition reader_at (w : World) (r : C) (u : bytes) : Prop :=
  recv (underlay w) = Some r /\ connClosed w = false /\ unreadBytes w = u.

(** The segment went to session [s] and nowhere else: the underlay is as
    it was, no session was added or removed, the session at [s] has the
    segment at the end of its channel and every other session is as it
    was. *)
Definition delivered_to (seg : segment) (s : ptr) (w w' : World) : Prop :=
  underlay w' = underlay w /\
  length (sessions w') = length (sessions w) /\
  (forall q, q <> s -> sessions w' !! q = sessions w !! q) /\
  (forall x, sessions w !! s = Some x ->
     sessions w' !! s = Some (chanSend seg x)).

(** The two replay counters never go down. *)
Definition counters_grow (w w' : World) : Prop :=
  (replay_NewSession w <= replay_NewSession w')%nat /\
  (replay_KnownSession w <= replay_KnownSession w')%nat.

(** A receive cipher that is there stays there. *)
Definition recv_stays (w w' : World) : Prop :=
  recv (underlay w) <> None -> recv (underlay w') <> None.

(** Lines 411-413: from the generator state [r], the session metadata
    with the drawn suffix length recorded, and the padding. *)
Definition sessionDraw (ss : sessionStruct) (r : RNG)
  : sessionStruct * bytes :=
  let suffixLen := fst (rng_Intn 255 r) in
  (ss_with_suffixLen ss (uint8 suffixLen),
   fst (rng_padding suffixLen (snd (rng_Intn 255 r)))).

(** Lines 436-441: the same for a data-ack metadata, with its two
    draws and its two paddings. *)
Definition dataAckDraw (das : dataAckStruct) (r : RNG)
  : dataAckStruct * bytes * bytes :=
  let paddingLen1 := fst (rng_Intn 255 r) in
  let r1 := snd (rng_Intn 255 r) in
  let paddingLen2 := fst (rng_Intn 255 r1) in
  let r2 := snd (rng_Intn 255 r1) in
  (das_with_padding das (uint8 paddingLen1) (uint8 paddingLen2),
   fst (rng_padding paddingLen1 r2),
   fst (rng_padding paddingLen2 (snd (rng_padding paddingLen1 r2)))).

(** Over a finite sample of equally likely generator states: how many
    of them make [f] give [k], and [f] being uniform on [[0, n)] (it
    gives nothing else, and every number of the range equally often). *)
Definition occurrences (f : RNG -> Z) (k : Z) (sample : list RNG) : nat :=
  count_occ Z.eq_dec (List.map f sample) k.

Definition uniform_on (n : Z) (f : RNG -> Z) (sample : list RNG) : Prop :=
  (forall r, In r sample -> 0 <= f r < n) /\
  (forall j k, 0 <= j < n -> 0 <= k < n ->
               occurrences f j sample = occurrences f k sample).

(** A connection that is there stays there. *)
Definition conn_stays (w w' : World) : Prop :=
  conn (underlay w) <> None -> conn (underlay w') <> None.

(** The bytes a payload of [payloadLen] takes on the wire, as lines 340-343
    compute them, and the bytes that follow the metadata of a segment. *)
Definition payloadWireLength (payloadLen : Z) : nat :=
  if 0 <? payloadLen
  then Z.to_nat (uint16 (payloadLen + Z.of_nat DefaultOverhead))
  else 0%nat.

Definition bodyWireLength (m : metadata) : nat :=
  match m with
  | MSession ss =>
      (payloadWireLength (ss_payloadLen ss) + Z.to_nat (ss_suffixLen ss))%nat
  | MDataAck das =>
      (Z.to_nat (das_prefixLen das) + payloadWireLength (das_payloadLen das)
       + Z.to_nat (das_suffixLen das))%nat
  | MOther _ => 0%nat
  end.

(** Exactly [n] bytes were taken off the front of the unread bytes. *)
Definition takes (n : nat) (w w' : World) : Prop :=
  exists taken, unreadBytes w = taken ++ unreadBytes w' /\ length taken = n.

(** The payload length a metadata announces. *)
Definition announcedPayloadLen (m : metadata) : Z :=
  match m with
  | MSession ss => ss_payloadLen ss
  | MDataAck das => das_payloadLen das
  | MOther _ => 0
  end.

End Vocabulary.

(** * A small instance to run the model on *)

(** Stand-ins for what the file imports, simple enough to evaluate: a
    cipher that prefixes its key as a two-byte tag (after a three-byte
    nonce on a handle's first message), a replay cache that remembers
    every tag, a five-byte metadata layout in which the protocol bytes
    0 to 5 are the six session protocols, 16 to 31 are session protocols
    without a meaning yet and 6 to 9 are the data-ack protocols, a session
    table kept by insertion and deletion, and a network that always
    connects. *)
Module Sim.

Import Byte.

Record cipher : Type := {
  key : byte;
  count : nat;              (* messages handled: the nonce counter *)
  implicitNonce : bool;
  stateless : bool;
}.

Definition tick (c : cipher) : cipher :=
  {| key := key c; count := S (count c);
     implicitNonce := implicitNonce c; stateless := stateless c |}.

Definition encrypt (c : cipher) (data : bytes) : option bytes * cipher :=
  (Some ((if (count c =? 0)%nat then [key c; key c; key c] else [])
         ++ [key c; key c] ++ data), tick c).

Definition decrypt (c : cipher) (data : bytes) : option bytes * cipher :=
  match (if (count c =? 0)%nat then drop 3 data else data) with
  | k1 :: k2 :: plain =>
      if Byte.eqb k1 (key c) && Byte.eqb k2 (key c)
      then (Some plain, tick c) else (None, c)
  | _ => (None, c)
  end.

Definition setImplicitNonceMode (c : cipher) (b : bool) : cipher :=
  {| key := key c; count := 0; implicitNonce := b; stateless := stateless c |}.

#[global] Instance cipher_BlockCipher : BlockCipher cipher := {
  Encrypt := encrypt;
  Decrypt := decrypt;
  Clone := fun c => c;
  SetImplicitNonceMode := setImplicitNonceMode;
  IsStateless := stateless;
}.

Fixpoint selectDecrypt (data : bytes) (blocks : list cipher)
  : option (cipher * bytes) :=
  match blocks with
  | [] => None
  | b :: rest =>
      match decrypt b data with
      | (Some plain, b') => Some (b', plain)
      | (None, _) => selectDecrypt data rest
      end
  end.

Fixpoint bytes_eqb (a b : bytes) : bool :=
  match a, b with
  | [], [] => true
  | x :: a', y :: b' => Byte.eqb x y && bytes_eqb a' b'
  | _, _ => false
  end.

Definition isDuplicate (cache : list bytes) (tag _ : bytes)
  : bool * list bytes :=
  (existsb (bytes_eqb tag) cache, tag :: cache).

Definition Z_of_byte (b : byte) : Z := Z.of_N (Byte.to_N b).
Definition byte_of_Z (z : Z) : byte :=
  default x00 (Byte.of_N (Z.to_N (z mod 256))).

Definition marshalSession (ss : sessionStruct) : bytes :=
  [ss_protocol ss; byte_of_Z (Z.of_N (ss_sessionID ss));
   byte_of_Z (ss_payloadLen ss); byte_of_Z (ss_suffixLen ss); x00].

Definition unmarshalSession (b : bytes) : option sessionStruct :=
  match b with
  | [p; id; len; suffix; _] =>
      Some {| ss_protocol := p; ss_sessionID := Byte.to_N id; ss_seq := 0;
              ss_payloadLen := Z_of_byte len; ss_suffixLen := Z_of_byte suffix;
              ss_flags := 0 |}
  | _ => None
  end.

Definition marshalDataAck (das : dataAckStruct) : bytes :=
  [das_protocol das; byte_of_Z (Z.of_N (das_sessionID das));
   byte_of_Z (das_payloadLen das); byte_of_Z (das_prefixLen das);
   byte_of_Z (das_suffixLen das)].

Definition unmarshalDataAck (b : bytes) : option dataAckStruct :=
  match b with
  | [p; id; len; prefix; suffix] =>
      Some {| das_protocol := p; das_sessionID := Byte.to_N id; das_seq := 0;
              das_ack := 0; das_payloadLen := Z_of_byte len;
              das_prefixLen := Z_of_byte prefix;
              das_suffixLen := Z_of_byte suffix; das_window := 0 |}
  | _ => None
  end.

Definition with_table (m : gmap N nat) (b : baseUnderlay) : baseUnderlay :=
  {| isClient := isClient b; mtu := mtu b; done := done b;
     sessionMap := m; readySessions := readySessions b |}.

Definition addSession (s : nat) (bh : baseUnderlay * list Session)
  : option error * (baseUnderlay * list Session) :=
  match snd bh !! s with
  | None => (Some ErrNullPointer, bh)
  | Some x =>
      (None, (with_table (<[s_id x := s]> (sessionMap (fst bh))) (fst bh),
              snd bh))
  end.

Definition removeSession (s : nat) (bh : baseUnderlay * list Session)
  : option error * (baseUnderlay * list Session) :=
  match snd bh !! s with
  | None => (Some ErrNullPointer, bh)
  | Some x =>
      (None, (with_table (delete (s_id x) (sessionMap (fst bh))) (fst bh),
              snd bh))
  end.

Definition closeBase (bh : baseUnderlay * list Session)
  : baseUnderlay * list Session :=
  ({| isClient := isClient (fst bh); mtu := mtu (fst bh); done := true;
      sessionMap := sessionMap (fst bh);
      readySessions := readySessions (fst bh) |}, snd bh).

#[global] Instance cipher_Imports : Imports cipher := {
  DefaultOverhead := 2;
  DefaultNonceSize := 3;
  SelectDecrypt := selectDecrypt;
  Cache := list bytes;
  IsDuplicate := isDuplicate;
  EmptyTag := [];
  metadataLength := 5;
  isSessionProtocol := fun p =>
    (Z_of_byte p <=? 5) || ((16 <=? Z_of_byte p) && (Z_of_byte p <=? 31));
  isDataAckProtocol := fun p => (6 <=? Z_of_byte p) && (Z_of_byte p <=? 9);
  closeConnRequest := x00;
  closeConnResponse := x01;
  openSessionRequest := x02;
  openSessionResponse := x03;
  closeSessionRequest := x04;
  closeSessionResponse := x05;
  ss_Marshal := marshalSession;
  ss_Unmarshal := unmarshalSession;
  das_Marshal := marshalDataAck;
  das_Unmarshal := unmarshalDataAck;
  toSessionStruct := fun m =>
    match m with MSession ss => Some ss | _ => None end;
  toDataAckStruct := fun m =>
    match m with MDataAck das => Some das | _ => None end;
  newBaseUnderlay := fun client m =>
    {| isClient := client; mtu := m; done := false; sessionMap := ∅;
       readySessions := [] |};
  base_AddSession := addSession;
  base_RemoveSession := removeSession;
  base_Close := closeBase;
  ResolveTCPAddr := fun _ a => Some a;
  DialContext := fun _ _ _ =>
    Some {| unread := []; written := []; closed := false |};
}.

(** The cipher of a user, by key. *)
Definition user (k : byte) : cipher :=
  {| key := k; count := 0; implicitNonce := true; stateless := false |}.

(** An underlay with an open connection on which [stream] is still to
    be read. *)
Definition underlay_on (client : bool) (stream : bytes)
    (table : gmap N nat) (snd_ rcv_ : option cipher)
    (cands : list cipher) : @TCPUnderlay cipher :=
  {| base := {| isClient := client; mtu := 1400; done := false;
                sessionMap := table; readySessions := [] |};
     conn := Some {| unread := stream; written := []; closed := false |};
     send := snd_; recv := rcv_; candidates := cands |}.

Definition world (u : @TCPUnderlay cipher) (h : list Session)
    (cache : list bytes) : @World cipher _ :=
  {| underlay := u; sessions := h; tcpReplayCache := cache;
     replay_NewSession := 0; replay_KnownSession := 0;
     rng := {| draws := fun i => 257 + Z.of_nat i;
               noise := fun _ => xaa; cursor := 0 |} |}.

(** Sessions and segments to run on. *)
Definition session7 : Session :=
  {| s_id := 7; s_isClient := false; s_mtu := 1400; s_recvChan := [];
     s_ready := true; s_attached := true; s_loops := 2 |}.

Definition table7 : gmap N nat := {[ 7%N := 0%nat ]}.

(** A cipher of user [x11] that has handled its first message. *)
Definition started : cipher := tick (user x11).

(** On the wire: the first message of user [x11] (nonce, tag, metadata),
    an open-session request for session 7. *)
Definition first_message : bytes :=
  [x11; x11; x11; x11; x11; x02; x07; x00; x00; x00].

(** Later messages (tag, metadata): a data segment for session 7, an
    open-session request for session 7, an open-session response for
    session 7, a metadata whose protocol byte is [xff], and one whose
    protocol byte is the unassigned session protocol [x10]. *)
Definition data_message : bytes := [x11; x11; x06; x07; x00; x00; x00].
Definition open_message : bytes := [x11; x11; x02; x07; x00; x00; x00].
Definition response_message : bytes := [x11; x11; x03; x07; x00; x00; x00].
Definition novel_message : bytes := [x11; x11; xff; x07; x00; x00; x00].
Definition later_message : bytes := [x11; x11; x10; x07; x00; x00; x00].

(** A server before its first read, with a fresh replay cache and with
    one that has seen the first bytes of the message. *)
Definition server_fresh : World :=
  world (underlay_on false first_message ∅ None None [user x22; user x11])
        [] [].
Definition server_replayed : World :=
  world (underlay_on false first_message ∅ None None [user x22; user x11])
        [] [[x11; x11]].

(** A server in mid-connection that serves session 7. *)
Definition server_on (stream : bytes) (cache : list bytes) : World :=
  world (underlay_on false stream table7 None (Some started)
           [user x22; user x11])
        [session7] cache.

(** A server and a client in mid-connection without any session. *)
Definition server_idle (stream : bytes) : World :=
  world (underlay_on false stream ∅ None (Some started) [user x22; user x11])
        [] [].
Definition client_idle (stream : bytes) : World :=
  world (underlay_on true stream ∅ (Some started) (Some started) [user x11])
        [] [].

(** A server whose receive cipher still expects a nonce while the peer
    has stopped sending one. *)
Definition server_out_of_step (stream : bytes) : World :=
  world (underlay_on false stream ∅ None (Some (user x11))
           [user x22; user x11])
        [] [].

(** A client before its first read and write. *)
Definition client_fresh (stream : bytes) : World :=
  world (underlay_on true stream ∅ None None [user x11]) [] [].

Definition request7 : segment :=
  {| seg_metadata :=
       MSession {| ss_protocol := x02; ss_sessionID := 7; ss_seq := 0;
                   ss_payloadLen := 0; ss_suffixLen := 0; ss_flags := 0 |};
     seg_payload := [] |}.

Definition later7 : segment :=
  {| seg_metadata :=
       MSession {| ss_protocol := x10; ss_sessionID := 7; ss_seq := 0;
                   ss_payloadLen := 0; ss_suffixLen := 0; ss_flags := 0 |};
     seg_payload := [] |}.

Definition response7 : segment :=
  {| seg_metadata :=
       MSession {| ss_protocol := x03; ss_sessionID := 7; ss_seq := 0;
                   ss_payloadLen := 0; ss_suffixLen := 0; ss_flags := 0 |};
     seg_payload := [] |}.

Definition close7 : segment :=
  {| seg_metadata :=
       MSession {| ss_protocol := x04; ss_sessionID := 7; ss_seq := 0;
                   ss_payloadLen := 0; ss_suffixLen := 0; ss_flags := 0 |};
     seg_payload := [] |}.

Definition data7 (payload : bytes) : segment :=
  {| seg_metadata :=
       MDataAck {| das_protocol := x06; das_sessionID := 7; das_seq := 0;
                   das_ack := 0; das_payloadLen := Z.of_nat (length payload);
                   das_prefixLen := 0; das_suffixLen := 0; das_window := 0 |};
     seg_payload := payload |}.

(** An open-session request for session 7 that carries a payload, a
    close-conn request, and the messages that carry the close-session
    request for session 7 and the close-conn request. *)
Definition hello7 (payload : bytes) : segment :=
  {| seg_metadata :=
       MSession {| ss_protocol := x02; ss_sessionID := 7; ss_seq := 0;
                   ss_payloadLen := Z.of_nat (length payload);
                   ss_suffixLen := 0; ss_flags := 0 |};
     seg_payload := payload |}.

Definition closeConn0 : segment :=
  {| seg_metadata :=
       MSession {| ss_protocol := x00; ss_sessionID := 0; ss_seq := 0;
                   ss_payloadLen := 0; ss_suffixLen := 0; ss_flags := 0 |};
     seg_payload := [] |}.

Definition close_message : bytes := [x11; x11; x04; x07; x00; x00; x00].
Definition closeConn_message : bytes := [x11; x11; x00; x00; x00; x00; x00].

(** What a client in mid-connection puts on the wire for [hello7] and
    for [data7] with the payload [x01; x02]: tag and metadata, (prefix
    padding,) tag and payload, suffix padding. *)
Definition hello_message : bytes :=
  [x11; x11; x02; x07; x02; x02; x00; x11; x11; x01; x02; xaa; xaa].
Definition payload_message : bytes :=
  [x11; x11; x06; x07; x02; x02; x03; xaa; xaa; x11; x11; x01; x02;
   xaa; xaa; xaa].

(** A client in mid-connection that has opened session 7, a server
    before its first read that does not know user [x11], and an underlay
    without a connection. *)
Definition client_on (stream : bytes) : World :=
  world (underlay_on true stream table7 (Some started) (Some started)
           [user x11])
        [session7] [].

Definition server_stranger : World :=
  world (underlay_on false first_message ∅ None None [user x22]) [] [].

Definition unconnected : World :=
  world {| base := {| isClient := true; mtu := 1400; done := false;
                      sessionMap := ∅; readySessions := [] |};
           conn := None; send := None; recv := None;
           candidates := [user x11] |}
        [] [].

(** A sample of 255 generator states, one for each number that
    [rng.Intn(255)] can give. *)
Definition dice : list RNG :=
  List.map (fun i => {| draws := fun _ => Z.of_nat i;
                        noise := fun _ => xaa; cursor := 0 |})
           (seq 0 255).

(** The metadata of [request7] and of [data7 [x01; x02]]. *)
Definition open7 : sessionStruct :=
  {| ss_protocol := x02; ss_sessionID := 7; ss_seq := 0;
     ss_payloadLen := 0; ss_suffixLen := 0; ss_flags := 0 |}.
Definition ack7 : dataAckStruct :=
  {| das_protocol := x06; das_sessionID := 7; das_seq := 0;
     das_ack := 0; das_payloadLen := 2;
     das_prefixLen := 0; das_suffixLen := 0; das_window := 0 |}.

(** Two handles of the cipher in step: the same key, and both past
    their first message (no nonce is sent or expected any more). *)
Definition paired (s r : cipher) : Prop :=
  key s = key r /\ (1 <= count s)%nat /\ (1 <= count r)%nat.

End Sim.

(** * Properties *)

(** ** Running the monad *)

Section Running.

Context {C : Type} `{BC : BlockCipher C} `{IM : Imports C}.
Local Open Scope go_scope.

Lemma bind_ok {A B} (m : M A) (k : A -> M B) w a w' :
  m w = (Ok a, w') -> bind m k w = k a w'.
Proof. intros E. unfold bind. now rewrite E. Qed.

Lemma bind_err {A B} (m : M A) (k : A -> M B) w e w' :
  m w = (Err e, w') -> bind m k w = (Err e, w').
Proof. intros E. unfold bind. now rewrite E. Qed.

Lemma bind_panic {A B} (m : M A) (k : A -> M B) w w' :
  m w = (Panic, w') -> bind m k w = (Panic, w').
Proof. intros E. unfold bind. now rewrite E. Qed.

Lemma wrap_ok {A} format (m : M A) w a w' :
  m w = (Ok a, w') -> wrap format m w = (Ok a, w').
Proof. intros E. unfold wrap. now rewrite E. Qed.

Lemma wrap_err {A} format (m : M A) w e w' :
  m w = (Err e, w') -> wrap format m w = (Err (Errorw format e), w').
Proof. intros E. unfold wrap. now rewrite E. Qed.

(** An outcome found by evaluation, next to the state it comes with. *)
Lemma run_outcome {A} (m : M A) w r : fst (m w) = r -> m w = (r, snd (m w)).
Proof. intros <-. now destruct (m w). Qed.

(** A successful [bind] splits into its two halves. *)
Lemma bind_inv_ok {A B} (m : M A) (k : A -> M B) w b w2 :
  bind m k w = (Ok b, w2) ->
  exists a w1, m w = (Ok a, w1) /\ k a w1 = (Ok b, w2).
Proof.
  unfold bind. destruct (m w) as [[a|e|] w1]; intros E; try discriminate.
  eauto.
Qed.

Lemma wrap_inv_ok {A} format (m : M A) w a w' :
  wrap format m w = (Ok a, w') -> m w = (Ok a, w').
Proof.
  unfold wrap. destruct (m w) as [[x|e|] w1]; intros E; congruence.
Qed.

(** ** Relations kept by a computation *)

Section Keeps.

Variable R : World -> World -> Prop.
Hypothesis R_refl : forall w, R w w.
Hypothesis R_trans : forall a b c, R a b -> R b c -> R a c.

Lemma keeps_ret {A} (a : A) : keeps R (ret a).
Proof. intros w. apply R_refl. Qed.

Lemma keeps_fail {A} e : keeps R (fail e : M A).
Proof. intros w. apply R_refl. Qed.

Lemma keeps_panic {A} : keeps R (panic : M A).
Proof. intros w. apply R_refl. Qed.

Lemma keeps_gets {A} (f : World -> A) : keeps R (gets f).
Proof. intros w. apply R_refl. Qed.

Lemma keeps_modify f : (forall w, R w (f w)) -> keeps R (modify f).
Proof. intros H w. apply H. Qed.

Lemma keeps_bind {A B} (m : M A) (k : A -> M B) :
  keeps R m -> (forall a, keeps R (k a)) -> keeps R (bind m k).
Proof.
  intros Hm Hk w. unfold bind. specialize (Hm w).
  destruct (m w) as [[a|e|] w1]; simpl in *; auto.
  eapply R_trans; [exact Hm | apply Hk].
Qed.

Lemma keeps_wrap {A} format (m : M A) : keeps R m -> keeps R (wrap format m).
Proof.
  intros Hm w. unfold wrap. specialize (Hm w).
  destruct (m w) as [[a|e|] w1]; simpl in *; auto.
Qed.

Lemma keeps_ignore_error (m : M unit) : keeps R m -> keeps R (ignore_error m).
Proof.
  intros Hm w. unfold ignore_error. specialize (Hm w).
  destruct (m w) as [[a|e|] w1]; simpl in *; auto.
Qed.

End Keeps.

End Running.

(** ** What reading a segment leaves alone *)

Section ReadFrame.

Context {C : Type} `{BC : BlockCipher C} `{IM : Imports C}.
Local Open Scope go_scope.

(** A view [proj] of the state that does not look at the connection,
    the receive cipher, the replay cache or the KnownSession counter. *)
Context {V : Type} (proj : World -> V).
Hypothesis proj_conn : forall c w, proj (with_t (set_conn c) w) = proj w.
Hypothesis proj_recv : forall r w, proj (with_t (set_recv r) w) = proj w.
Hypothesis proj_cache : forall c w, proj (set_cache c w) = proj w.
Hypothesis proj_known : forall k w, proj (add_KnownSession k w) = proj w.

Lemma unchanged_refl w : unchanged proj w w.
Proof. reflexivity. Qed.

Lemma unchanged_trans a b c :
  unchanged proj a b -> unchanged proj b c -> unchanged proj a c.
Proof. unfold unchanged. congruence. Qed.

Ltac frame_step :=
  match goal with
  | |- keeps _ (bind _ _) =>
      apply (keeps_bind _ unchanged_trans); [| intros ?]
  | |- keeps _ (wrap _ _) => apply keeps_wrap
  | |- keeps _ (ret _) => apply (keeps_ret _ unchanged_refl)
  | |- keeps _ (fail _) => apply (keeps_fail _ unchanged_refl)
  | |- keeps _ panic => apply (keeps_panic _ unchanged_refl)
  | |- keeps _ (gets _) => apply (keeps_gets _ unchanged_refl)
  | |- keeps _ (modify (with_t (set_recv _))) =>
      apply keeps_modify; intros ?; apply proj_recv
  | |- keeps _ (modify (add_KnownSession _)) =>
      apply keeps_modify; intros ?; apply proj_known
  | |- keeps _ (if ?b then _ else _) => destruct b
  | |- keeps _ (match ?x with _ => _ end) => destruct x
  end.

Lemma ReadFull_frame n : keeps (unchanged proj) (ReadFull n).
Proof.
  intros w. unfold ReadFull.
  destruct (n =? 0)%nat; [apply unchanged_refl |].
  destruct (conn (underlay w)) as [c|]; [| apply unchanged_refl].
  destruct (closed c); [apply unchanged_refl |].
  destruct (n <=? length (unread c))%nat; apply proj_conn.
Qed.

Lemma slice_to_frame n b : keeps (unchanged proj) (slice_to n b).
Proof. unfold slice_to. repeat frame_step. Qed.

Lemma IsDuplicate_frame tag :
  keeps (unchanged proj) (tcpReplayCache_IsDuplicate tag).
Proof.
  intros w. unfold tcpReplayCache_IsDuplicate.
  destruct (IsDuplicate _ _ _). apply proj_cache.
Qed.

Lemma recv_Decrypt_frame data : keeps (unchanged proj) (recv_Decrypt data).
Proof.
  intros w. unfold recv_Decrypt.
  destruct (recv (underlay w)) as [r|]; [| apply unchanged_refl].
  destruct (Decrypt r data) as [[p|] r']; apply proj_recv.
Qed.

Lemma readEncryptedMetadata_frame :
  keeps (unchanged proj) readEncryptedMetadata.
Proof.
  unfold readEncryptedMetadata. repeat frame_step. apply ReadFull_frame.
Qed.

Lemma decryptMetadata_frame enc : keeps (unchanged proj) (decryptMetadata enc).
Proof.
  unfold decryptMetadata.
  repeat (frame_step || apply recv_Decrypt_frame).
Qed.

Lemma readEncryptedPayload_frame n :
  keeps (unchanged proj) (readEncryptedPayload n).
Proof.
  unfold readEncryptedPayload.
  repeat (frame_step || apply recv_Decrypt_frame || apply ReadFull_frame
          || apply slice_to_frame || apply IsDuplicate_frame).
Qed.

Lemma readPadding_frame n : keeps (unchanged proj) (readPadding n).
Proof.
  unfold readPadding. repeat (frame_step || apply ReadFull_frame).
Qed.

Lemma readPayload_frame dec : keeps (unchanged proj) (readPayload dec).
Proof.
  unfold readPayload, readSessionSegment, readDataAckSegment.
  repeat (frame_step || apply readPadding_frame
          || apply readEncryptedPayload_frame).
Qed.

Lemma decodeSegment_frame enc : keeps (unchanged proj) (decodeSegment enc).
Proof.
  unfold decodeSegment.
  frame_step; [apply decryptMetadata_frame | apply readPayload_frame].
Qed.

(** A view that does not look at the NewSession counter either is kept
    by the whole of [readOneSegment]. *)
Hypothesis proj_new : forall k w, proj (add_NewSession k w) = proj w.

Lemma checkReplay_frame fr enc : keeps (unchanged proj) (checkReplay fr enc).
Proof.
  unfold checkReplay. frame_step; [apply slice_to_frame |].
  frame_step; [apply IsDuplicate_frame |].
  repeat (frame_step || (apply keeps_modify; intros ?; apply proj_new)).
Qed.

Lemma readOneSegment_frame : keeps (unchanged proj) readOneSegment.
Proof.
  unfold readOneSegment.
  frame_step; [apply readEncryptedMetadata_frame |].
  destruct a as [fr enc].
  frame_step; [apply checkReplay_frame |].
  apply decodeSegment_frame.
Qed.

End ReadFrame.

Section ReadFrames.

Context {C : Type} `{BC : BlockCipher C} `{IM : Imports C}.

(** Reading a segment never touches the session table or a session. *)
Lemma readOneSegment_sessions (w : World) :
  same_sessions w (snd (readOneSegment w)).
Proof.
  pose proof (readOneSegment_frame
                (fun w => (base (underlay w), sessions w))) as H.
  specialize (H ltac:(reflexivity) ltac:(reflexivity) ltac:(reflexivity)
                ltac:(reflexivity) ltac:(reflexivity) w).
  unfold unchanged in H. unfold same_sessions. now inversion H.
Qed.

(** Past the replay check, the NewSession counter is not touched. *)
Lemma decodeSegment_NewSession enc (w : World) :
  replay_NewSession (snd (decodeSegment enc w)) = replay_NewSession w.
Proof.
  apply (decodeSegment_frame replay_NewSession); reflexivity.
Qed.

End ReadFrames.

(** ** The KnownSession counter is only ever counted up *)

Section Counter.

Context {C : Type} `{BC : BlockCipher C} `{IM : Imports C}.
Local Open Scope go_scope.

Section Commutes.

Variable f : World -> World.

Lemma commutes_ret {A} (a : A) : commutes f (ret a).
Proof. now intros w. Qed.

Lemma commutes_fail {A} e : commutes f (fail e : M A).
Proof. now intros w. Qed.

Lemma commutes_panic {A} : commutes f (panic : M A).
Proof. now intros w. Qed.

Lemma commutes_gets {A} (g : World -> A) :
  (forall w, g (f w) = g w) -> commutes f (gets g).
Proof. intros H w. unfold gets. simpl. now rewrite H. Qed.

Lemma commutes_modify g :
  (forall w, g (f w) = f (g w)) -> commutes f (modify g).
Proof. intros H w. unfold modify. simpl. now rewrite H. Qed.

Lemma commutes_bind {A B} (m : M A) (k : A -> M B) :
  commutes f m -> (forall a, commutes f (k a)) -> commutes f (bind m k).
Proof.
  intros Hm Hk w. unfold bind. rewrite Hm.
  destruct (m w) as [[a|e|] w1]; simpl; [apply Hk | reflexivity ..].
Qed.

Lemma commutes_wrap {A} format (m : M A) :
  commutes f m -> commutes f (wrap format m).
Proof.
  intros Hm w. unfold wrap. rewrite Hm.
  destruct (m w) as [[a|e|] w1]; simpl; auto.
Qed.

End Commutes.

Variable k : nat.

Ltac counter_step :=
  match goal with
  | |- commutes _ (bind _ _) => apply commutes_bind; [| intros ?]
  | |- commutes _ (wrap _ _) => apply commutes_wrap
  | |- commutes _ (ret _) => apply commutes_ret
  | |- commutes _ (fail _) => apply commutes_fail
  | |- commutes _ panic => apply commutes_panic
  | |- commutes _ (gets _) => apply commutes_gets; intros ?; reflexivity
  | |- commutes _ (modify (with_t _)) =>
      apply commutes_modify; intros ?; reflexivity
  | |- commutes _ (if ?b then _ else _) => destruct b
  | |- commutes _ (match ?x with _ => _ end) => destruct x
  end.

Lemma add_KnownSession_comm j w :
  add_KnownSession j (add_KnownSession k w)
  = add_KnownSession k (add_KnownSession j w).
Proof.
  unfold add_KnownSession. simpl. f_equal. lia.
Qed.

Lemma ReadFull_counter n : commutes (add_KnownSession k) (ReadFull n).
Proof.
  intros w. unfold ReadFull. simpl.
  destruct (n =? 0)%nat; [reflexivity |].
  destruct (conn (underlay w)) as [c|]; [| reflexivity].
  destruct (closed c); [reflexivity |].
  destruct (n <=? length (unread c))%nat; reflexivity.
Qed.

Lemma slice_to_counter n b : commutes (add_KnownSession k) (slice_to n b).
Proof. unfold slice_to. repeat counter_step. Qed.

Lemma IsDuplicate_counter tag :
  commutes (add_KnownSession k) (tcpReplayCache_IsDuplicate tag).
Proof.
  intros w. unfold tcpReplayCache_IsDuplicate. simpl.
  destruct (IsDuplicate _ _ _). reflexivity.
Qed.

Lemma recv_Decrypt_counter data :
  commutes (add_KnownSession k) (recv_Decrypt data).
Proof.
  intros w. unfold recv_Decrypt. simpl.
  destruct (recv (underlay w)) as [r|]; [| reflexivity].
  destruct (Decrypt r data) as [[p|] r']; reflexivity.
Qed.

Lemma bump_counter :
  commutes (add_KnownSession k) (modify (add_KnownSession 1)).
Proof. apply commutes_modify. intros w. apply add_KnownSession_comm. Qed.

Lemma decryptMetadata_counter enc :
  commutes (add_KnownSession k) (decryptMetadata enc).
Proof.
  unfold decryptMetadata.
  repeat (counter_step || apply recv_Decrypt_counter).
Qed.

Lemma readEncryptedPayload_counter n :
  commutes (add_KnownSession k) (readEncryptedPayload n).
Proof.
  unfold readEncryptedPayload.
  repeat (counter_step || apply recv_Decrypt_counter || apply ReadFull_counter
          || apply slice_to_counter || apply IsDuplicate_counter
          || apply bump_counter).
Qed.

Lemma readPadding_counter n : commutes (add_KnownSession k) (readPadding n).
Proof.
  unfold readPadding. repeat (counter_step || apply ReadFull_counter).
Qed.

Lemma readPayload_counter dec :
  commutes (add_KnownSession k) (readPayload dec).
Proof.
  unfold readPayload, readSessionSegment, readDataAckSegment.
  repeat (counter_step || apply readPadding_counter
          || apply readEncryptedPayload_counter).
Qed.

Lemma decodeSegment_counter enc :
  commutes (add_KnownSession k) (decodeSegment enc).
Proof.
  unfold decodeSegment. apply commutes_bind;
    [apply decryptMetadata_counter | intros ?; apply readPayload_counter].
Qed.

End Counter.

(** ** The send cipher *)

Section SendCipher.

Context {C : Type} `{BC : BlockCipher C} `{IM : Imports C}.

(** C6: [maybeInitSendBlockCipher] leaves an initialized send cipher (and
    the whole state) as it is; on a client it sets the send cipher to a
    clone of the sole candidate; on a server whose receive cipher is
    initialized it sets the send cipher to a clone of the receive
    cipher on which implicit-nonce mode was set to false and then to
    true; on a server whose receive cipher is still nil it returns an
    error and the send cipher stays nil. *)
Theorem maybeInitSendBlockCipher_cases (w : World) :
  (forall s, send (underlay w) = Some s ->
     maybeInitSendBlockCipher w = (Ok tt, w)) /\
  (forall c, send (underlay w) = None ->
     isClient (base (underlay w)) = true ->
     candidates (underlay w) = [c] ->
     maybeInitSendBlockCipher w
     = (Ok tt, with_t (set_send (Some (Clone c))) w)) /\
  (forall r, send (underlay w) = None ->
     isClient (base (underlay w)) = false ->
     recv (underlay w) = Some r ->
     maybeInitSendBlockCipher w
     = (Ok tt, with_t (set_send
          (Some (SetImplicitNonceMode
                   (SetImplicitNonceMode (Clone r) false) true))) w)) /\
  (send (underlay w) = None ->
   isClient (base (underlay w)) = false ->
   recv (underlay w) = None ->
   maybeInitSendBlockCipher w = (Err (Errorf "recv cipher is nil"), w) /\
   send (underlay (snd (maybeInitSendBlockCipher w))) = None).
Proof.
  unfold maybeInitSendBlockCipher. split; [| split; [| split]].
  - intros s Hs. now rewrite Hs.
  - intros c Hs Hc Hl. now rewrite Hs, Hc, Hl.
  - intros r Hs Hc Hr. now rewrite Hs, Hc, Hr.
  - intros Hs Hc Hr. rewrite Hs, Hc, Hr. split; [reflexivity | exact Hs].
Qed.

(** C10: [writeOneSegment] returns [ErrNullPointer] for a nil segment and
    [ErrInvalidArgument] for a segment whose metadata is neither a
    session structure nor a data-ack structure; in both cases the state
    is the one before the call: nothing was written to the transport and
    the send cipher is untouched. *)
Theorem writeOneSegment_rejected (w : World) :
  (writeOneSegment None w = (Err ErrNullPointer, w)) /\
  (forall seg,
     toSessionStruct (seg_metadata seg) = None ->
     toDataAckStruct (seg_metadata seg) = None ->
     writeOneSegment (Some seg) w = (Err ErrInvalidArgument, w) /\
     writes (snd (writeOneSegment (Some seg) w)) = writes w /\
     send (underlay (snd (writeOneSegment (Some seg) w))) = send (underlay w)).
Proof.
  split; [reflexivity |].
  intros seg Hs Hd. unfold writeOneSegment. rewrite Hs, Hd.
  now repeat split.
Qed.

End SendCipher.

(** ** Construction *)

Section NewUnderlay.

Context {C : Type} `{BC : BlockCipher C} `{IM : Imports C}.

(** C9: for a block cipher whose [IsStateless()] is true,
    [NewTCPUnderlay] returns an error and has made no call to package
    [net] (no address resolved, no connection dialed); so an underlay
    that was returned holds a cipher that is not stateless. *)
Theorem NewTCPUnderlay_stateless network laddr raddr m (block : C) :
  IsStateless block = true ->
  (exists e, NewTCPUnderlay network laddr raddr m block = (Err e, [])) /\
  (forall u calls,
     NewTCPUnderlay network laddr raddr m block <> (Ok u, calls)).
Proof.
  intros Hs. unfold NewTCPUnderlay. rewrite Hs.
  destruct (negb _); split; eauto; intros u calls E; discriminate.
Qed.

End NewUnderlay.

(** ** Removing the last session *)

Section LastSession.

Context {C : Type} `{BC : BlockCipher C} `{IM : Imports C}.

(** What the underlay relies on in the methods of [baseUnderlay]:
    [Close] closes the latch [done], and [RemoveSession] leaves it as it
    is. *)
Hypothesis base_Close_done :
  forall bh, done (fst (base_Close bh)) = true.
Hypothesis base_RemoveSession_done :
  forall s bh, done (fst (snd (base_RemoveSession s bh))) = done (fst bh).

(** The state [RemoveSession] leaves, whatever it returns. *)
Lemma RemoveSession_state (s : ptr) (w : World) :
  snd (RemoveSession s w)
  = let w1 := run_base
                (fun _ => snd (base_RemoveSession s
                                 (base (underlay w), sessions w))) w in
    if bool_decide (size (sessionMap (base (underlay w1))) = 0%nat)
    then snd (Close w1) else w1.
Proof.
  unfold RemoveSession.
  destruct (base_RemoveSession s _) as [err bh]. cbn [snd]. cbv zeta.
  case_bool_decide; [| reflexivity].
  destruct (Close _) as [[[]|e|] w2]; reflexivity.
Qed.

Lemma Close_closes (w : World) c :
  conn (underlay w) = Some c ->
  (done (base (underlay w)) = true -> closed c = true) ->
  done (base (underlay (snd (Close w)))) = true /\
  connClosed (snd (Close w)) = true.
Proof.
  intros Hc Hinv. unfold Close, connClosed.
  destruct (done (base (underlay w))) eqn:Hd.
  - simpl. rewrite Hd, Hc. auto.
  - unfold conn_Close, run_base.
    specialize (base_Close_done (base (underlay w), sessions w)).
    destruct (base_Close _) as [b h]. simpl in *. rewrite Hc.
    destruct (closed c) eqn:Hcl; simpl; [rewrite Hc |]; auto.
Qed.

(** Closing keeps what it relies on: [done] is closed only together
    with the connection. *)
Lemma Close_invariant (w : World) c :
  conn (underlay w) = Some c ->
  (done (base (underlay w)) = true -> closed c = true) ->
  exists c', conn (underlay (snd (Close w))) = Some c' /\ closed c' = true.
Proof.
  intros Hc Hinv. destruct (Close_closes w c Hc Hinv) as [_ H].
  unfold connClosed in H.
  destruct (conn (underlay (snd (Close w)))) as [c'|]; [eauto | discriminate].
Qed.

Lemma RemoveSession_invariant (w : World) (s : ptr) c :
  conn (underlay w) = Some c ->
  (done (base (underlay w)) = true -> closed c = true) ->
  let w' := snd (RemoveSession s w) in
  exists c', conn (underlay w') = Some c' /\
             (done (base (underlay w')) = true -> closed c' = true).
Proof.
  intros Hc Hinv. rewrite RemoveSession_state.
  pose proof (base_RemoveSession_done s (base (underlay w), sessions w)) as Hrm.
  destruct (base_RemoveSession s _) as [err [b h]]. simpl in Hrm.
  cbn [snd]. cbv zeta.
  set (w1 := run_base (fun _ => (b, h)) w).
  assert (Hc1 : conn (underlay w1) = Some c) by exact Hc.
  assert (Hd1 : done (base (underlay w1)) = done (base (underlay w)))
    by exact Hrm.
  case_bool_decide as Hsz.
  - destruct (Close_invariant w1 c Hc1) as (c' & Hc' & Hcl).
    { rewrite Hd1. exact Hinv. }
    exists c'. auto.
  - exists c. split; [exact Hc1 |]. fold w1. rewrite Hd1. exact Hinv.
Qed.

Lemma iteration_done (w : World) cancelled :
  done (base (underlay w)) = true -> iteration cancelled w = (Ok false, w).
Proof.
  intros Hd. unfold iteration, bind, gets. rewrite Hd, orb_true_r.
  reflexivity.
Qed.

(** C8: when the session table is empty after a call of [RemoveSession],
    the underlay has closed itself: the latch [done] is closed and the
    connection is closed, and the event loop returns at its next
    iteration.  (The underlay has a connection, and its [done] was not
    closed behind the back of [Close].) *)
Theorem RemoveSession_last (w : World) (s : ptr) c :
  conn (underlay w) = Some c ->
  (done (base (underlay w)) = true -> closed c = true) ->
  let w' := snd (RemoveSession s w) in
  sessionMap (base (underlay w')) = ∅ ->
  done (base (underlay w')) = true /\
  connClosed w' = true /\
  (forall cancelled ctx, eventLoop (cancelled :: ctx) w' = (Ok Returned, w')).
Proof.
  intros Hc Hinv w'. subst w'. rewrite RemoveSession_state.
  pose proof (base_RemoveSession_done s (base (underlay w), sessions w)) as Hrm.
  destruct (base_RemoveSession s _) as [err [b h]]. simpl in Hrm.
  cbn [snd]. cbv zeta.
  set (w1 := run_base (fun _ => (b, h)) w).
  assert (Hc1 : conn (underlay w1) = Some c) by exact Hc.
  assert (Hd1 : done (base (underlay w1)) = done (base (underlay w)))
    by exact Hrm.
  case_bool_decide as Hsz.
  - intros _.
    destruct (Close_closes w1 c Hc1) as [Hdone Hclosed].
    { rewrite Hd1. exact Hinv. }
    repeat split; auto.
    intros cancelled ctx. cbn [eventLoop]. unfold bind.
    now rewrite (iteration_done _ cancelled Hdone).
  - intros Hempty. exfalso. apply Hsz.
    rewrite Hempty. apply map_size_empty.
Qed.

End LastSession.

(** ** Reading the encrypted metadata *)

Section ReadMetadata.

Context {C : Type} `{BC : BlockCipher C} `{IM : Imports C}.
Local Open Scope go_scope.

Lemma ReadFull_ok n (w : World) b w1 :
  ReadFull n w = (Ok b, w1) ->
  length b = n /\ unreadBytes w = b ++ unreadBytes w1.
Proof.
  unfold ReadFull, unreadBytes.
  destruct (n =? 0)%nat eqn:Hn.
  - intros E. inversion E; subst. apply Nat.eqb_eq in Hn. now subst.
  - destruct (conn (underlay w)) as [c|]; [| discriminate].
    destruct (closed c); [discriminate |].
    destruct (n <=? length (unread c))%nat eqn:Hle; [| discriminate].
    intros E. inversion E; subst. simpl. apply Nat.leb_le in Hle.
    split; [apply length_take_le; lia | now rewrite take_drop].
Qed.

Lemma ReadFull_short n (w : World) :
  conn (underlay w) <> None ->
  (length (unreadBytes w) < n)%nat -> isErr (fst (ReadFull n w)) = true.
Proof.
  unfold ReadFull, unreadBytes. intros Hconn Hlt.
  destruct (n =? 0)%nat eqn:Hn; [apply Nat.eqb_eq in Hn; lia |].
  destruct (conn (underlay w)) as [c|]; [| now elim Hconn].
  destruct (closed c); [reflexivity |].
  destruct (n <=? length (unread c))%nat eqn:Hle; [| reflexivity].
  apply Nat.leb_le in Hle. lia.
Qed.

Lemma ReadFull_enough n (w : World) c :
  conn (underlay w) = Some c -> closed c = false ->
  (n <= length (unread c))%nat ->
  exists w1, ReadFull n w = (Ok (take n (unread c)), w1).
Proof.
  intros Hc Hcl Hle. unfold ReadFull.
  destruct (n =? 0)%nat eqn:Hn.
  - apply Nat.eqb_eq in Hn. subst. rewrite take_0. eauto.
  - rewrite Hc, Hcl. apply Nat.leb_le in Hle. rewrite Hle. eauto.
Qed.

Lemma readEncryptedMetadata_ok (w : World) fr enc w1 :
  readEncryptedMetadata w = (Ok (fr, enc), w1) ->
  fr = isNil (recv (underlay w)) /\
  length enc = wireMetadataLength w /\
  unreadBytes w = enc ++ unreadBytes w1.
Proof.
  unfold readEncryptedMetadata. intros E.
  apply bind_inv_ok in E as (u & w0 & E0 & E).
  inversion E0; subst; clear E0.
  apply bind_inv_ok in E as (b & w2 & E1 & E).
  apply wrap_inv_ok, ReadFull_ok in E1 as [Hlen Hun].
  inversion E; subst. auto.
Qed.

Lemma readEncryptedMetadata_short (w : World) :
  conn (underlay w) <> None ->
  (length (unreadBytes w) < wireMetadataLength w)%nat ->
  isErr (fst (readEncryptedMetadata w)) = true.
Proof.
  intros Hconn Hlt. unfold readEncryptedMetadata, bind, gets, wrap.
  pose proof (ReadFull_short _ w Hconn Hlt) as H.
  unfold wireMetadataLength in H.
  destruct (ReadFull _ w) as [[b|e|] w1]; simpl in *; congruence.
Qed.

Lemma readOneSegment_after_read (w : World) fr enc w1 :
  readEncryptedMetadata w = (Ok (fr, enc), w1) ->
  readOneSegment w = bind (checkReplay fr enc) (fun _ => decodeSegment enc) w1.
Proof.
  intros E. unfold readOneSegment. now rewrite (bind_ok _ _ _ _ _ E).
Qed.

Lemma readOneSegment_read_error (w : World) :
  isErr (fst (readEncryptedMetadata w)) = true ->
  isErr (fst (readOneSegment w)) = true.
Proof.
  unfold readOneSegment, bind.
  destruct (readEncryptedMetadata w) as [[a|e|] w1]; simpl; congruence.
Qed.

(** The replay check, once the buffer is known to hold a whole tag. *)
Lemma checkReplay_run fr enc (w : World) :
  (DefaultOverhead <= length enc)%nat ->
  checkReplay fr enc w =
    let q := IsDuplicate (tcpReplayCache w) (take DefaultOverhead enc)
                         EmptyTag in
    let w2 := set_cache (snd q) w in
    if fst q then
      if fr then (Err (Errorf "found possible replay attack in %v"),
                  add_NewSession 1 w2)
      else (Ok tt, add_KnownSession 1 w2)
    else (Ok tt, w2).
Proof.
  intros Hle. unfold checkReplay, slice_to.
  apply Nat.leb_le in Hle. rewrite Hle.
  unfold bind, ret, tcpReplayCache_IsDuplicate.
  destruct (IsDuplicate _ _ _) as [[|] c]; simpl; [destruct fr |]; reflexivity.
Qed.

End ReadMetadata.

(** ** The replay check *)

Section Replay.

Context {C : Type} `{BC : BlockCipher C} `{IM : Imports C}.
Local Open Scope go_scope.

Lemma readEncryptedMetadata_cache (w : World) :
  tcpReplayCache (snd (readEncryptedMetadata w)) = tcpReplayCache w /\
  replay_NewSession (snd (readEncryptedMetadata w)) = replay_NewSession w /\
  replay_KnownSession (snd (readEncryptedMetadata w)) = replay_KnownSession w.
Proof.
  repeat split.
  - apply (readEncryptedMetadata_frame tcpReplayCache); reflexivity.
  - apply (readEncryptedMetadata_frame replay_NewSession); reflexivity.
  - apply (readEncryptedMetadata_frame replay_KnownSession); reflexivity.
Qed.

Lemma wireMetadataLength_tag (w : World) :
  (DefaultOverhead <= wireMetadataLength w)%nat.
Proof. unfold wireMetadataLength. lia. Qed.

Lemma iteration_read_error (w : World) e w' :
  done (base (underlay w)) = false ->
  readOneSegment w = (Err e, w') ->
  forall ctx, eventLoop (false :: ctx) w
              = (Err (Errorw "readOneSegment() failed: %w" e), w').
Proof.
  intros Hd E ctx. cbn [eventLoop]. unfold iteration, bind, gets, wrap.
  rewrite Hd. cbn [orb]. rewrite E. reflexivity.
Qed.

(** C1: once the encrypted metadata has been read, its first
    [cipher.DefaultOverhead] bytes are looked up in (and recorded by) the
    process-wide replay cache.  A duplicate on the first read (receive
    cipher still nil) adds one to the NewSession counter and makes
    [readOneSegment] return an error, with which the event loop returns.
    A duplicate on a later read adds one to the KnownSession counter and
    nothing else: outcome and state are those of the same read without
    the duplicate, but for that counter. *)
Theorem readOneSegment_replay (w : World) fr enc w1 :
  readEncryptedMetadata w = (Ok (fr, enc), w1) ->
  let q := IsDuplicate (tcpReplayCache w) (take DefaultOverhead enc) EmptyTag in
  let w2 := set_cache (snd q) w1 in
  fr = isNil (recv (underlay w)) /\
  (fst q = true -> fr = true ->
     readOneSegment w
     = (Err (Errorf "found possible replay attack in %v"),
        add_NewSession 1 w2) /\
     replay_NewSession (add_NewSession 1 w2) = (replay_NewSession w + 1)%nat /\
     replay_KnownSession (add_NewSession 1 w2) = replay_KnownSession w /\
     (done (base (underlay w)) = false ->
      forall ctx,
        eventLoop (false :: ctx) w
        = (Err (Errorw "readOneSegment() failed: %w"
                       (Errorf "found possible replay attack in %v")),
           add_NewSession 1 w2))) /\
  (fst q = true -> fr = false ->
     readOneSegment w
     = (fst (decodeSegment enc w2),
        add_KnownSession 1 (snd (decodeSegment enc w2))) /\
     replay_NewSession (snd (readOneSegment w)) = replay_NewSession w) /\
  (fst q = false -> readOneSegment w = decodeSegment enc w2).
Proof.
  intros E q w2.
  pose proof (readEncryptedMetadata_ok _ _ _ _ E) as (Hfr & Hlen & _).
  pose proof (readEncryptedMetadata_cache w) as (Hc & Hn & Hk).
  rewrite E in Hc, Hn, Hk. simpl in Hc, Hn, Hk.
  pose proof (wireMetadataLength_tag w) as Htag. rewrite <- Hlen in Htag.
  pose proof (readOneSegment_after_read _ _ _ _ E) as Hrun.
  unfold bind in Hrun. rewrite (checkReplay_run fr enc w1 Htag) in Hrun.
  rewrite Hc in Hrun. fold q in Hrun. simpl in Hrun. fold w2 in Hrun.
  split; [exact Hfr |]. split; [| split].
  - intros Hq Hfirst. rewrite Hq, Hfirst in Hrun.
    split; [exact Hrun |]. split; [simpl; now rewrite Hn |].
    split; [simpl; exact Hk |].
    intros Hd ctx. now apply iteration_read_error.
  - intros Hq Hlater. rewrite Hq, Hlater in Hrun.
    rewrite (decodeSegment_counter 1 enc w2) in Hrun.
    split; [exact Hrun |].
    rewrite Hrun. simpl. rewrite decodeSegment_NewSession. simpl. exact Hn.
  - intros Hq. now rewrite Hq in Hrun.
Qed.

End Replay.

(** ** Decrypting the metadata *)

Section DecryptMetadata.

Context {C : Type} `{BC : BlockCipher C} `{IM : Imports C}.
Local Open Scope go_scope.

(** With a plaintext at hand, [decryptMetadata] stores the cipher's next
    state and checks the length. *)
Lemma decryptMetadata_run enc (w : World) plain r' :
  metadataPlaintext enc w = Some (plain, r') ->
  decryptMetadata enc w
  = (if (length plain =? metadataLength)%nat then Ok plain
     else Err (Errorf "decrypted metadata size %d is unexpected"),
     with_t (set_recv (Some r')) w).
Proof.
  unfold metadataPlaintext, decryptMetadata, bind, gets, modify, ret, fail,
    recv_Decrypt.
  destruct w as [u h ca n1 n2 g]. destruct u as [b co sn rc cands]. simpl.
  destruct rc as [r|]; simpl.
  - destruct (Decrypt r enc) as [[p|] r2] eqn:ED; [| discriminate].
    intros E. inversion E; subst. simpl.
    destruct (length plain =? metadataLength)%nat; reflexivity.
  - destruct (isClient b); simpl.
    + destruct cands as [|c rest]; [discriminate |]. simpl.
      destruct (Decrypt (Clone c) enc) as [[p|] r2] eqn:ED; [| discriminate].
      intros E. inversion E; subst. simpl.
      destruct (length plain =? metadataLength)%nat; reflexivity.
    + destruct (SelectDecrypt enc (CloneBlockCiphers cands)) as [[pb p]|];
        [| discriminate].
      intros E. inversion E; subst. simpl.
      destruct (length plain =? metadataLength)%nat; reflexivity.
Qed.

(** On a client's first read the receive cipher is a clone of the first
    candidate by the time the metadata is decrypted. *)
Lemma decryptMetadata_client_first enc (w : World) c rest :
  recv (underlay w) = None ->
  isClient (base (underlay w)) = true ->
  candidates (underlay w) = c :: rest ->
  decryptMetadata enc w
  = bind (recv_Decrypt enc)
         (fun decryptedMeta =>
            if negb (length decryptedMeta =? metadataLength)%nat
            then fail (Errorf "decrypted metadata size %d is unexpected")
            else ret decryptedMeta)
         (with_t (set_recv (Some (Clone c))) w).
Proof.
  intros Hr Hc Hl. unfold decryptMetadata, bind at 1 2 3, gets, modify.
  rewrite Hr, Hc, Hl. reflexivity.
Qed.

(** The stages of [readOneSegment] up to the decryption; the replay
    check leaves the ciphers and the role as they were. *)
Lemma readOneSegment_stages (w : World) fr enc w1 w2 :
  readEncryptedMetadata w = (Ok (fr, enc), w1) ->
  checkReplay fr enc w1 = (Ok tt, w2) ->
  readOneSegment w = decodeSegment enc w2 /\
  recv (underlay w2) = recv (underlay w) /\
  isClient (base (underlay w2)) = isClient (base (underlay w)) /\
  candidates (underlay w2) = candidates (underlay w) /\
  (forall e, metadataPlaintext e w2 = metadataPlaintext e w).
Proof.
  intros E1 E2.
  pose (proj := fun w : World =>
          (recv (underlay w), isClient (base (underlay w)),
           candidates (underlay w))).
  assert (H1 : proj w1 = proj w).
  { pose proof (readEncryptedMetadata_frame proj ltac:(reflexivity) w) as H.
    now rewrite E1 in H. }
  assert (H2 : proj w2 = proj w1).
  { pose proof (checkReplay_frame proj ltac:(reflexivity) ltac:(reflexivity)
                  ltac:(reflexivity) fr enc w1) as H.
    now rewrite E2 in H. }
  rewrite H1 in H2. unfold proj in H2. inversion H2 as [[Hr Hc Hl]].
  split.
  { rewrite (readOneSegment_after_read _ _ _ _ E1). unfold bind at 1.
    now rewrite E2. }
  repeat split; auto.
  intros e. unfold metadataPlaintext. now rewrite Hr, Hc, Hl.
Qed.

(** C7: [readOneSegment] reads exactly [metadataLength +
    cipher.DefaultOverhead] bytes of encrypted metadata, and
    [cipher.DefaultNonceSize] more exactly when the receive cipher is
    still nil; on an underlay that has a connection it fails when the
    stream ends before that.  On a client
    whose receive cipher is nil, the metadata is decrypted by a clone of
    the sole candidate, which becomes the receive cipher.  A decrypted
    metadata whose length is not [metadataLength] makes [readOneSegment]
    return an error, with which the event loop returns. *)
Theorem readOneSegment_metadata (w : World) :
  (wireMetadataLength w
   = (if isNil (recv (underlay w))
      then metadataLength + DefaultOverhead + DefaultNonceSize
      else metadataLength + DefaultOverhead)%nat) /\
  (forall fr enc w1,
     readEncryptedMetadata w = (Ok (fr, enc), w1) ->
     length enc = wireMetadataLength w /\
     unreadBytes w = enc ++ unreadBytes w1) /\
  (forall seg w',
     readOneSegment w = (Ok seg, w') ->
     exists fr enc w1, readEncryptedMetadata w = (Ok (fr, enc), w1)) /\
  (conn (underlay w) <> None ->
   (length (unreadBytes w) < wireMetadataLength w)%nat ->
     isErr (fst (readOneSegment w)) = true) /\
  (forall fr enc w1 w2 c,
     readEncryptedMetadata w = (Ok (fr, enc), w1) ->
     checkReplay fr enc w1 = (Ok tt, w2) ->
     recv (underlay w) = None ->
     isClient (base (underlay w)) = true ->
     candidates (underlay w) = [c] ->
     readOneSegment w
     = bind (recv_Decrypt enc)
         (fun decryptedMeta =>
            if negb (length decryptedMeta =? metadataLength)%nat
            then fail (Errorf "decrypted metadata size %d is unexpected")
            else readPayload decryptedMeta)
         (with_t (set_recv (Some (Clone c))) w2)) /\
  (forall fr enc w1 w2 plain r',
     readEncryptedMetadata w = (Ok (fr, enc), w1) ->
     checkReplay fr enc w1 = (Ok tt, w2) ->
     metadataPlaintext enc w = Some (plain, r') ->
     length plain <> metadataLength ->
     readOneSegment w
     = (Err (Errorf "decrypted metadata size %d is unexpected"),
        with_t (set_recv (Some r')) w2) /\
     (done (base (underlay w)) = false ->
      forall ctx,
        eventLoop (false :: ctx) w
        = (Err (Errorw "readOneSegment() failed: %w"
                  (Errorf "decrypted metadata size %d is unexpected")),
           with_t (set_recv (Some r')) w2))).
Proof.
  split; [| split; [| split; [| split; [| split]]]].
  - unfold wireMetadataLength. destruct (isNil _); lia.
  - intros fr enc w1 E. now apply readEncryptedMetadata_ok in E.
  - intros seg w' E. unfold readOneSegment in E.
    apply bind_inv_ok in E as ([fr enc] & w1 & E & _). eauto.
  - intros Hconn Hlt. apply readOneSegment_read_error.
    now apply readEncryptedMetadata_short.
  - intros fr enc w1 w2 c E1 E2 Hr Hc Hl.
    destruct (readOneSegment_stages _ _ _ _ _ E1 E2)
      as (Hrun & Hr2 & Hc2 & Hl2 & _).
    rewrite Hrun. unfold decodeSegment.
    rewrite Hr in Hr2. rewrite Hc in Hc2. rewrite Hl in Hl2.
    unfold bind at 1.
    rewrite (decryptMetadata_client_first enc w2 c [] Hr2 Hc2 Hl2).
    unfold bind.
    destruct (recv_Decrypt enc _) as [[p|e|] w3]; try reflexivity.
    destruct (negb _); reflexivity.
  - intros fr enc w1 w2 plain r' E1 E2 Hp Hlen.
    destruct (readOneSegment_stages _ _ _ _ _ E1 E2)
      as (Hrun & _ & _ & _ & Hmp).
    rewrite <- Hmp in Hp.
    assert (Hres : readOneSegment w
                   = (Err (Errorf "decrypted metadata size %d is unexpected"),
                      with_t (set_recv (Some r')) w2)).
    { rewrite Hrun. unfold decodeSegment, bind.
      rewrite (decryptMetadata_run _ _ _ _ Hp).
      apply Nat.eqb_neq in Hlen. now rewrite Hlen. }
    split; [exact Hres |].
    intros Hd ctx. now apply iteration_read_error.
Qed.

End DecryptMetadata.

(** ** Writing a segment *)

Section WriteSegment.

Context {C : Type} `{BC : BlockCipher C} `{IM : Imports C}.
Local Open Scope go_scope.

Lemma rng_Intn_range n r : 0 < n -> 0 <= fst (rng_Intn n r) < n.
Proof. intros Hn. unfold rng_Intn. simpl. apply Z.mod_pos_bound. lia. Qed.

Lemma rng_padding_length n r :
  0 <= n -> Z.of_nat (length (fst (rng_padding n r))) = n.
Proof.
  intros Hn. unfold rng_padding. simpl.
  rewrite length_map, length_seq. lia.
Qed.

Lemma uint8_small x : 0 <= x < 255 -> uint8 x = x.
Proof. intros Hx. unfold uint8. apply Z.mod_small. lia. Qed.

Lemma Intn_inv n (w : World) x w1 :
  Intn n w = (Ok x, w1) ->
  x = fst (rng_Intn n (rng w)) /\ w1 = set_rng (snd (rng_Intn n (rng w))) w.
Proof.
  unfold Intn. destruct (rng_Intn n (rng w)) as [y r]. intros E.
  inversion E; subst. auto.
Qed.

Lemma newPadding_inv n (w : World) p w1 :
  newPadding n w = (Ok p, w1) ->
  p = fst (rng_padding n (rng w)) /\
  w1 = set_rng (snd (rng_padding n (rng w))) w.
Proof.
  unfold newPadding. destruct (rng_padding n (rng w)) as [y r]. intros E.
  inversion E; subst. auto.
Qed.

Lemma send_Encrypt_inv data (w : World) c w1 :
  send_Encrypt data w = (Ok c, w1) ->
  exists s s', send (underlay w) = Some s /\ Encrypt s data = (Some c, s') /\
               w1 = with_t (set_send (Some s')) w.
Proof.
  unfold send_Encrypt. destruct (send (underlay w)) as [s|]; [| discriminate].
  destruct (Encrypt s data) as [[x|] s'] eqn:EE; [| discriminate].
  intros E. inversion E; subst. eauto.
Qed.

Lemma maybeInitSendBlockCipher_inv (w w1 : World) :
  maybeInitSendBlockCipher w = (Ok tt, w1) ->
  exists s0, w1 = with_t (set_send (Some s0)) w.
Proof.
  unfold maybeInitSendBlockCipher.
  destruct w as [u h ca n1 n2 g]. destruct u as [b co sn rc cands]. simpl.
  destruct sn as [s|].
  - intros E. inversion E; subst. now exists s.
  - destruct (isClient b).
    + destruct cands as [|c rest]; [discriminate |].
      intros E. inversion E; subst. eauto.
    + destruct rc as [r|]; [| discriminate].
      intros E. inversion E; subst. eauto.
Qed.

Lemma maybeInitSendBlockCipher_rng r :
  commutes (set_rng r) maybeInitSendBlockCipher.
Proof.
  intros w. unfold maybeInitSendBlockCipher. simpl.
  destruct (send (underlay w)); [reflexivity |].
  destruct (isClient (base (underlay w))).
  - destruct (candidates (underlay w)); reflexivity.
  - destruct (recv (underlay w)); reflexivity.
Qed.

Lemma conn_Write_inv data (w w1 : World) :
  conn_Write data w = (Ok tt, w1) -> writes w1 = writes w ++ [data].
Proof.
  unfold conn_Write, writes.
  destruct (conn (underlay w)) as [c|]; [| discriminate].
  destruct (closed c); [discriminate |].
  intros E. inversion E; subst. reflexivity.
Qed.

Lemma appendEncryptedPayload_inv data payload (w : World) out w1 :
  appendEncryptedPayload data payload w = (Ok out, w1) ->
  exists encryptedPayload,
    out = data ++ encryptedPayload /\
    ((payload = [] /\ encryptedPayload = [] /\ w1 = w) \/
     (payload <> [] /\
      exists s s', send (underlay w) = Some s /\
                   Encrypt s payload = (Some encryptedPayload, s') /\
                   w1 = with_t (set_send (Some s')) w)).
Proof.
  unfold appendEncryptedPayload. destruct payload as [|b rest]; simpl.
  - intros E. inversion E; subst. exists []. rewrite app_nil_r. auto.
  - intros E. apply bind_inv_ok in E as (x & w2 & E1 & E2).
    inversion E2; subst.
    apply send_Encrypt_inv in E1 as (s & s' & H1 & H2 & H3).
    exists x. split; [reflexivity |]. right. split; [discriminate | eauto].
Qed.

Lemma send_after_init r0 (w wb wc : World) s0 :
  wb = set_rng r0 w ->
  maybeInitSendBlockCipher wb = (Ok tt, wc) ->
  send (underlay wc) = Some s0 ->
  send (underlay (snd (maybeInitSendBlockCipher w))) = Some s0.
Proof.
  intros -> E Hs. rewrite maybeInitSendBlockCipher_rng in E.
  injection E as _ Hw. rewrite <- Hw in Hs. exact Hs.
Qed.

(** A function that agrees with a uniform one on the sample is
    uniform. *)
Lemma occurrences_ext (f g : RNG -> Z) k sample :
  (forall r, In r sample -> f r = g r) ->
  occurrences f k sample = occurrences g k sample.
Proof.
  intros H. unfold occurrences. f_equal. apply map_ext_in. exact H.
Qed.

Lemma uniform_on_ext n (f g : RNG -> Z) sample :
  (forall r, In r sample -> f r = g r) ->
  uniform_on n f sample -> uniform_on n g sample.
Proof.
  intros H [Hr Hu]. split.
  - intros r Hin. rewrite <- (H r Hin). now apply Hr.
  - intros j k Hj Hk.
    rewrite <- !(occurrences_ext f g _ sample H). now apply Hu.
Qed.

(** The length recorded and the length of the padding are the number
    drawn. *)
Lemma sessionDraw_lengths ss r :
  ss_suffixLen (fst (sessionDraw ss r)) = fst (rng_Intn 255 r) /\
  Z.of_nat (length (snd (sessionDraw ss r))) = fst (rng_Intn 255 r).
Proof.
  pose proof (rng_Intn_range 255 r ltac:(lia)) as Hr.
  unfold sessionDraw. cbn [fst snd ss_suffixLen ss_with_suffixLen].
  split; [now apply uint8_small | apply rng_padding_length; lia].
Qed.

Lemma dataAckDraw_lengths das r :
  let n1 := fst (rng_Intn 255 r) in
  let n2 := fst (rng_Intn 255 (snd (rng_Intn 255 r))) in
  das_prefixLen (fst (fst (dataAckDraw das r))) = n1 /\
  das_suffixLen (fst (fst (dataAckDraw das r))) = n2 /\
  Z.of_nat (length (snd (fst (dataAckDraw das r)))) = n1 /\
  Z.of_nat (length (snd (dataAckDraw das r))) = n2.
Proof.
  intros n1 n2.
  pose proof (rng_Intn_range 255 r ltac:(lia)) as Hr1.
  pose proof (rng_Intn_range 255 (snd (rng_Intn 255 r)) ltac:(lia)) as Hr2.
  unfold dataAckDraw.
  cbn [fst snd das_prefixLen das_suffixLen das_with_padding].
  fold n1 n2.
  repeat split;
    first [now apply uint8_small | apply rng_padding_length; lia].
Qed.

(** C5: when [writeOneSegment] accepts a segment (returns nil), it has
    made exactly one more [Write] call on the transport.  For a session
    segment the bytes of that call are the encrypted metadata, the
    encrypted payload when the payload is not empty, and the suffix
    padding; for a data-ack segment they are the encrypted metadata, the
    prefix padding, the encrypted payload when not empty, and the suffix
    padding.  Each padding length is the number [rng.Intn(255)] gave, a
    number of [[0, 255)]; the metadata that is marshalled and encrypted
    is the segment's own with these lengths in its padding fields and
    its other fields as they were.  The lengths are as uniform as
    [rng.Intn(255)] is: over any sample of generator states over which
    the calls of [rng.Intn(255)] are uniform on [[0, 255)], so are the
    lengths recorded and the lengths of the paddings. *)
Theorem writeOneSegment_layout (w : World) seg w' :
  writeOneSegment (Some seg) w = (Ok tt, w') ->
  (forall ss, toSessionStruct (seg_metadata seg) = Some ss ->
     exists suffixLen padding recorded s0 s1 encryptedMetadata
            encryptedPayload,
       suffixLen = fst (rng_Intn 255 (rng w)) /\
       0 <= suffixLen < 255 /\
       Z.of_nat (length padding) = suffixLen /\
       (recorded, padding) = sessionDraw ss (rng w) /\
       ss_suffixLen recorded = suffixLen /\
       ss_protocol recorded = ss_protocol ss /\
       ss_sessionID recorded = ss_sessionID ss /\
       ss_seq recorded = ss_seq ss /\
       ss_payloadLen recorded = ss_payloadLen ss /\
       ss_flags recorded = ss_flags ss /\
       send (underlay (snd (maybeInitSendBlockCipher w))) = Some s0 /\
       Encrypt s0 (ss_Marshal recorded) = (Some encryptedMetadata, s1) /\
       Encrypt s0 (ss_Marshal (ss_with_suffixLen ss suffixLen))
       = (Some encryptedMetadata, s1) /\
       payloadCiphertext s1 (seg_payload seg) encryptedPayload /\
       writes w'
       = writes w ++ [encryptedMetadata ++ encryptedPayload ++ padding]) /\
  (forall das, toSessionStruct (seg_metadata seg) = None ->
     toDataAckStruct (seg_metadata seg) = Some das ->
     exists prefixLen suffixLen padding1 padding2 recorded s0 s1
            encryptedMetadata encryptedPayload,
       prefixLen = fst (rng_Intn 255 (rng w)) /\
       suffixLen = fst (rng_Intn 255 (snd (rng_Intn 255 (rng w)))) /\
       0 <= prefixLen < 255 /\ 0 <= suffixLen < 255 /\
       Z.of_nat (length padding1) = prefixLen /\
       Z.of_nat (length padding2) = suffixLen /\
       (recorded, padding1, padding2) = dataAckDraw das (rng w) /\
       das_prefixLen recorded = prefixLen /\
       das_suffixLen recorded = suffixLen /\
       das_protocol recorded = das_protocol das /\
       das_sessionID recorded = das_sessionID das /\
       das_seq recorded = das_seq das /\
       das_ack recorded = das_ack das /\
       das_payloadLen recorded = das_payloadLen das /\
       das_window recorded = das_window das /\
       send (underlay (snd (maybeInitSendBlockCipher w))) = Some s0 /\
       Encrypt s0 (das_Marshal recorded) = (Some encryptedMetadata, s1) /\
       Encrypt s0 (das_Marshal (das_with_padding das prefixLen suffixLen))
       = (Some encryptedMetadata, s1) /\
       payloadCiphertext s1 (seg_payload seg) encryptedPayload /\
       writes w'
       = writes w
         ++ [encryptedMetadata ++ padding1 ++ encryptedPayload ++ padding2]) /\
  (forall sample : list RNG,
     uniform_on 255 (fun r => fst (rng_Intn 255 r)) sample ->
     uniform_on 255 (fun r => fst (rng_Intn 255 (snd (rng_Intn 255 r))))
       sample ->
     (forall ss,
        uniform_on 255 (fun r => ss_suffixLen (fst (sessionDraw ss r)))
          sample /\
        uniform_on 255 (fun r => Z.of_nat (length (snd (sessionDraw ss r))))
          sample) /\
     (forall das,
        uniform_on 255
          (fun r => das_prefixLen (fst (fst (dataAckDraw das r)))) sample /\
        uniform_on 255
          (fun r => das_suffixLen (fst (fst (dataAckDraw das r)))) sample /\
        uniform_on 255
          (fun r => Z.of_nat (length (snd (fst (dataAckDraw das r)))))
          sample /\
        uniform_on 255
          (fun r => Z.of_nat (length (snd (dataAckDraw das r)))) sample)).
Proof.
  intros E. split; [| split].
  - intros ss Hss. unfold writeOneSegment in E. rewrite Hss in E.
    apply bind_inv_ok in E as (x & wa & E1 & E).
    apply Intn_inv in E1 as [Hx Hwa].
    assert (Hrange : 0 <= x < 255) by (subst x; now apply rng_Intn_range).
    apply bind_inv_ok in E as (padding & wb & E2 & E).
    apply newPadding_inv in E2 as [Hp Hwb].
    apply bind_inv_ok in E as ([] & wc & E3 & E).
    apply wrap_inv_ok in E3.
    apply bind_inv_ok in E as (em & wd & E4 & E).
    apply bind_inv_ok in E as (out & we & E5 & E).
    apply wrap_inv_ok, conn_Write_inv in E.
    apply send_Encrypt_inv in E4 as (s0 & s1 & Hs0 & HE & Hwd).
    apply appendEncryptedPayload_inv in E5 as (ep & Hout & Hep).
    exists x, padding, (ss_with_suffixLen ss (uint8 x)), s0, s1, em, ep.
    split; [exact Hx |]. split; [exact Hrange |].
    split; [subst padding; apply rng_padding_length; lia |].
    split; [unfold sessionDraw; subst padding x wa; reflexivity |].
    split; [now apply uint8_small |].
    do 5 (split; [reflexivity |]).
    split.
    { eapply (send_after_init _ w wb wc); [| exact E3 | exact Hs0].
      subst wb wa. reflexivity. }
    split; [exact HE |].
    rewrite (uint8_small x Hrange) in HE.
    split; [exact HE |].
    pose proof (maybeInitSendBlockCipher_inv _ _ E3) as [s0' Hwc].
    assert (Hwrites : writes wd = writes w) by (subst; reflexivity).
    assert (Hsend : send (underlay wd) = Some s1) by (subst wd; reflexivity).
    destruct Hep as [(Hnil & Hepn & Hwe) | (Hne & s & s' & Hs & HEp & Hwe)].
    + split; [left; auto |]. subst we out. rewrite E, Hwrites.
      now rewrite <- app_assoc.
    + rewrite Hsend in Hs. inversion Hs; subst s.
      split; [right; eauto |].
      assert (Hw2 : writes we = writes wd) by (subst we; reflexivity).
      subst out. rewrite E, Hw2, Hwrites. now rewrite <- app_assoc.
  - intros das Hss Hdas. unfold writeOneSegment in E. rewrite Hss, Hdas in E.
    apply bind_inv_ok in E as (x1 & wa & E1 & E).
    apply Intn_inv in E1 as [Hx1 Hwa].
    apply bind_inv_ok in E as (x2 & wa2 & E1 & E).
    apply Intn_inv in E1 as [Hx2 Hwa2].
    assert (Hr1 : 0 <= x1 < 255) by (subst x1; now apply rng_Intn_range).
    assert (Hr2 : 0 <= x2 < 255) by (subst x2; now apply rng_Intn_range).
    apply bind_inv_ok in E as (padding1 & wb & E2 & E).
    apply newPadding_inv in E2 as [Hp1 Hwb].
    apply bind_inv_ok in E as (padding2 & wb2 & E2 & E).
    apply newPadding_inv in E2 as [Hp2 Hwb2].
    apply bind_inv_ok in E as ([] & wc & E3 & E).
    apply wrap_inv_ok in E3.
    apply bind_inv_ok in E as (em & wd & E4 & E).
    apply bind_inv_ok in E as (out & we & E5 & E).
    apply wrap_inv_ok, conn_Write_inv in E.
    apply send_Encrypt_inv in E4 as (s0 & s1 & Hs0 & HE & Hwd).
    apply appendEncryptedPayload_inv in E5 as (ep & Hout & Hep).
    exists x1, x2, padding1, padding2,
      (das_with_padding das (uint8 x1) (uint8 x2)), s0, s1, em, ep.
    split; [exact Hx1 |]. split; [subst x2 wa; reflexivity |].
    split; [exact Hr1 |]. split; [exact Hr2 |].
    split; [subst padding1; apply rng_padding_length; lia |].
    split; [subst padding2; apply rng_padding_length; lia |].
    split; [unfold dataAckDraw;
            subst padding1 padding2 x1 x2 wb wa2 wa; reflexivity |].
    split; [now apply uint8_small |].
    split; [now apply uint8_small |].
    do 6 (split; [reflexivity |]).
    split.
    { eapply (send_after_init _ w wb2 wc); [| exact E3 | exact Hs0].
      subst wb2 wb wa2 wa. reflexivity. }
    split; [exact HE |].
    rewrite (uint8_small x1 Hr1), (uint8_small x2 Hr2) in HE.
    split; [exact HE |].
    pose proof (maybeInitSendBlockCipher_inv _ _ E3) as [s0' Hwc].
    assert (Hwrites : writes wd = writes w) by (subst; reflexivity).
    assert (Hsend : send (underlay wd) = Some s1) by (subst wd; reflexivity).
    destruct Hep as [(Hnil & Hepn & Hwe) | (Hne & s & s' & Hs & HEp & Hwe)].
    + split; [left; auto |]. subst we out. rewrite E, Hwrites.
      now rewrite <- !app_assoc.
    + rewrite Hsend in Hs. inversion Hs; subst s.
      split; [right; eauto |].
      assert (Hw2 : writes we = writes wd) by (subst we; reflexivity).
      subst out. rewrite E, Hw2, Hwrites. now rewrite <- !app_assoc.
  - intros sample U1 U2. split.
    + intros ss. split.
      * apply (uniform_on_ext 255 (fun r => fst (rng_Intn 255 r)));
          [| exact U1].
        intros r _. symmetry. apply sessionDraw_lengths.
      * apply (uniform_on_ext 255 (fun r => fst (rng_Intn 255 r)));
          [| exact U1].
        intros r _. symmetry. apply sessionDraw_lengths.
    + intros das.
      split; [| split; [| split]].
      * apply (uniform_on_ext 255 (fun r => fst (rng_Intn 255 r)));
          [| exact U1].
        intros r _. symmetry. apply (dataAckDraw_lengths das r).
      * apply (uniform_on_ext 255
                 (fun r => fst (rng_Intn 255 (snd (rng_Intn 255 r)))));
          [| exact U2].
        intros r _. symmetry. apply (dataAckDraw_lengths das r).
      * apply (uniform_on_ext 255 (fun r => fst (rng_Intn 255 r)));
          [| exact U1].
        intros r _. symmetry. apply (dataAckDraw_lengths das r).
      * apply (uniform_on_ext 255
                 (fun r => fst (rng_Intn 255 (snd (rng_Intn 255 r)))));
          [| exact U2].
        intros r _. symmetry. apply (dataAckDraw_lengths das r).
Qed.

End WriteSegment.


(** ** Dispatching a segment *)

Section Dispatch.

Context {C : Type} `{BC : BlockCipher C} `{IM : Imports C}.
Local Open Scope go_scope.

Lemma eqb_same (p : byte) : Byte.eqb p p = true.
Proof. now apply Byte.byte_dec_lb. Qed.

Lemma eqb_other (p q : byte) : p <> q -> Byte.eqb p q = false.
Proof.
  intros Hne. destruct (Byte.eqb p q) eqn:E; [| reflexivity].
  apply Byte.byte_dec_bl in E. contradiction.
Qed.

Lemma iteration_dispatch (w0 w : World) seg :
  done (base (underlay w0)) = false ->
  readOneSegment w0 = (Ok seg, w) ->
  iteration false w0 = dispatch seg w.
Proof.
  intros Hd E. unfold iteration, bind, gets, wrap.
  rewrite Hd. cbn [orb]. now rewrite E.
Qed.

(** The loop returns the error of a failed dispatch. *)
Lemma eventLoop_dispatch_error (w0 w w' : World) seg e :
  done (base (underlay w0)) = false ->
  readOneSegment w0 = (Ok seg, w) ->
  dispatch seg w = (Err e, w') ->
  forall ctx, eventLoop (false :: ctx) w0 = (Err e, w').
Proof.
  intros Hd E D ctx. cbn [eventLoop]. unfold bind at 1.
  now rewrite (iteration_dispatch _ _ _ Hd E), D.
Qed.

(** The loop goes on to its next iteration after a dispatch that
    says so. *)
Lemma eventLoop_dispatch_next (w0 w w' : World) seg :
  done (base (underlay w0)) = false ->
  readOneSegment w0 = (Ok seg, w) ->
  dispatch seg w = (Ok true, w') ->
  forall ctx, eventLoop (false :: ctx) w0 = eventLoop ctx w'.
Proof.
  intros Hd E D ctx. cbn [eventLoop]. unfold bind at 1.
  now rewrite (iteration_dispatch _ _ _ Hd E), D.
Qed.

(** C2, as the code has it: a metadata whose protocol byte is neither a
    session protocol nor a data-ack protocol makes [readOneSegment]
    return the error "unable to handle protocol", and the event loop
    returns with it; no session receives anything.  What the loop skips
    and survives is a segment it was handed whose protocol is a session
    protocol other than the six it names (or, were one handed to it, a
    segment of neither kind): the state is untouched and the next
    iteration runs. *)
Theorem unknown_protocol (w : World) :
  (forall fr enc w1 w2 p rest r',
     readEncryptedMetadata w = (Ok (fr, enc), w1) ->
     checkReplay fr enc w1 = (Ok tt, w2) ->
     metadataPlaintext enc w = Some (p :: rest, r') ->
     length (p :: rest) = metadataLength ->
     isSessionProtocol p = false ->
     isDataAckProtocol p = false ->
     readOneSegment w
     = (Err (Errorf "unable to handle protocol %d"),
        with_t (set_recv (Some r')) w2) /\
     same_sessions w (snd (readOneSegment w)) /\
     (done (base (underlay w)) = false ->
      forall ctx,
        eventLoop (false :: ctx) w
        = (Err (Errorw "readOneSegment() failed: %w"
                  (Errorf "unable to handle protocol %d")),
           with_t (set_recv (Some r')) w2))) /\
  (forall seg,
     let p := Protocol (seg_metadata seg) in
     isSessionProtocol p = true ->
     p <> openSessionRequest -> p <> openSessionResponse ->
     p <> closeSessionRequest -> p <> closeSessionResponse ->
     p <> closeConnRequest -> p <> closeConnResponse ->
     dispatch seg w = (Ok true, w)) /\
  (forall seg,
     let p := Protocol (seg_metadata seg) in
     isSessionProtocol p = false ->
     isDataAckProtocol p = false ->
     dispatch seg w = (Ok true, w)).
Proof.
  split; [| split].
  - intros fr enc w1 w2 p rest r' E1 E2 Hp Hlen Hs Hd.
    destruct (readOneSegment_stages _ _ _ _ _ E1 E2)
      as (Hrun & _ & _ & _ & Hmp).
    rewrite <- Hmp in Hp.
    assert (Hres : readOneSegment w
                   = (Err (Errorf "unable to handle protocol %d"),
                      with_t (set_recv (Some r')) w2)).
    { rewrite Hrun. unfold decodeSegment, bind.
      rewrite (decryptMetadata_run _ _ _ _ Hp).
      apply Nat.eqb_eq in Hlen. rewrite Hlen.
      unfold readPayload. now rewrite Hs, Hd. }
    split; [exact Hres |].
    split; [apply readOneSegment_sessions |].
    intros Hdone ctx. now apply iteration_read_error.
  - intros seg p Hs H1 H2 H3 H4 H5 H6. unfold dispatch. fold p.
    rewrite Hs, !eqb_other by assumption. reflexivity.
  - intros seg p Hs Hd. unfold dispatch. fold p. now rewrite Hs, Hd.
Qed.

(** C3, as the code has it: an open-session request that a server-side
    underlay receives with session ID 0, or with an ID that is already
    in the session table, creates no session and changes nothing; but
    [onOpenSessionRequest] returns an error and the event loop returns
    with it instead of going on. *)
Theorem openSessionRequest_rejected (w : World) seg ss :
  seg_metadata seg = MSession ss ->
  ss_protocol ss = openSessionRequest ->
  isSessionProtocol openSessionRequest = true ->
  isClient (base (underlay w)) = false ->
  ss_sessionID ss = 0%N \/
    is_Some (sessionMap (base (underlay w)) !! ss_sessionID ss) ->
  exists e,
    onOpenSessionRequest seg w = (Err e, w) /\
    dispatch seg w = (Err (Errorw "onOpenSessionRequest() failed: %v" e), w) /\
    (forall w0,
       done (base (underlay w0)) = false ->
       readOneSegment w0 = (Ok seg, w) ->
       forall ctx,
         eventLoop (false :: ctx) w0
         = (Err (Errorw "onOpenSessionRequest() failed: %v" e), w)).
Proof.
  intros Hm Hp Hs Hc Hid.
  assert (Hreq : exists e, onOpenSessionRequest seg w = (Err e, w)).
  { unfold onOpenSessionRequest, bind, gets, assertSessionStruct.
    rewrite Hc, Hm. unfold ret.
    destruct (ss_sessionID ss =? 0)%N eqn:E0; [unfold fail; eauto |].
    destruct Hid as [H0 | [x Hx]].
    - rewrite H0 in E0. discriminate.
    - rewrite Hx. unfold fail. eauto. }
  destruct Hreq as [e He]. exists e.
  assert (Hdis : dispatch seg w
                 = (Err (Errorw "onOpenSessionRequest() failed: %v" e), w)).
  { unfold dispatch. rewrite Hm. cbn [Protocol]. rewrite Hp, Hs, eqb_same.
    unfold bind. now rewrite (wrap_err _ _ _ _ _ He). }
  split; [exact He |]. split; [exact Hdis |].
  intros w0 Hd E ctx. eapply eventLoop_dispatch_error; eauto.
Qed.

(** C4, as the code has it: a data-ack segment for a session that is not
    in the session table is dropped, nothing changes and the event loop
    goes on.  An open-session response or a close-session segment for
    such a session is not delivered either, but its handler returns an
    error and the event loop returns with it. *)
Theorem unknown_session (w : World) seg :
  let p := Protocol (seg_metadata seg) in
  (forall das,
     isSessionProtocol p = false ->
     isDataAckProtocol p = true ->
     toDataAckStruct (seg_metadata seg) = Some das ->
     sessionMap (base (underlay w)) !! das_sessionID das = None ->
     dispatch seg w = (Ok true, w) /\
     (forall w0,
        done (base (underlay w0)) = false ->
        readOneSegment w0 = (Ok seg, w) ->
        forall ctx, eventLoop (false :: ctx) w0 = eventLoop ctx w)) /\
  (forall ss,
     isSessionProtocol p = true ->
     seg_metadata seg = MSession ss ->
     sessionMap (base (underlay w)) !! ss_sessionID ss = None ->
     p <> openSessionRequest ->
     p = openSessionResponse \/
       (p <> openSessionResponse /\
        (p = closeSessionRequest \/ p = closeSessionResponse)) ->
     exists e,
       dispatch seg w = (Err e, w) /\
       (forall w0,
          done (base (underlay w0)) = false ->
          readOneSegment w0 = (Ok seg, w) ->
          forall ctx, eventLoop (false :: ctx) w0 = (Err e, w))).
Proof.
  intros p. split.
  - intros das Hs Hd Hdas Hmap.
    assert (Hdis : dispatch seg w = (Ok true, w)).
    { unfold dispatch. fold p. rewrite Hs, Hd, Hdas.
      unfold bind, gets. now rewrite Hmap. }
    split; [exact Hdis |].
    intros w0 Hdone E ctx. eapply eventLoop_dispatch_next; eauto.
  - intros ss Hs Hm Hmap Hne Hcase.
    assert (Hdis : exists e, dispatch seg w = (Err e, w)).
    { unfold dispatch. fold p. rewrite Hs, (eqb_other _ _ Hne).
      destruct Hcase as [Heq | [Hne2 Hclose]].
      - rewrite Heq, eqb_same.
        unfold bind, wrap, onOpenSessionResponse, bind, gets,
          assertSessionStruct.
        destruct (isClient (base (underlay w))); simpl; [| eauto].
        rewrite Hm. unfold ret. rewrite Hmap. unfold fail. eauto.
      - rewrite (eqb_other _ _ Hne2).
        assert (Hc : Byte.eqb p closeSessionRequest
                     || Byte.eqb p closeSessionResponse = true).
        { destruct Hclose as [-> | ->]; rewrite eqb_same;
            [reflexivity | apply orb_true_r]. }
        rewrite Hc.
        unfold bind, wrap, onCloseSession, bind, gets, assertSessionStruct.
        rewrite Hm. unfold ret. rewrite Hmap. unfold fail. eauto. }
    destruct Hdis as [e He]. exists e. split; [exact He |].
    intros w0 Hdone E ctx. eapply eventLoop_dispatch_error; eauto.
Qed.

End Dispatch.

(** * The statements at work on the small instance *)

Section Runs.

Import Byte.
Local Open Scope go_scope.

Lemma Sim_base_Close_done :
  forall bh, done (fst (base_Close (C:=Sim.cipher) bh)) = true.
Proof. intros bh. reflexivity. Qed.

Lemma Sim_base_RemoveSession_done :
  forall s bh,
    done (fst (snd (base_RemoveSession (C:=Sim.cipher) s bh))) = done (fst bh).
Proof.
  intros s bh. simpl. unfold Sim.removeSession.
  destruct (snd bh !! s); reflexivity.
Qed.

(** The first message makes a fresh server pick the cipher of user
    [x11], create session 7, hand it the request and announce it. *)
Example server_accepts_session :
  let w := snd (RunEventLoop [false] Sim.server_fresh) in
  fst (RunEventLoop [false] Sim.server_fresh) = Ok Running /\
  recv (underlay w) = Some Sim.started /\
  sessionMap (base (underlay w)) !! 7%N = Some 0%nat /\
  readySessions (base (underlay w)) = [0%nat] /\
  s_recvChan <$> sessions w = [[Sim.request7]].
Proof. repeat split; vm_compute; reflexivity. Qed.

(** A data segment reaches the session it is addressed to, and the loop
    returns nil once the context is cancelled. *)
Example server_delivers_data :
  let w0 := Sim.server_on Sim.data_message [] in
  let w := snd (RunEventLoop [false; true] w0) in
  fst (RunEventLoop [false; true] w0) = Ok Returned /\
  s_recvChan <$> sessions w = [[Sim.data7 []]].
Proof. repeat split; vm_compute; reflexivity. Qed.

(** A session protocol that the loop has no case for is read and passed
    over: the loop goes on and session 7 receives nothing. *)
Example server_skips_later_protocol :
  let w0 := Sim.server_on Sim.later_message [] in
  let w := snd (RunEventLoop [false] w0) in
  fst (RunEventLoop [false] w0) = Ok Running /\
  s_recvChan <$> sessions w = [[]].
Proof. repeat split; vm_compute; reflexivity. Qed.

(** A replayed first message stops a fresh server and is counted as a
    NewSession replay; a repeated tag in mid-connection is counted as a
    KnownSession replay and the segment is read all the same. *)
Lemma readOneSegment_replay_run :
  (fst (readOneSegment Sim.server_replayed)
   = Err (Errorf "found possible replay attack in %v") /\
   replay_NewSession (snd (readOneSegment Sim.server_replayed)) = 1%nat) /\
  (fst (readOneSegment (Sim.server_on Sim.data_message [[x11; x11]]))
   = fst (readOneSegment (Sim.server_on Sim.data_message [])) /\
   replay_KnownSession
     (snd (readOneSegment (Sim.server_on Sim.data_message [[x11; x11]])))
   = 1%nat).
Proof.
  split.
  - destruct (readOneSegment_replay Sim.server_replayed true Sim.first_message
                (snd (readEncryptedMetadata Sim.server_replayed))
                ltac:(vm_compute; reflexivity)) as (_ & H & _).
    destruct (H eq_refl eq_refl) as (E & Hn & _).
    rewrite E. split; [reflexivity | exact Hn].
  - set (w := Sim.server_on Sim.data_message [[x11; x11]]).
    destruct (readOneSegment_replay w false Sim.data_message
                (snd (readEncryptedMetadata w))
                ltac:(vm_compute; reflexivity)) as (_ & _ & H & _).
    destruct (H eq_refl eq_refl) as (E & _).
    rewrite E. split; vm_compute; reflexivity.
Defined.

(** A server in mid-connection receives a valid ciphertext whose
    metadata has protocol byte [xff]: the event loop does not go on, it
    returns the error of [readOneSegment]. *)
Lemma novel_protocol_ends_loop :
  let w := Sim.server_idle Sim.novel_message in
  metadataPlaintext Sim.novel_message w
  = Some ([xff; x07; x00; x00; x00], Sim.tick Sim.started) /\
  isSessionProtocol (C:=Sim.cipher) xff = false /\
  isDataAckProtocol (C:=Sim.cipher) xff = false /\
  fst (RunEventLoop [false] w)
  = Err (Errorw "readOneSegment() failed: %w"
           (Errorf "unable to handle protocol %d")) /\
  ~ goes_on w.
Proof.
  intros w. repeat split; try (vm_compute; reflexivity).
  intros [w' E].
  assert (H : fst (iteration false w) = Ok true) by now rewrite E.
  vm_compute in H. discriminate.
Qed.

Lemma unknown_protocol_run :
  (fst (readOneSegment (Sim.server_idle Sim.novel_message))
   = Err (Errorf "unable to handle protocol %d") /\
   sessions (snd (readOneSegment (Sim.server_idle Sim.novel_message))) = []) /\
  dispatch Sim.later7 (Sim.server_on [] [])
  = (Ok true, Sim.server_on [] []).
Proof.
  split;
    [| destruct (unknown_protocol (Sim.server_on [] [])) as (_ & H & _);
       apply (H Sim.later7); [reflexivity | discriminate ..]].
  set (w := Sim.server_idle Sim.novel_message).
  destruct (unknown_protocol w) as (H & _).
  destruct (H false Sim.novel_message (snd (readEncryptedMetadata w))
              (snd (checkReplay false Sim.novel_message
                      (snd (readEncryptedMetadata w))))
              xff [x07; x00; x00; x00] (Sim.tick Sim.started)
              ltac:(vm_compute; reflexivity) ltac:(vm_compute; reflexivity)
              ltac:(vm_compute; reflexivity) ltac:(reflexivity)
              ltac:(reflexivity) ltac:(reflexivity)) as (E & [_ Hs] & _).
  split; [now rewrite E | exact Hs].
Defined.

(** A server that serves session 7 receives an open-session request for
    session 7: no session is added, and the event loop does not go on,
    it returns the error of [onOpenSessionRequest]. *)
Lemma session_in_use_ends_loop :
  let w := Sim.server_on Sim.open_message [] in
  fst (readOneSegment w) = Ok Sim.request7 /\
  Protocol (seg_metadata Sim.request7) = openSessionRequest (C:=Sim.cipher) /\
  isClient (base (underlay w)) = false /\
  sessionMap (base (underlay w)) !! 7%N = Some 0%nat /\
  fst (RunEventLoop [false] w)
  = Err (Errorw "onOpenSessionRequest() failed: %v"
           (Errorf "session ID %d is already used")) /\
  ~ goes_on w.
Proof.
  intros w. repeat split; try (vm_compute; reflexivity).
  intros [w' E].
  assert (H : fst (iteration false w) = Ok true) by now rewrite E.
  vm_compute in H. discriminate.
Qed.

Lemma openSessionRequest_rejected_run :
  exists e,
    dispatch Sim.request7
      (snd (readOneSegment (Sim.server_on Sim.open_message [])))
    = (Err (Errorw "onOpenSessionRequest() failed: %v" e),
       snd (readOneSegment (Sim.server_on Sim.open_message []))).
Proof.
  set (w := snd (readOneSegment (Sim.server_on Sim.open_message []))).
  destruct (openSessionRequest_rejected w Sim.request7 _ eq_refl eq_refl
              eq_refl eq_refl) as (e & _ & H & _).
  - right. exists 0%nat. vm_compute. reflexivity.
  - exists e. exact H.
Defined.

(** A client without sessions receives an open-session response for
    session 7: the event loop does not go on, it returns the error of
    [onOpenSessionResponse]. *)
Lemma unknown_response_ends_loop :
  let w := Sim.client_idle Sim.response_message in
  fst (readOneSegment w) = Ok Sim.response7 /\
  Protocol (seg_metadata Sim.response7) = openSessionResponse (C:=Sim.cipher) /\
  sessionMap (base (underlay w)) !! 7%N = None /\
  fst (RunEventLoop [false] w)
  = Err (Errorw "onOpenSessionResponse() failed: %v"
           (Errorf "session ID %d is not found")) /\
  ~ goes_on w.
Proof.
  intros w. repeat split; try (vm_compute; reflexivity).
  intros [w' E].
  assert (H : fst (iteration false w) = Ok true) by now rewrite E.
  vm_compute in H. discriminate.
Qed.

Lemma unknown_session_run :
  dispatch (Sim.data7 [])
    (snd (readOneSegment (Sim.server_idle Sim.data_message)))
  = (Ok true, snd (readOneSegment (Sim.server_idle Sim.data_message))) /\
  exists e, dispatch Sim.close7 (Sim.server_idle [])
            = (Err e, Sim.server_idle []).
Proof.
  set (w := snd (readOneSegment (Sim.server_idle Sim.data_message))).
  split.
  - destruct (unknown_session w (Sim.data7 [])) as (H & _).
    destruct (H _ eq_refl eq_refl eq_refl) as (E & _); [| exact E].
    vm_compute. reflexivity.
  - destruct (unknown_session (Sim.server_idle []) Sim.close7) as (_ & H).
    destruct (H _ eq_refl eq_refl) as (e & E & _).
    + vm_compute. reflexivity.
    + discriminate.
    + right. split; [discriminate | left; reflexivity].
    + exists e. exact E.
Defined.

(** Over the 255 generator states of [Sim.dice], the first and the
    second number given by [rng.Intn(255)] take each value of [[0, 255)]
    once. *)
Lemma Sim_dice_once (f : RNG -> Z) :
  forallb (fun i => Nat.eqb (occurrences f (Z.of_nat i) Sim.dice) 1)
          (seq 0 255) = true ->
  (forall r, 0 <= f r < 255) ->
  uniform_on 255 f Sim.dice.
Proof.
  intros Hall Hrange. split; [intros r _; apply Hrange |].
  assert (Hone : forall k, 0 <= k < 255 -> occurrences f k Sim.dice = 1%nat).
  { intros k Hk. rewrite forallb_forall in Hall.
    specialize (Hall (Z.to_nat k)).
    rewrite Z2Nat.id in Hall by lia.
    apply Nat.eqb_eq, Hall, in_seq. lia. }
  intros j k Hj Hk. now rewrite !Hone.
Qed.

Lemma Sim_dice_first :
  uniform_on 255 (fun r => fst (rng_Intn 255 r)) Sim.dice.
Proof.
  apply Sim_dice_once; [vm_compute; reflexivity |].
  intros r. apply rng_Intn_range. lia.
Qed.

Lemma Sim_dice_second :
  uniform_on 255 (fun r => fst (rng_Intn 255 (snd (rng_Intn 255 r))))
    Sim.dice.
Proof.
  apply Sim_dice_once; [vm_compute; reflexivity |].
  intros r. apply rng_Intn_range. lia.
Qed.

(** A client's first write of a session segment and of a data segment:
    the layout of the one write, the lengths recorded in the metadata,
    and the lengths over the sample [Sim.dice]. *)
Lemma writeOneSegment_layout_run :
  let w := Sim.client_fresh [] in
  (exists encryptedMetadata encryptedPayload padding recorded,
     writes (snd (writeOneSegment (Some Sim.request7) w))
     = [encryptedMetadata ++ encryptedPayload ++ padding] /\
     0 <= Z.of_nat (length padding) < 255 /\
     ss_suffixLen recorded = Z.of_nat (length padding) /\
     ss_sessionID recorded = 7%N /\
     fst (Encrypt (Sim.user x11) (ss_Marshal recorded))
     = Some encryptedMetadata) /\
  (exists encryptedMetadata padding1 encryptedPayload padding2 recorded,
     writes (snd (writeOneSegment (Some (Sim.data7 [x01; x02])) w))
     = [encryptedMetadata ++ padding1 ++ encryptedPayload ++ padding2] /\
     0 <= Z.of_nat (length padding1) < 255 /\
     0 <= Z.of_nat (length padding2) < 255 /\
     das_prefixLen recorded = Z.of_nat (length padding1) /\
     das_suffixLen recorded = Z.of_nat (length padding2) /\
     das_payloadLen recorded = 2 /\
     fst (Encrypt (Sim.user x11) (das_Marshal recorded))
     = Some encryptedMetadata) /\
  uniform_on 255
    (fun r => Z.of_nat (length (snd (sessionDraw Sim.open7 r)))) Sim.dice /\
  uniform_on 255
    (fun r => das_suffixLen (fst (fst (dataAckDraw Sim.ack7 r)))) Sim.dice.
Proof.
  intros w.
  assert (E : fst (writeOneSegment (Some Sim.request7) w) = Ok tt)
    by (vm_compute; reflexivity).
  destruct (writeOneSegment_layout w Sim.request7 _ (run_outcome _ _ _ E))
    as (H & _ & U).
  assert (E' : fst (writeOneSegment (Some (Sim.data7 [x01; x02])) w) = Ok tt)
    by (vm_compute; reflexivity).
  destruct (writeOneSegment_layout w (Sim.data7 [x01; x02]) _
              (run_outcome _ _ _ E')) as (_ & H' & _).
  split; [| split; [| split]].
  - destruct (H _ eq_refl)
      as (n & pad & rec & s0 & s1 & em & ep
          & _ & Hn & Hl & _ & Hrec & _ & Hid & _ & _ & _ & Hs0 & HE & _ & _ & Hw).
    exists em, ep, pad, rec.
    split; [exact Hw |]. split; [now rewrite Hl |].
    split; [now rewrite Hl |]. split; [exact Hid |].
    assert (Hs : s0 = Sim.user x11)
      by (vm_compute in Hs0; now inversion Hs0).
    rewrite <- Hs, HE. reflexivity.
  - destruct (H' _ eq_refl eq_refl)
      as (n1 & n2 & p1 & p2 & rec & s0 & s1 & em & ep
          & _ & _ & Hn1 & Hn2 & Hl1 & Hl2 & _ & Hr1 & Hr2 & _ & _ & _ & _
          & Hpl & _ & Hs0 & HE & _ & _ & Hw).
    exists em, p1, ep, p2, rec.
    split; [exact Hw |]. split; [now rewrite Hl1 |].
    split; [now rewrite Hl2 |]. split; [now rewrite Hl1 |].
    split; [now rewrite Hl2 |]. split; [exact Hpl |].
    assert (Hs : s0 = Sim.user x11)
      by (vm_compute in Hs0; now inversion Hs0).
    rewrite <- Hs, HE. reflexivity.
  - destruct (U Sim.dice Sim_dice_first Sim_dice_second) as (Us & _).
    exact (proj2 (Us Sim.open7)).
  - destruct (U Sim.dice Sim_dice_first Sim_dice_second) as (_ & Ud).
    exact (proj1 (proj2 (Ud Sim.ack7))).
Defined.

(** The four cases of the send cipher's initialization. *)
Lemma maybeInitSendBlockCipher_run :
  (maybeInitSendBlockCipher (Sim.client_idle [])
   = (Ok tt, Sim.client_idle [])) /\
  (send (underlay (snd (maybeInitSendBlockCipher (Sim.client_fresh []))))
   = Some (Clone (Sim.user x11))) /\
  (send (underlay (snd (maybeInitSendBlockCipher (Sim.server_idle []))))
   = Some (SetImplicitNonceMode
             (SetImplicitNonceMode (Clone Sim.started) false) true)) /\
  (fst (maybeInitSendBlockCipher Sim.server_fresh)
   = Err (Errorf "recv cipher is nil") /\
   send (underlay (snd (maybeInitSendBlockCipher Sim.server_fresh))) = None).
Proof.
  split; [| split; [| split]].
  - destruct (maybeInitSendBlockCipher_cases (Sim.client_idle [])) as (H & _).
    exact (H _ eq_refl).
  - destruct (maybeInitSendBlockCipher_cases (Sim.client_fresh []))
      as (_ & H & _).
    now rewrite (H (Sim.user x11) eq_refl eq_refl eq_refl).
  - destruct (maybeInitSendBlockCipher_cases (Sim.server_idle []))
      as (_ & _ & H & _).
    now rewrite (H Sim.started eq_refl eq_refl eq_refl).
  - destruct (maybeInitSendBlockCipher_cases Sim.server_fresh)
      as (_ & _ & _ & H).
    destruct (H eq_refl eq_refl eq_refl) as [E Hs].
    split; [now rewrite E | exact Hs].
Defined.

(** A client's first read takes the ten bytes of nonce, tag and
    metadata and decrypts them with a clone of its candidate; a metadata
    that decrypts to four bytes is an error, and so is a stream that
    ends after one byte. *)
Lemma readOneSegment_metadata_run :
  let w := Sim.client_fresh (Sim.first_message ++ [x00]) in
  (wireMetadataLength w = 10%nat /\
   unreadBytes (snd (readEncryptedMetadata w)) = [x00]) /\
  recv (underlay (snd (readOneSegment w)))
  = Some (snd (Decrypt (Clone (Sim.user x11)) Sim.first_message)) /\
  fst (readOneSegment (Sim.server_out_of_step Sim.first_message))
  = Err (Errorf "decrypted metadata size %d is unexpected") /\
  isErr (fst (readOneSegment (Sim.client_fresh [x00]))) = true.
Proof.
  intros w.
  assert (E1 : fst (readEncryptedMetadata w) = Ok (true, Sim.first_message))
    by (vm_compute; reflexivity).
  apply run_outcome in E1.
  assert (E2 : fst (checkReplay true Sim.first_message
                      (snd (readEncryptedMetadata w))) = Ok tt)
    by (vm_compute; reflexivity).
  apply run_outcome in E2.
  destruct (readOneSegment_metadata w) as (Hlen & Hread & _ & _ & Hclient & _).
  split; [| split; [| split]]; cycle 3.
  { destruct (readOneSegment_metadata (Sim.client_fresh [x00]))
      as (_ & _ & _ & Hshort & _).
    apply Hshort; [discriminate | vm_compute; lia]. }
  - destruct (Hread _ _ _ E1) as [Hl Hu].
    split; [rewrite <- Hl; reflexivity |].
    apply (app_inv_head Sim.first_message). now rewrite <- Hu.
  - rewrite (Hclient _ _ _ _ (Sim.user x11) E1 E2 eq_refl eq_refl eq_refl).
    vm_compute. reflexivity.
  - set (v := Sim.server_out_of_step Sim.first_message).
    set (enc := [x11; x11; x11; x11; x11; x02; x07]).
    assert (F1 : fst (readEncryptedMetadata v) = Ok (false, enc))
      by (vm_compute; reflexivity).
    apply run_outcome in F1.
    assert (F2 : fst (checkReplay false enc (snd (readEncryptedMetadata v)))
                 = Ok tt)
      by (vm_compute; reflexivity).
    apply run_outcome in F2.
    destruct (readOneSegment_metadata v) as (_ & _ & _ & _ & _ & Hsize).
    destruct (Hsize _ _ _ _ [x02; x07] Sim.started F1 F2
                ltac:(vm_compute; reflexivity) ltac:(vm_compute; lia))
      as [E _].
    now rewrite E.
Defined.

(** Removing the only session of a server closes the underlay. *)
Lemma RemoveSession_last_run :
  let w' := snd (RemoveSession 0 (Sim.server_on [] [])) in
  sessionMap (base (underlay w')) = ∅ /\
  done (base (underlay w')) = true /\
  connClosed w' = true /\
  fst (eventLoop [false; false] w') = Ok Returned.
Proof.
  intros w'.
  assert (Hempty : sessionMap (base (underlay w')) = ∅)
    by (vm_compute; reflexivity).
  destruct (RemoveSession_last Sim_base_Close_done Sim_base_RemoveSession_done
              (Sim.server_on [] []) 0
              {| unread := []; written := []; closed := false |}
              eq_refl ltac:(discriminate) Hempty) as (Hd & Hc & Hl).
  split; [exact Hempty |]. split; [exact Hd |]. split; [exact Hc |].
  fold w' in Hl. now rewrite (Hl false [false]).
Defined.

(** A stateless cipher is turned down before any call to the network. *)
Lemma NewTCPUnderlay_stateless_run :
  exists e,
    NewTCPUnderlay "tcp" "" "203.0.113.7:443" 1400
      {| Sim.key := x11; Sim.count := 0; Sim.implicitNonce := true;
         Sim.stateless := true |}
    = (Err e, []).
Proof.
  exact (proj1 (NewTCPUnderlay_stateless "tcp" "" "203.0.113.7:443" 1400
                  {| Sim.key := x11; Sim.count := 0; Sim.implicitNonce := true;
                     Sim.stateless := true |} eq_refl)).
Defined.

(** A nil segment, and a segment with a foreign metadata, on a client
    that has not written yet. *)
Lemma writeOneSegment_rejected_run :
  let w := Sim.client_fresh [] in
  writeOneSegment None w = (Err ErrNullPointer, w) /\
  writeOneSegment
    (Some {| seg_metadata := MOther xff; seg_payload := [x01] |}) w
  = (Err ErrInvalidArgument, w).
Proof.
  intros w. destruct (writeOneSegment_rejected w) as [Hnil Hother].
  split; [exact Hnil |].
  exact (proj1 (Hother {| seg_metadata := MOther xff; seg_payload := [x01] |}
                  eq_refl eq_refl)).
Defined.

End Runs.

(** * Further properties of the read path *)

(** ** Relations kept by every step of a read *)

Section ReadKeeps.

Context {C : Type} `{BC : BlockCipher C} `{IM : Imports C}.
Local Open Scope go_scope.

(** A relation between the state before and after that every state
    change of the read path respects. *)
Variable R : World -> World -> Prop.
Hypothesis R_refl : forall w, R w w.
Hypothesis R_trans : forall a b c, R a b -> R b c -> R a c.
Hypothesis R_recv : forall r w, R w (with_t (set_recv (Some r)) w).
Hypothesis R_cache : forall c w, R w (set_cache c w).
Hypothesis R_known : forall k w, R w (add_KnownSession k w).
Hypothesis R_read : forall n, keeps R (ReadFull n).

Ltac keep_step :=
  match goal with
  | |- keeps _ (bind _ _) => apply (keeps_bind _ R_trans); [| intros ?]
  | |- keeps _ (wrap _ _) => apply keeps_wrap
  | |- keeps _ (ret _) => apply (keeps_ret _ R_refl)
  | |- keeps _ (fail _) => apply (keeps_fail _ R_refl)
  | |- keeps _ panic => apply (keeps_panic _ R_refl)
  | |- keeps _ (gets _) => apply (keeps_gets _ R_refl)
  | |- keeps _ (modify (with_t (set_recv (Some _)))) =>
      apply keeps_modify; intros ?; apply R_recv
  | |- keeps _ (modify (add_KnownSession _)) =>
      apply keeps_modify; intros ?; apply R_known
  | |- keeps _ (ReadFull _) => apply R_read
  | |- keeps _ (if ?b then _ else _) => destruct b
  | |- keeps _ (match ?x with _ => _ end) => destruct x
  end.

Lemma slice_to_keeps n b : keeps R (slice_to n b).
Proof. unfold slice_to. repeat keep_step. Qed.

Lemma IsDuplicate_keeps tag : keeps R (tcpReplayCache_IsDuplicate tag).
Proof.
  intros w. unfold tcpReplayCache_IsDuplicate.
  destruct (IsDuplicate _ _ _). apply R_cache.
Qed.

Lemma recv_Decrypt_keeps data : keeps R (recv_Decrypt data).
Proof.
  intros w. unfold recv_Decrypt.
  destruct (recv (underlay w)) as [r|]; [| apply R_refl].
  destruct (Decrypt r data) as [[p|] r']; apply R_recv.
Qed.

Lemma readEncryptedMetadata_keeps : keeps R readEncryptedMetadata.
Proof. unfold readEncryptedMetadata. repeat keep_step. Qed.

Lemma decryptMetadata_keeps enc : keeps R (decryptMetadata enc).
Proof.
  unfold decryptMetadata. repeat (keep_step || apply recv_Decrypt_keeps).
Qed.

Lemma readEncryptedPayload_keeps n : keeps R (readEncryptedPayload n).
Proof.
  unfold readEncryptedPayload.
  repeat (keep_step || apply recv_Decrypt_keeps || apply slice_to_keeps
          || apply IsDuplicate_keeps).
Qed.

Lemma readPadding_keeps n : keeps R (readPadding n).
Proof. unfold readPadding. repeat keep_step. Qed.

Lemma readPayload_keeps dec : keeps R (readPayload dec).
Proof.
  unfold readPayload, readSessionSegment, readDataAckSegment.
  repeat (keep_step || apply readPadding_keeps
          || apply readEncryptedPayload_keeps).
Qed.

Lemma decodeSegment_keeps enc : keeps R (decodeSegment enc).
Proof.
  unfold decodeSegment.
  keep_step; [apply decryptMetadata_keeps | apply readPayload_keeps].
Qed.

Hypothesis R_new : forall k w, R w (add_NewSession k w).

Lemma checkReplay_keeps fr enc : keeps R (checkReplay fr enc).
Proof.
  unfold checkReplay. keep_step; [apply slice_to_keeps |].
  keep_step; [apply IsDuplicate_keeps |].
  repeat (keep_step || (apply keeps_modify; intros ?; apply R_new)).
Qed.

Lemma readOneSegment_keeps : keeps R readOneSegment.
Proof.
  unfold readOneSegment.
  keep_step; [apply readEncryptedMetadata_keeps |].
  destruct a as [fr enc].
  keep_step; [apply checkReplay_keeps |].
  apply decodeSegment_keeps.
Qed.

End ReadKeeps.

(** ** What a read does to the rest of the state *)

Section ReadEffects.

Context {C : Type} `{BC : BlockCipher C} `{IM : Imports C}.
Local Open Scope go_scope.

Lemma only_reads_refl (w : World) : only_reads w w.
Proof. repeat split; auto. now exists []. Qed.

Lemma only_reads_trans (a b c : World) :
  only_reads a b -> only_reads b c -> only_reads a c.
Proof.
  intros (A1 & A2 & A3 & A4 & A5 & A6 & A7 & k1 & A8)
         (B1 & B2 & B3 & B4 & B5 & B6 & B7 & k2 & B8).
  repeat split; try congruence.
  exists (k1 ++ k2). rewrite A8, B8. now rewrite app_assoc.
Qed.

Lemma ReadFull_only_reads n : keeps only_reads (ReadFull n).
Proof.
  intros w. unfold ReadFull.
  destruct (n =? 0)%nat; [apply only_reads_refl |].
  destruct (conn (underlay w)) as [c|] eqn:Hc; [| apply only_reads_refl].
  destruct (closed c) eqn:Hcl; [apply only_reads_refl |].
  destruct (n <=? length (unread c))%nat.
  - unfold only_reads, writes, connClosed, unreadBytes. simpl. rewrite Hc.
    repeat split; auto. exists (take n (unread c)). now rewrite take_drop.
  - unfold only_reads, writes, connClosed, unreadBytes. simpl. rewrite Hc.
    repeat split; auto. exists (unread c). now rewrite app_nil_r.
Qed.

(** X1: whatever it returns, [readOneSegment] only takes a prefix off the
    unread bytes of the connection: it writes nothing, closes nothing,
    and leaves the send cipher, the candidates, the session table, the
    sessions and the random generator as they were. *)
Theorem readOneSegment_only_reads (w : World) :
  only_reads w (snd (readOneSegment w)).
Proof.
  apply (readOneSegment_keeps only_reads only_reads_refl only_reads_trans);
    try (intros; apply only_reads_refl).
  - intros r v. unfold only_reads. repeat split; auto. now exists [].
  - intros c v. unfold only_reads. repeat split; auto. now exists [].
  - intros k v. unfold only_reads. repeat split; auto. now exists [].
  - apply ReadFull_only_reads.
  - intros k v. unfold only_reads. repeat split; auto. now exists [].
Qed.

Lemma recv_stays_trans (a b c : World) :
  recv_stays a b -> recv_stays b c -> recv_stays a c.
Proof. unfold recv_stays. auto. Qed.

Lemma ReadFull_recv_stays n : keeps recv_stays (ReadFull n).
Proof.
  intros v. unfold ReadFull, recv_stays.
  destruct (n =? 0)%nat; [auto |].
  destruct (conn (underlay v)) as [c|]; [| auto].
  destruct (closed c); [auto |].
  destruct (n <=? length (unread c))%nat; auto.
Qed.

Ltac recv_side :=
  first [ apply recv_stays_trans
        | apply ReadFull_recv_stays
        | unfold recv_stays; intros; simpl; first [discriminate | assumption] ].

Lemma readOneSegment_recv_stays (w : World) :
  recv_stays w (snd (readOneSegment w)).
Proof. apply (readOneSegment_keeps recv_stays); recv_side. Qed.

Lemma decryptMetadata_sets_recv enc (w : World) dec w' :
  decryptMetadata enc w = (Ok dec, w') -> recv (underlay w') <> None.
Proof.
  unfold decryptMetadata, bind, gets, modify, ret, fail, panic, recv_Decrypt.
  destruct w as [u h ca n1 n2 g]. destruct u as [b co sn rc cands]. simpl.
  destruct rc as [r|]; simpl.
  - destruct (Decrypt r enc) as [[p|] r2]; [| discriminate].
    destruct (negb _); intros E; inversion E; subst; discriminate.
  - destruct (isClient b); simpl.
    + destruct cands as [|c rest]; [discriminate |]. simpl.
      destruct (Decrypt (Clone c) enc) as [[p|] r2]; [| discriminate].
      destruct (negb _); intros E; inversion E; subst; discriminate.
    + destruct (SelectDecrypt enc (CloneBlockCiphers cands)) as [[pb p]|];
        [| discriminate].
      simpl. destruct (negb _); intros E; inversion E; subst; discriminate.
Qed.

(** X2: a segment is only ever returned with the receive cipher set, and
    a receive cipher that is set is never taken away by a read, however
    the read ends.  So after the first segment every read is a later
    read: the metadata is expected without a nonce. *)
Theorem readOneSegment_recv_ready (w : World) :
  (forall seg w', readOneSegment w = (Ok seg, w') ->
     recv (underlay w') <> None /\
     wireMetadataLength w' = (metadataLength + DefaultOverhead)%nat) /\
  (recv (underlay w) <> None ->
   recv (underlay (snd (readOneSegment w))) <> None).
Proof.
  split; [| apply readOneSegment_recv_stays].
  intros seg w' E.
  assert (Hr : recv (underlay w') <> None).
  { unfold readOneSegment in E.
    apply bind_inv_ok in E as ([fr enc] & w1 & _ & E).
    apply bind_inv_ok in E as ([] & w2 & _ & E).
    apply bind_inv_ok in E as (dec & w3 & E3 & E).
    apply decryptMetadata_sets_recv in E3.
    assert (K : keeps recv_stays (readPayload dec))
      by (apply (readPayload_keeps recv_stays); recv_side).
    specialize (K w3). rewrite E in K. now apply K. }
  split; [exact Hr |].
  unfold wireMetadataLength. destruct (recv (underlay w')); [simpl; lia |].
  contradiction.
Qed.

Lemma counters_grow_trans (a b c : World) :
  counters_grow a b -> counters_grow b c -> counters_grow a c.
Proof. unfold counters_grow. intros [] []. split; lia. Qed.

Lemma readOneSegment_counters_grow (w : World) :
  counters_grow w (snd (readOneSegment w)).
Proof.
  apply (readOneSegment_keeps counters_grow);
    try (intros; unfold counters_grow; simpl; split; lia).
  - apply counters_grow_trans.
  - intros n v. unfold ReadFull, counters_grow.
    destruct (n =? 0)%nat; [simpl; lia |].
    destruct (conn (underlay v)) as [c|]; [| simpl; lia].
    destruct (closed c); [simpl; lia |].
    destruct (n <=? length (unread c))%nat; simpl; lia.
Qed.

(** X3: the replay counters never go down in a read, and the NewSession
    counter moves in one case only: by one, when the read is a first read
    (receive cipher nil) that [readOneSegment] refuses as a replay.
    Duplicates seen later, in metadata or payload, are never counted as
    NewSession. *)
Theorem readOneSegment_counters (w : World) :
  counters_grow w (snd (readOneSegment w)) /\
  (replay_NewSession (snd (readOneSegment w)) = replay_NewSession w \/
   (replay_NewSession (snd (readOneSegment w)) = (replay_NewSession w + 1)%nat /\
    recv (underlay w) = None /\
    fst (readOneSegment w) = Err (Errorf "found possible replay attack in %v"))).
Proof.
  split; [apply readOneSegment_counters_grow |].
  pose proof (readEncryptedMetadata_cache w) as (Hc & Hn & _).
  destruct (readEncryptedMetadata w) as [[[fr enc]|e|] w1] eqn:E.
  - simpl in Hc, Hn.
    pose proof (readEncryptedMetadata_ok _ _ _ _ E) as (Hfr & Hlen & _).
    pose proof (wireMetadataLength_tag w) as Htag. rewrite <- Hlen in Htag.
    pose proof (readOneSegment_after_read _ _ _ _ E) as Hrun.
    unfold bind in Hrun. rewrite (checkReplay_run fr enc w1 Htag) in Hrun.
    rewrite Hc in Hrun. cbv zeta in Hrun.
    destruct (fst (IsDuplicate (tcpReplayCache w) (take DefaultOverhead enc)
                     EmptyTag)) eqn:Hq.
    + destruct fr.
      * right. rewrite Hrun. simpl. split; [now rewrite Hn |].
        split; [| reflexivity].
        destruct (recv (underlay w)); [discriminate | reflexivity].
      * left. rewrite Hrun, decodeSegment_NewSession. simpl. exact Hn.
    + left. rewrite Hrun, decodeSegment_NewSession. simpl. exact Hn.
  - left. unfold readOneSegment, bind. rewrite E. exact Hn.
  - left. unfold readOneSegment, bind. rewrite E. exact Hn.
Qed.

End ReadEffects.

(** ** How many bytes a segment takes *)

Section Framing.

Context {C : Type} `{BC : BlockCipher C} `{IM : Imports C}.
Local Open Scope go_scope.

Lemma takes_0 (w w' : World) : unreadBytes w' = unreadBytes w -> takes 0 w w'.
Proof. intros H. exists []. now rewrite H. Qed.

Lemma takes_add a b (w w1 w2 : World) :
  takes a w w1 -> takes b w1 w2 -> takes (a + b) w w2.
Proof.
  intros (t1 & H1 & L1) (t2 & H2 & L2). exists (t1 ++ t2).
  rewrite H1, H2, app_assoc, length_app. split; [reflexivity | lia].
Qed.

Lemma ReadFull_takes n (w : World) b w' :
  ReadFull n w = (Ok b, w') -> takes n w w'.
Proof. intros E. apply ReadFull_ok in E as [Hl Hu]. now exists b. Qed.

(** A read followed by steps that leave the connection alone. *)
Lemma read_then_takes {B} format n (k : bytes -> M B) (w : World) r w' :
  (forall b, keeps (unchanged unreadBytes) (k b)) ->
  bind (wrap format (ReadFull n)) k w = (Ok r, w') ->
  takes n w w'.
Proof.
  intros Hk E. apply bind_inv_ok in E as (b & w1 & E1 & E2).
  apply wrap_inv_ok, ReadFull_takes in E1.
  specialize (Hk b w1). rewrite E2 in Hk. unfold unchanged in Hk. simpl in Hk.
  replace n with (n + 0)%nat by lia.
  eapply takes_add; [exact E1 | now apply takes_0].
Qed.

Lemma readPadding_takes len (w w' : World) :
  readPadding len w = (Ok tt, w') -> takes (Z.to_nat len) w w'.
Proof.
  unfold readPadding. destruct (0 <? len) eqn:Hl.
  - intros E. eapply read_then_takes; [| exact E].
    intros b v. reflexivity.
  - intros E. inversion E; subst. apply Z.ltb_ge in Hl.
    replace (Z.to_nat len) with 0%nat by lia. now apply takes_0.
Qed.

Lemma readEncryptedPayload_takes pl (w : World) p w' :
  readEncryptedPayload pl w = (Ok p, w') ->
  takes (Z.to_nat (uint16 (pl + Z.of_nat DefaultOverhead))) w w'.
Proof.
  unfold readEncryptedPayload. intros E.
  eapply read_then_takes; [| exact E].
  intros b.
  apply (keeps_bind _ (unchanged_trans unreadBytes));
    [apply slice_to_frame | intros tag].
  apply (keeps_bind _ (unchanged_trans unreadBytes));
    [apply IsDuplicate_frame; reflexivity | intros dup].
  apply (keeps_bind _ (unchanged_trans unreadBytes)).
  - destruct dup; [apply keeps_modify; reflexivity
                  | apply (keeps_ret _ (unchanged_refl unreadBytes))].
  - intros _. apply recv_Decrypt_frame. reflexivity.
Qed.

Lemma optional_payload_takes pl (w : World) p w' :
  (if 0 <? pl then readEncryptedPayload pl else ret []) w = (Ok p, w') ->
  takes (payloadWireLength pl) w w' /\ (pl <= 0 -> p = []).
Proof.
  unfold payloadWireLength. destruct (0 <? pl) eqn:Hl.
  - intros E. split; [now apply readEncryptedPayload_takes in E |].
    apply Z.ltb_lt in Hl. lia.
  - intros E. inversion E; subst. split; [now apply takes_0 | reflexivity].
Qed.

Lemma readSessionSegment_takes ss (w : World) seg w' :
  readSessionSegment ss w = (Ok seg, w') ->
  seg_metadata seg = MSession ss /\
  takes (bodyWireLength (MSession ss)) w w' /\
  (ss_payloadLen ss <= 0 -> seg_payload seg = []).
Proof.
  unfold readSessionSegment. intros E.
  apply bind_inv_ok in E as (p & w1 & E1 & E).
  apply bind_inv_ok in E as ([] & w2 & E2 & E).
  inversion E; subst. simpl.
  apply optional_payload_takes in E1 as [T1 Hp].
  apply readPadding_takes in E2.
  split; [reflexivity |]. split; [| exact Hp].
  eapply takes_add; eassumption.
Qed.

Lemma readDataAckSegment_takes das (w : World) seg w' :
  readDataAckSegment das w = (Ok seg, w') ->
  seg_metadata seg = MDataAck das /\
  takes (bodyWireLength (MDataAck das)) w w' /\
  (das_payloadLen das <= 0 -> seg_payload seg = []).
Proof.
  unfold readDataAckSegment. intros E.
  apply bind_inv_ok in E as ([] & w0 & E0 & E).
  apply bind_inv_ok in E as (p & w1 & E1 & E).
  apply bind_inv_ok in E as ([] & w2 & E2 & E).
  inversion E; subst. simpl.
  apply readPadding_takes in E0.
  apply optional_payload_takes in E1 as [T1 Hp].
  apply readPadding_takes in E2.
  split; [reflexivity |]. split; [| exact Hp].
  eapply takes_add; [eapply takes_add |]; eassumption.
Qed.

Lemma readPayload_takes dec (w : World) seg w' :
  readPayload dec w = (Ok seg, w') ->
  takes (bodyWireLength (seg_metadata seg)) w w' /\
  (announcedPayloadLen (seg_metadata seg) <= 0 -> seg_payload seg = []) /\
  (forall p rest, dec = p :: rest ->
     (isSessionProtocol p = true /\
      exists ss, ss_Unmarshal dec = Some ss /\ seg_metadata seg = MSession ss) \/
     (isSessionProtocol p = false /\ isDataAckProtocol p = true /\
      exists das, das_Unmarshal dec = Some das /\
                  seg_metadata seg = MDataAck das)).
Proof.
  unfold readPayload. destruct dec as [|p rest]; [discriminate |].
  destruct (isSessionProtocol p) eqn:Hs.
  - destruct (ss_Unmarshal (p :: rest)) as [ss|] eqn:Hu; [| discriminate].
    intros E. apply readSessionSegment_takes in E as (Hm & T & Hp).
    rewrite Hm. repeat split; auto.
    intros p' rest' Heq. inversion Heq; subst. left. eauto.
  - destruct (isDataAckProtocol p) eqn:Hd; [| discriminate].
    destruct (das_Unmarshal (p :: rest)) as [das|] eqn:Hu; [| discriminate].
    intros E. apply readDataAckSegment_takes in E as (Hm & T & Hp).
    rewrite Hm. repeat split; auto.
    intros p' rest' Heq. inversion Heq; subst. right. eauto.
Qed.

(** X4: a segment that [readOneSegment] returns has taken exactly its
    own bytes off the connection: the encrypted metadata, then for a
    session segment the encrypted payload (when the metadata announces
    one) and the suffix padding, for a data-ack segment the prefix
    padding, the encrypted payload and the suffix padding.  The next read
    starts at the byte after.  The segment holds a session or a data-ack
    structure, and its payload is empty when none is announced. *)
Theorem readOneSegment_takes (w : World) seg w' :
  readOneSegment w = (Ok seg, w') ->
  takes (wireMetadataLength w + bodyWireLength (seg_metadata seg)) w w' /\
  (announcedPayloadLen (seg_metadata seg) <= 0 -> seg_payload seg = []) /\
  (forall p, seg_metadata seg <> MOther p).
Proof.
  intros E. unfold readOneSegment in E.
  apply bind_inv_ok in E as ([fr enc] & w1 & E1 & E).
  apply bind_inv_ok in E as ([] & w2 & E2 & E).
  apply bind_inv_ok in E as (dec & w3 & E3 & E).
  apply readEncryptedMetadata_ok in E1 as (_ & Hlen & Hun).
  assert (T1 : takes (wireMetadataLength w) w w1) by now exists enc.
  assert (U2 : unreadBytes w2 = unreadBytes w1).
  { pose proof (checkReplay_frame unreadBytes ltac:(reflexivity)
                  ltac:(reflexivity) ltac:(reflexivity) fr enc w1) as H.
    now rewrite E2 in H. }
  assert (U3 : unreadBytes w3 = unreadBytes w2).
  { pose proof (decryptMetadata_frame unreadBytes ltac:(reflexivity)
                  enc w2) as H.
    now rewrite E3 in H. }
  pose proof (readPayload_takes _ _ _ _ E) as (T & Hp & Hkind).
  split; [| split; [exact Hp |]].
  - eapply takes_add; [exact T1 |].
    destruct T as (t & Ht & Hl). exists t. split; [congruence | exact Hl].
  - intros p Hm. destruct dec as [|q rest]; [discriminate E |].
    destruct (Hkind q rest eq_refl) as [(_ & ss & _ & H) | (_ & _ & das & _ & H)];
      congruence.
Qed.

End Framing.

(** ** The server's first read, and a metadata that does not decrypt *)

Section Selection.

Context {C : Type} `{BC : BlockCipher C} `{IM : Imports C}.
Local Open Scope go_scope.

Lemma decryptMetadata_server_first enc (w : World) :
  recv (underlay w) = None ->
  isClient (base (underlay w)) = false ->
  decryptMetadata enc w
  = match SelectDecrypt enc (CloneBlockCiphers (candidates (underlay w))) with
    | None => (Err (Errorw "cipher.SelectDecrypt() failed: %w"
                      (ErrCipher "SelectDecrypt")), w)
    | Some (peerBlock, plain) =>
        (if (length plain =? metadataLength)%nat then Ok plain
         else Err (Errorf "decrypted metadata size %d is unexpected"),
         with_t (set_recv (Some (Clone peerBlock))) w)
    end.
Proof.
  intros Hr Hc. unfold decryptMetadata, bind, gets, modify, ret, fail.
  rewrite Hr, Hc. simpl. rewrite Hr. simpl.
  destruct (SelectDecrypt enc _) as [[pb plain]|]; [| reflexivity].
  simpl. destruct (length plain =? metadataLength)%nat; reflexivity.
Qed.

(** X5: on a server's first read (receive cipher nil) the metadata goes
    to [cipher.SelectDecrypt] with clones of the candidates.  If no
    candidate decrypts it, [readOneSegment] returns that error, the
    receive cipher stays nil and the event loop returns; otherwise a
    clone of the cipher that was picked becomes the receive cipher and
    the read goes on with the plaintext.  The candidates themselves are
    the same afterwards in every case. *)
Theorem readOneSegment_server_first (w : World) fr enc w1 w2 :
  readEncryptedMetadata w = (Ok (fr, enc), w1) ->
  checkReplay fr enc w1 = (Ok tt, w2) ->
  recv (underlay w) = None ->
  isClient (base (underlay w)) = false ->
  match SelectDecrypt enc (CloneBlockCiphers (candidates (underlay w))) with
  | None =>
      readOneSegment w
      = (Err (Errorw "cipher.SelectDecrypt() failed: %w"
                (ErrCipher "SelectDecrypt")), w2) /\
      recv (underlay w2) = None /\
      (done (base (underlay w)) = false ->
       forall ctx, isErr (fst (eventLoop (false :: ctx) w)) = true)
  | Some (peerBlock, plain) =>
      readOneSegment w
      = (if (length plain =? metadataLength)%nat then readPayload plain
         else fail (Errorf "decrypted metadata size %d is unexpected"))
          (with_t (set_recv (Some (Clone peerBlock))) w2)
  end /\
  candidates (underlay (snd (readOneSegment w))) = candidates (underlay w).
Proof.
  intros E1 E2 Hr Hc.
  destruct (readOneSegment_stages _ _ _ _ _ E1 E2) as (Hrun & Hr2 & Hc2 & Hl2 & _).
  rewrite Hr in Hr2. rewrite Hc in Hc2.
  split; [| apply (readOneSegment_frame (fun v => candidates (underlay v)));
            reflexivity].
  assert (Hres : readOneSegment w
                 = bind (fun v => decryptMetadata enc v) readPayload w2)
    by exact Hrun.
  unfold bind in Hres.
  rewrite (decryptMetadata_server_first enc w2 Hr2 Hc2), Hl2 in Hres.
  destruct (SelectDecrypt enc _) as [[pb plain]|].
  - rewrite Hres. destruct (length plain =? metadataLength)%nat; reflexivity.
  - split; [exact Hres |]. split; [exact Hr2 |].
    intros Hd ctx. now rewrite (iteration_read_error w _ _ Hd Hres ctx).
Qed.

End Selection.

(** * Further properties of the write path *)

Section WriteEffects.

Context {C : Type} `{BC : BlockCipher C} `{IM : Imports C}.
Local Open Scope go_scope.

Lemma only_sends_refl (w : World) : only_sends w w.
Proof. unfold only_sends. repeat split. Qed.

Lemma only_sends_trans (a b c : World) :
  only_sends a b -> only_sends b c -> only_sends a c.
Proof.
  unfold only_sends.
  intros (A1 & A2 & A3 & A4 & A5 & A6 & A7 & A8 & A9)
         (B1 & B2 & B3 & B4 & B5 & B6 & B7 & B8 & B9).
  repeat split; congruence.
Qed.

Lemma quiet_refl (w : World) : quiet w w.
Proof. split; [apply only_sends_refl | reflexivity]. Qed.

Lemma quiet_trans (a b c : World) : quiet a b -> quiet b c -> quiet a c.
Proof.
  intros [A1 A2] [B1 B2]. split; [eapply only_sends_trans; eauto | congruence].
Qed.

Lemma quiet_send s (w : World) : quiet w (with_t (set_send s) w).
Proof. split; [unfold only_sends; repeat split | reflexivity]. Qed.

Lemma quiet_rng r (w : World) : quiet w (set_rng r w).
Proof. split; [unfold only_sends; repeat split | reflexivity]. Qed.

Lemma Intn_quiet n : keeps quiet (Intn n).
Proof.
  intros w. unfold Intn. destruct (rng_Intn n (rng w)). apply quiet_rng.
Qed.

Lemma newPadding_quiet n : keeps quiet (newPadding n).
Proof.
  intros w. unfold newPadding. destruct (rng_padding n (rng w)).
  apply quiet_rng.
Qed.

Lemma maybeInitSendBlockCipher_quiet : keeps quiet maybeInitSendBlockCipher.
Proof.
  intros w. unfold maybeInitSendBlockCipher.
  destruct (send (underlay w)); [apply quiet_refl |].
  destruct (isClient (base (underlay w))).
  - destruct (candidates (underlay w)); [apply quiet_refl | apply quiet_send].
  - destruct (recv (underlay w)); [apply quiet_send | apply quiet_refl].
Qed.

Lemma send_Encrypt_quiet data : keeps quiet (send_Encrypt data).
Proof.
  intros w. unfold send_Encrypt.
  destruct (send (underlay w)) as [s|]; [| apply quiet_refl].
  destruct (Encrypt s data) as [[c|] s']; apply quiet_send.
Qed.

Lemma appendEncryptedPayload_quiet d p : keeps quiet (appendEncryptedPayload d p).
Proof.
  unfold appendEncryptedPayload. destruct (0 <? length p)%nat.
  - apply (keeps_bind _ quiet_trans); [apply send_Encrypt_quiet |].
    intros c. apply (keeps_ret _ quiet_refl).
  - apply (keeps_ret _ quiet_refl).
Qed.

Lemma conn_Write_once data (w : World) :
  only_sends w (snd (conn_Write data w)) /\
  at_most_one_write w (snd (conn_Write data w)).
Proof.
  unfold conn_Write, only_sends, at_most_one_write, writes, connClosed,
    unreadBytes.
  destruct (conn (underlay w)) as [c|] eqn:Hc; simpl.
  - destruct (closed c) eqn:Hcl; simpl; rewrite ?Hc; repeat split; eauto.
  - rewrite Hc. repeat split; auto.
Qed.

(** Quiet steps, then something that writes at most once. *)
Lemma quiet_then {A B} (m : M A) (k : A -> M B) :
  keeps quiet m ->
  (forall a v, only_sends v (snd (k a v)) /\ at_most_one_write v (snd (k a v))) ->
  forall w, only_sends w (snd (bind m k w)) /\
            at_most_one_write w (snd (bind m k w)).
Proof.
  intros Hm Hk w. unfold bind. specialize (Hm w).
  destruct (m w) as [[a|e|] w1]; simpl in *.
  - destruct Hm as [S1 W1]. destruct (Hk a w1) as [S2 W2].
    split; [eapply only_sends_trans; eauto |].
    unfold at_most_one_write in *. rewrite <- W1. exact W2.
  - destruct Hm as [S1 W1]. split; [exact S1 | now left].
  - destruct Hm as [S1 W1]. split; [exact S1 | now left].
Qed.

Lemma wrap_same_state {A} format (m : M A) (w : World) :
  snd (wrap format m w) = snd (m w).
Proof. unfold wrap. now destruct (m w) as [[a|e|] w1]. Qed.

(** X6: whatever [writeOneSegment] is given and however it ends, it has
    made at most one [Write] call on the connection, has read nothing
    from it and has not closed it; the receive cipher, the candidates,
    the session table, the sessions, the replay cache and its counters
    are as they were. *)
Theorem writeOneSegment_one_write (seg : option segment) (w : World) :
  only_sends w (snd (writeOneSegment seg w)) /\
  at_most_one_write w (snd (writeOneSegment seg w)).
Proof.
  unfold writeOneSegment.
  destruct seg as [seg|]; [| split; [apply only_sends_refl | now left]].
  destruct (toSessionStruct (seg_metadata seg)) as [ss|].
  - apply quiet_then; [apply Intn_quiet | intros x v].
    apply quiet_then; [apply newPadding_quiet | intros p v1].
    apply quiet_then;
      [apply keeps_wrap, maybeInitSendBlockCipher_quiet | intros [] v2].
    apply quiet_then; [apply send_Encrypt_quiet | intros em v3].
    apply quiet_then; [apply appendEncryptedPayload_quiet | intros d v4].
    rewrite wrap_same_state. apply conn_Write_once.
  - destruct (toDataAckStruct (seg_metadata seg)) as [das|];
      [| split; [apply only_sends_refl | now left]].
    apply quiet_then; [apply Intn_quiet | intros x1 v].
    apply quiet_then; [apply Intn_quiet | intros x2 v0].
    apply quiet_then; [apply newPadding_quiet | intros p1 v1].
    apply quiet_then; [apply newPadding_quiet | intros p2 v1'].
    apply quiet_then;
      [apply keeps_wrap, maybeInitSendBlockCipher_quiet | intros [] v2].
    apply quiet_then; [apply send_Encrypt_quiet | intros em v3].
    apply quiet_then; [apply appendEncryptedPayload_quiet | intros d v4].
    rewrite wrap_same_state. apply conn_Write_once.
Qed.

Lemma send_stays_trans (a b c : World) :
  send_stays a b -> send_stays b c -> send_stays a c.
Proof. unfold send_stays. auto. Qed.

Lemma send_stays_refl (w : World) : send_stays w w.
Proof. unfold send_stays. auto. Qed.

Lemma maybeInitSendBlockCipher_stays : keeps send_stays maybeInitSendBlockCipher.
Proof.
  intros w. unfold maybeInitSendBlockCipher, send_stays. intros H.
  destruct (send (underlay w)) eqn:Hs; [simpl; now rewrite Hs |].
  contradiction.
Qed.

Lemma send_Encrypt_stays data : keeps send_stays (send_Encrypt data).
Proof.
  intros w. unfold send_Encrypt, send_stays. intros H.
  destruct (send (underlay w)) as [s|] eqn:Hs; [| contradiction].
  destruct (Encrypt s data) as [[c|] s']; simpl; discriminate.
Qed.

Lemma conn_Write_stays data : keeps send_stays (conn_Write data).
Proof.
  intros w. unfold conn_Write, send_stays.
  destruct (conn (underlay w)) as [c|]; [| auto].
  destruct (closed c); auto.
Qed.

Lemma Intn_stays n : keeps send_stays (Intn n).
Proof.
  intros w. unfold Intn. destruct (rng_Intn n (rng w)). now unfold send_stays.
Qed.

Lemma newPadding_stays n : keeps send_stays (newPadding n).
Proof.
  intros w. unfold newPadding. destruct (rng_padding n (rng w)).
  now unfold send_stays.
Qed.

Ltac stay_step :=
  match goal with
  | |- keeps _ (bind _ _) => apply (keeps_bind _ send_stays_trans); [| intros ?]
  | |- keeps _ (wrap _ _) => apply keeps_wrap
  | |- keeps _ (ret _) => apply (keeps_ret _ send_stays_refl)
  | |- keeps _ (fail _) => apply (keeps_fail _ send_stays_refl)
  | |- keeps _ (Intn _) => apply Intn_stays
  | |- keeps _ (newPadding _) => apply newPadding_stays
  | |- keeps _ maybeInitSendBlockCipher => apply maybeInitSendBlockCipher_stays
  | |- keeps _ (send_Encrypt _) => apply send_Encrypt_stays
  | |- keeps _ (conn_Write _) => apply conn_Write_stays
  | |- keeps _ (if ?b then _ else _) => destruct b
  | |- keeps _ (match ?x with _ => _ end) => destruct x
  end.

Lemma writeOneSegment_send_stays seg : keeps send_stays (writeOneSegment seg).
Proof.
  unfold writeOneSegment, appendEncryptedPayload.
  repeat (cbv zeta; stay_step).
Qed.

Lemma conn_Write_send data (w : World) :
  send (underlay (snd (conn_Write data w))) = send (underlay w).
Proof.
  unfold conn_Write. destruct (conn (underlay w)) as [c|]; [| reflexivity].
  destruct (closed c); reflexivity.
Qed.

Lemma send_Encrypt_sets data (w : World) c w' :
  send_Encrypt data w = (Ok c, w') -> send (underlay w') <> None.
Proof.
  intros E. apply send_Encrypt_inv in E as (s & s' & _ & _ & ->).
  discriminate.
Qed.

(** X7: [writeOneSegment] returns nil only with the send cipher set, and
    a send cipher that is set is never taken away by a write, however
    it ends.  A server that has neither a send nor a receive cipher (it
    has not read a segment yet) cannot send: for a session or data-ack
    segment the call returns the error of [maybeInitSendBlockCipher],
    nothing is written and the send cipher is still nil. *)
Theorem writeOneSegment_send_ready (seg : option segment) (w : World) :
  (forall w', writeOneSegment seg w = (Ok tt, w') ->
     send (underlay w') <> None) /\
  (send (underlay w) <> None ->
   send (underlay (snd (writeOneSegment seg w))) <> None) /\
  (forall s,
     seg = Some s ->
     toSessionStruct (seg_metadata s) <> None \/
       toDataAckStruct (seg_metadata s) <> None ->
     send (underlay w) = None ->
     recv (underlay w) = None ->
     isClient (base (underlay w)) = false ->
     fst (writeOneSegment seg w)
     = Err (Errorw "maybeInitSendBlockCipher() failed: %w"
              (Errorf "recv cipher is nil")) /\
     writes (snd (writeOneSegment seg w)) = writes w /\
     send (underlay (snd (writeOneSegment seg w))) = None).
Proof.
  split; [| split].
  - intros w' E. unfold writeOneSegment in E.
    destruct seg as [s|]; [| discriminate].
    destruct (toSessionStruct (seg_metadata s)) as [ss|].
    + apply bind_inv_ok in E as (x & wa & _ & E).
      apply bind_inv_ok in E as (p & wb & _ & E).
      apply bind_inv_ok in E as ([] & wc & _ & E).
      apply bind_inv_ok in E as (em & wd & E4 & E).
      apply send_Encrypt_sets in E4.
      assert (K : keeps send_stays
                    (bind (appendEncryptedPayload em (seg_payload s))
                       (fun d => wrap "Write() failed: %w"
                                   (conn_Write (d ++ p)))))
        by (unfold appendEncryptedPayload; repeat (cbv zeta; stay_step)).
      specialize (K wd). rewrite E in K. now apply K.
    + destruct (toDataAckStruct (seg_metadata s)) as [das|]; [| discriminate].
      apply bind_inv_ok in E as (x1 & wa & _ & E).
      apply bind_inv_ok in E as (x2 & wa2 & _ & E).
      apply bind_inv_ok in E as (p1 & wb & _ & E).
      apply bind_inv_ok in E as (p2 & wb2 & _ & E).
      apply bind_inv_ok in E as ([] & wc & _ & E).
      apply bind_inv_ok in E as (em & wd & E4 & E).
      apply send_Encrypt_sets in E4.
      assert (K : keeps send_stays
                    (bind (appendEncryptedPayload (em ++ p1) (seg_payload s))
                       (fun d => wrap "Write() failed: %w"
                                   (conn_Write (d ++ p2)))))
        by (unfold appendEncryptedPayload; repeat (cbv zeta; stay_step)).
      specialize (K wd). rewrite E in K. now apply K.
  - apply writeOneSegment_send_stays.
  - intros s -> Hkind Hs Hr Hc.
    assert (Hinit : forall v, underlay v = underlay w ->
              wrap "maybeInitSendBlockCipher() failed: %w"
                maybeInitSendBlockCipher v
              = (Err (Errorw "maybeInitSendBlockCipher() failed: %w"
                        (Errorf "recv cipher is nil")), v)).
    { intros v Hv. unfold wrap, maybeInitSendBlockCipher.
      now rewrite Hv, Hs, Hc, Hr. }
    assert (HI : forall n v, Intn n v
                   = (Ok (fst (rng_Intn n (rng v))),
                      set_rng (snd (rng_Intn n (rng v))) v)).
    { intros n v. unfold Intn. now destruct (rng_Intn n (rng v)). }
    assert (HP : forall n v, newPadding n v
                   = (Ok (fst (rng_padding n (rng v))),
                      set_rng (snd (rng_padding n (rng v))) v)).
    { intros n v. unfold newPadding. now destruct (rng_padding n (rng v)). }
    unfold writeOneSegment.
    destruct (toSessionStruct (seg_metadata s)) as [ss|].
    + rewrite (bind_ok _ _ _ _ _ (HI 255 w)). cbv zeta.
      rewrite (bind_ok _ _ _ _ _ (HP _ _)).
      erewrite bind_err; [| apply Hinit; reflexivity].
      repeat split; auto.
    + destruct (toDataAckStruct (seg_metadata s)) as [das|];
        [| destruct Hkind; contradiction].
      rewrite (bind_ok _ _ _ _ _ (HI 255 w)).
      rewrite (bind_ok _ _ _ _ _ (HI 255 _)). cbv zeta.
      rewrite (bind_ok _ _ _ _ _ (HP _ _)).
      rewrite (bind_ok _ _ _ _ _ (HP _ _)).
      erewrite bind_err; [| apply Hinit; reflexivity].
      repeat split; auto.
Qed.

End WriteEffects.


(** * From the writer to the reader *)

(** ** Reading a well-formed wire image *)

Section ReaderSteps.

Context {C : Type} `{BC : BlockCipher C} `{IM : Imports C}.
Local Open Scope go_scope.

Lemma ReadFull_at n (w : World) r a b :
  reader_at w r (a ++ b) -> length a = n ->
  exists w1, ReadFull n w = (Ok a, w1) /\ reader_at w1 r b.
Proof.
  intros (Hr & Hc & Hu) Hl. unfold ReadFull.
  destruct (n =? 0)%nat eqn:Hn.
  - apply Nat.eqb_eq in Hn. subst n. apply length_zero_iff_nil in Hn. subst a.
    exists w. split; [reflexivity |]. repeat split; auto.
  - apply Nat.eqb_neq in Hn. unfold unreadBytes in Hu. unfold connClosed in Hc.
    destruct (conn (underlay w)) as [c|] eqn:Hconn.
    + rewrite Hc.
      assert (Hle : (n <=? length (unread c))%nat = true).
      { apply Nat.leb_le. rewrite Hu, length_app. lia. }
      rewrite Hle, Hu. subst n. rewrite take_app_length, drop_app_length.
      eexists. split; [reflexivity |].
      unfold reader_at, connClosed, unreadBytes. simpl. repeat split; auto.
    + destruct a; [simpl in Hl; lia | discriminate].
Qed.

Lemma checkReplay_at enc (w : World) r u :
  reader_at w r u -> (DefaultOverhead <= length enc)%nat ->
  exists w1, checkReplay false enc w = (Ok tt, w1) /\ reader_at w1 r u.
Proof.
  intros (Hr & Hc & Hu) Hle. rewrite (checkReplay_run false enc w Hle).
  cbv zeta.
  destruct (fst (IsDuplicate _ _ _)); eexists; (split; [reflexivity |]);
    repeat split; auto.
Qed.

Lemma recv_Decrypt_at data (w : World) r u plain r' :
  reader_at w r u -> Decrypt r data = (Some plain, r') ->
  exists w1, recv_Decrypt data w = (Ok plain, w1) /\ reader_at w1 r' u.
Proof.
  intros (Hr & Hc & Hu) HD. unfold recv_Decrypt. rewrite Hr, HD.
  eexists. split; [reflexivity |]. repeat split; auto.
Qed.

Lemma decryptMetadata_at enc (w : World) r u plain r' :
  reader_at w r u -> Decrypt r enc = (Some plain, r') ->
  length plain = metadataLength ->
  exists w1, decryptMetadata enc w = (Ok plain, w1) /\ reader_at w1 r' u.
Proof.
  intros (Hr & Hc & Hu) HD Hl.
  assert (Hp : metadataPlaintext enc w = Some (plain, r'))
    by (unfold metadataPlaintext; now rewrite Hr, HD).
  rewrite (decryptMetadata_run _ _ _ _ Hp).
  apply Nat.eqb_eq in Hl. rewrite Hl.
  eexists. split; [reflexivity |]. repeat split; auto.
Qed.

Lemma readEncryptedPayload_at pl (w : World) r ep b plain r' :
  reader_at w r (ep ++ b) ->
  length ep = Z.to_nat (uint16 (pl + Z.of_nat DefaultOverhead)) ->
  (DefaultOverhead <= length ep)%nat ->
  Decrypt r ep = (Some plain, r') ->
  exists w1, readEncryptedPayload pl w = (Ok plain, w1) /\ reader_at w1 r' b.
Proof.
  intros Hat Hl Hle HD. unfold readEncryptedPayload.
  destruct (ReadFull_at _ w r ep b Hat Hl) as (w1 & E1 & Hat1).
  rewrite (bind_ok _ _ _ _ _ (wrap_ok _ _ _ _ _ E1)).
  unfold slice_to. apply Nat.leb_le in Hle. rewrite Hle.
  unfold bind at 1. unfold ret at 1.
  unfold bind at 1. unfold tcpReplayCache_IsDuplicate at 1.
  destruct (IsDuplicate (tcpReplayCache w1) _ _) as [dup c].
  assert (Hat2 : forall v, reader_at v r b ->
            exists w2, recv_Decrypt ep v = (Ok plain, w2) /\ reader_at w2 r' b)
    by (intros v Hv; eapply recv_Decrypt_at; eauto).
  destruct Hat1 as (Hr1 & Hc1 & Hu1).
  destruct dup; unfold bind, modify, ret; apply Hat2; repeat split; auto.
Qed.

Lemma readPadding_at len (w : World) r pad b :
  reader_at w r (pad ++ b) -> Z.of_nat (length pad) = len ->
  exists w1, readPadding len w = (Ok tt, w1) /\ reader_at w1 r b.
Proof.
  intros Hat Hl. unfold readPadding. destruct (0 <? len) eqn:Hpos.
  - assert (Hlen : length pad = Z.to_nat len) by lia.
    destruct (ReadFull_at (Z.to_nat len) w r pad b Hat Hlen)
      as (w1 & E1 & Hat1).
    rewrite (bind_ok _ _ _ _ _ (wrap_ok _ _ _ _ _ E1)). eauto.
  - apply Z.ltb_ge in Hpos. destruct pad; [| simpl in Hl; lia].
    exists w. split; [reflexivity | exact Hat].
Qed.

(** The payload part of a segment: nothing for an empty payload, the
    ciphertext otherwise. *)
Lemma optional_payload_at pl (w : World) r ep b payload r' :
  reader_at w r (ep ++ b) ->
  pl = Z.of_nat (length payload) ->
  (payload = [] /\ ep = [] /\ r' = r) \/
  (payload <> [] /\
   length ep = Z.to_nat (uint16 (pl + Z.of_nat DefaultOverhead)) /\
   (DefaultOverhead <= length ep)%nat /\
   Decrypt r ep = (Some payload, r')) ->
  exists w1,
    (if 0 <? pl then readEncryptedPayload pl else ret []) w = (Ok payload, w1) /\
    reader_at w1 r' b.
Proof.
  intros Hat Hpl [(Hp & He & Hr) | (Hp & Hl & Hle & HD)].
  - subst. simpl. exists w. split; [reflexivity | exact Hat].
  - assert (Hpos : (0 <? pl) = true).
    { apply Z.ltb_lt. destruct payload; [contradiction | simpl in Hpl; lia]. }
    rewrite Hpos. eapply readEncryptedPayload_at; eauto.
Qed.

End ReaderSteps.

Section WireImage.

Context {C : Type} `{BC : BlockCipher C} `{IM : Imports C}.
Local Open Scope go_scope.

Lemma readEncryptedMetadata_at (w : World) r em b :
  reader_at w r (em ++ b) ->
  length em = (metadataLength + DefaultOverhead)%nat ->
  exists w1, readEncryptedMetadata w = (Ok (false, em), w1) /\ reader_at w1 r b.
Proof.
  intros Hat Hl. pose proof Hat as (Hr & _ & _).
  unfold readEncryptedMetadata, bind at 1, gets. rewrite Hr. cbn [isNil].
  rewrite Nat.add_0_r.
  destruct (ReadFull_at _ w r em b Hat Hl) as (w1 & E1 & Hat1).
  rewrite (bind_ok _ _ _ _ _ (wrap_ok _ _ _ _ _ E1)). eauto.
Qed.

(** The metadata of a later read, from the wire to the plaintext. *)
Lemma metadata_at (w : World) r em b meta r' :
  reader_at w r (em ++ b) ->
  length em = (metadataLength + DefaultOverhead)%nat ->
  Decrypt r em = (Some meta, r') ->
  length meta = metadataLength ->
  exists w3, readOneSegment w = readPayload meta w3 /\ reader_at w3 r' b.
Proof.
  intros Hat Hl HD Hm.
  destruct (readEncryptedMetadata_at w r em b Hat Hl) as (w1 & E1 & Hat1).
  assert (Hle : (DefaultOverhead <= length em)%nat) by lia.
  destruct (checkReplay_at em w1 r b Hat1 Hle) as (w2 & E2 & Hat2).
  destruct (decryptMetadata_at em w2 r b meta r' Hat2 HD Hm) as (w3 & E3 & Hat3).
  exists w3. split; [| exact Hat3].
  unfold readOneSegment.
  rewrite (bind_ok _ _ _ _ _ E1). rewrite (bind_ok _ _ _ _ _ E2).
  now rewrite (bind_ok _ _ _ _ _ E3).
Qed.

Lemma readOneSegment_session_image (w : World) r0 em ep pad rest
      meta r1 p tl ss payload r2 :
  reader_at w r0 (em ++ ep ++ pad ++ rest) ->
  length em = (metadataLength + DefaultOverhead)%nat ->
  Decrypt r0 em = (Some meta, r1) ->
  length meta = metadataLength ->
  meta = p :: tl -> isSessionProtocol p = true ->
  ss_Unmarshal meta = Some ss ->
  ss_payloadLen ss = Z.of_nat (length payload) ->
  (payload = [] /\ ep = [] /\ r2 = r1) \/
  (payload <> [] /\
   length ep = Z.to_nat (uint16 (ss_payloadLen ss + Z.of_nat DefaultOverhead)) /\
   (DefaultOverhead <= length ep)%nat /\
   Decrypt r1 ep = (Some payload, r2)) ->
  Z.of_nat (length pad) = ss_suffixLen ss ->
  exists w',
    readOneSegment w
    = (Ok {| seg_metadata := MSession ss; seg_payload := payload |}, w') /\
    reader_at w' r2 rest.
Proof.
  intros Hat Hl HD Hm Hhd Hs Hu Hpl Hpay Hpad.
  destruct (metadata_at w r0 em _ meta r1 Hat Hl HD Hm) as (w3 & Hrun & Hat3).
  rewrite Hrun. unfold readPayload. rewrite Hhd, Hs. rewrite <- Hhd, Hu.
  unfold readSessionSegment.
  destruct (optional_payload_at _ w3 r1 ep _ payload r2 Hat3 Hpl Hpay)
    as (w4 & E4 & Hat4).
  rewrite (bind_ok _ _ _ _ _ E4).
  destruct (readPadding_at _ w4 r2 pad rest Hat4 Hpad) as (w5 & E5 & Hat5).
  rewrite (bind_ok _ _ _ _ _ E5). eauto.
Qed.

Lemma readOneSegment_dataAck_image (w : World) r0 em pad1 ep pad2 rest
      meta r1 p tl das payload r2 :
  reader_at w r0 (em ++ pad1 ++ ep ++ pad2 ++ rest) ->
  length em = (metadataLength + DefaultOverhead)%nat ->
  Decrypt r0 em = (Some meta, r1) ->
  length meta = metadataLength ->
  meta = p :: tl -> isSessionProtocol p = false -> isDataAckProtocol p = true ->
  das_Unmarshal meta = Some das ->
  das_payloadLen das = Z.of_nat (length payload) ->
  (payload = [] /\ ep = [] /\ r2 = r1) \/
  (payload <> [] /\
   length ep = Z.to_nat (uint16 (das_payloadLen das + Z.of_nat DefaultOverhead)) /\
   (DefaultOverhead <= length ep)%nat /\
   Decrypt r1 ep = (Some payload, r2)) ->
  Z.of_nat (length pad1) = das_prefixLen das ->
  Z.of_nat (length pad2) = das_suffixLen das ->
  exists w',
    readOneSegment w
    = (Ok {| seg_metadata := MDataAck das; seg_payload := payload |}, w') /\
    reader_at w' r2 rest.
Proof.
  intros Hat Hl HD Hm Hhd Hs Hd Hu Hpl Hpay Hpad1 Hpad2.
  destruct (metadata_at w r0 em _ meta r1 Hat Hl HD Hm) as (w3 & Hrun & Hat3).
  rewrite Hrun. unfold readPayload. rewrite Hhd, Hs, Hd. rewrite <- Hhd, Hu.
  unfold readDataAckSegment.
  destruct (readPadding_at _ w3 r1 pad1 _ Hat3 Hpad1) as (w4 & E4 & Hat4).
  rewrite (bind_ok _ _ _ _ _ E4).
  destruct (optional_payload_at _ w4 r1 ep _ payload r2 Hat4 Hpl Hpay)
    as (w5 & E5 & Hat5).
  rewrite (bind_ok _ _ _ _ _ E5).
  destruct (readPadding_at _ w5 r2 pad2 rest Hat5 Hpad2) as (w6 & E6 & Hat6).
  rewrite (bind_ok _ _ _ _ _ E6). eauto.
Qed.

End WireImage.

(** ** What was written is what is read *)

Section RoundTrip.

Context {C : Type} `{BC : BlockCipher C} `{IM : Imports C}.
Local Open Scope go_scope.

Lemma conn_Write_ok_send data (w w' : World) :
  conn_Write data w = (Ok tt, w') ->
  send (underlay w') = send (underlay w).
Proof.
  intros E. pose proof (conn_Write_send data w) as H. now rewrite E in H.
Qed.

(** The tail of [writeOneSegment]: the payload, the last padding and the
    [Write]. *)
Lemma write_tail_inv head payload pad (w : World) s1 w' :
  send (underlay w) = Some s1 ->
  bind (appendEncryptedPayload head payload)
       (fun d => wrap "Write() failed: %w" (conn_Write (d ++ pad))) w
  = (Ok tt, w') ->
  exists ep s2,
    ((payload = [] /\ ep = [] /\ s2 = s1) \/
     (payload <> [] /\ Encrypt s1 payload = (Some ep, s2))) /\
    send (underlay w') = Some s2 /\
    writes w' = writes w ++ [head ++ ep ++ pad].
Proof.
  intros Hs E. apply bind_inv_ok in E as (out & we & E5 & E).
  apply wrap_inv_ok in E.
  pose proof (conn_Write_ok_send _ _ _ E) as Hsend.
  apply conn_Write_inv in E.
  apply appendEncryptedPayload_inv in E5 as (ep & Hout & Hep).
  destruct Hep as [(Hnil & Hepn & Hwe) | (Hne & s & s' & Hs' & HEp & Hwe)].
  - exists ep, s1. subst. split; [left; auto |]. split; [congruence |].
    rewrite E. now rewrite <- app_assoc.
  - rewrite Hs in Hs'. inversion Hs'; subst s.
    exists ep, s'. split; [right; auto |].
    split; [rewrite Hsend; subst we; reflexivity |].
    rewrite E. subst we out. now rewrite <- app_assoc.
Qed.

Lemma writeOneSegment_session_inv (w : World) seg ss w' :
  toSessionStruct (seg_metadata seg) = Some ss ->
  writeOneSegment (Some seg) w = (Ok tt, w') ->
  exists n pad s0 s1 s2 em ep,
    n = fst (rng_Intn 255 (rng w)) /\
    0 <= n < 255 /\ Z.of_nat (length pad) = n /\
    send (underlay (snd (maybeInitSendBlockCipher w))) = Some s0 /\
    Encrypt s0 (ss_Marshal (ss_with_suffixLen ss n)) = (Some em, s1) /\
    ((seg_payload seg = [] /\ ep = [] /\ s2 = s1) \/
     (seg_payload seg <> [] /\ Encrypt s1 (seg_payload seg) = (Some ep, s2))) /\
    send (underlay w') = Some s2 /\
    writes w' = writes w ++ [em ++ ep ++ pad].
Proof.
  intros Hss E. unfold writeOneSegment in E. rewrite Hss in E.
  apply bind_inv_ok in E as (x & wa & E1 & E).
  apply Intn_inv in E1 as [Hx Hwa].
  assert (Hrange : 0 <= x < 255) by (subst x; now apply rng_Intn_range).
  apply bind_inv_ok in E as (padding & wb & E2 & E).
  apply newPadding_inv in E2 as [Hp Hwb].
  apply bind_inv_ok in E as ([] & wc & E3 & E).
  apply wrap_inv_ok in E3.
  apply bind_inv_ok in E as (em & wd & E4 & E).
  apply send_Encrypt_inv in E4 as (s0 & s1 & Hs0 & HE & Hwd).
  rewrite (uint8_small x Hrange) in HE.
  assert (Hsd : send (underlay wd) = Some s1) by (subst wd; reflexivity).
  destruct (write_tail_inv _ _ _ _ _ _ Hsd E) as (ep & s2 & Hpay & Hs2 & Hw).
  pose proof (maybeInitSendBlockCipher_inv _ _ E3) as [s0' Hwc].
  assert (Hwrites : writes wd = writes w) by (subst; reflexivity).
  exists x, padding, s0, s1, s2, em, ep.
  split; [exact Hx |]. split; [exact Hrange |].
  split; [subst padding; apply rng_padding_length; lia |].
  split.
  { eapply (send_after_init _ w wb wc); [| exact E3 | exact Hs0].
    subst wb wa. reflexivity. }
  split; [exact HE |]. split; [exact Hpay |]. split; [exact Hs2 |].
  now rewrite Hw, Hwrites.
Qed.

Lemma writeOneSegment_dataAck_inv (w : World) seg das w' :
  toSessionStruct (seg_metadata seg) = None ->
  toDataAckStruct (seg_metadata seg) = Some das ->
  writeOneSegment (Some seg) w = (Ok tt, w') ->
  exists n1 n2 pad1 pad2 s0 s1 s2 em ep,
    n1 = fst (rng_Intn 255 (rng w)) /\
    n2 = fst (rng_Intn 255 (snd (rng_Intn 255 (rng w)))) /\
    0 <= n1 < 255 /\ 0 <= n2 < 255 /\
    Z.of_nat (length pad1) = n1 /\ Z.of_nat (length pad2) = n2 /\
    send (underlay (snd (maybeInitSendBlockCipher w))) = Some s0 /\
    Encrypt s0 (das_Marshal (das_with_padding das n1 n2)) = (Some em, s1) /\
    ((seg_payload seg = [] /\ ep = [] /\ s2 = s1) \/
     (seg_payload seg <> [] /\ Encrypt s1 (seg_payload seg) = (Some ep, s2))) /\
    send (underlay w') = Some s2 /\
    writes w' = writes w ++ [em ++ pad1 ++ ep ++ pad2].
Proof.
  intros Hss Hdas E. unfold writeOneSegment in E. rewrite Hss, Hdas in E.
  apply bind_inv_ok in E as (x1 & wa & E1 & E).
  apply Intn_inv in E1 as [Hx1 Hwa].
  apply bind_inv_ok in E as (x2 & wa2 & E1 & E).
  apply Intn_inv in E1 as [Hx2 Hwa2].
  assert (Hr1 : 0 <= x1 < 255) by (subst x1; now apply rng_Intn_range).
  assert (Hr2 : 0 <= x2 < 255) by (subst x2; now apply rng_Intn_range).
  apply bind_inv_ok in E as (padding1 & wb & E2 & E).
  apply newPadding_inv in E2 as [Hp1 Hwb].
  apply bind_inv_ok in E as (padding2 & wb2 & E2 & E).
  apply newPadding_inv in E2 as [Hp2 Hwb2].
  apply bind_inv_ok in E as ([] & wc & E3 & E).
  apply wrap_inv_ok in E3.
  apply bind_inv_ok in E as (em & wd & E4 & E).
  apply send_Encrypt_inv in E4 as (s0 & s1 & Hs0 & HE & Hwd).
  rewrite (uint8_small x1 Hr1), (uint8_small x2 Hr2) in HE.
  assert (Hsd : send (underlay wd) = Some s1) by (subst wd; reflexivity).
  destruct (write_tail_inv _ _ _ _ _ _ Hsd E) as (ep & s2 & Hpay & Hs2 & Hw).
  pose proof (maybeInitSendBlockCipher_inv _ _ E3) as [s0' Hwc].
  assert (Hwrites : writes wd = writes w) by (subst; reflexivity).
  exists x1, x2, padding1, padding2, s0, s1, s2, em, ep.
  split; [exact Hx1 |]. split; [subst x2 wa; reflexivity |].
  split; [exact Hr1 |]. split; [exact Hr2 |].
  split; [subst padding1; apply rng_padding_length; lia |].
  split; [subst padding2; apply rng_padding_length; lia |].
  split.
  { eapply (send_after_init _ w wb2 wc); [| exact E3 | exact Hs0].
    subst wb2 wb wa2 wa. reflexivity. }
  split; [exact HE |]. split; [exact Hpay |]. split; [exact Hs2 |].
  rewrite Hw, Hwrites. now rewrite <- !app_assoc.
Qed.

(** The two ends of a connection share a key and count their messages
    alike: [paired s r] says that the sender's handle [s] and the
    receiver's handle [r] are in step.  What is encrypted by a handle in
    step is decrypted by its peer, both stay in step, and a ciphertext
    is [cipher.DefaultOverhead] bytes longer than its plaintext. *)
Variable paired : C -> C -> Prop.
Hypothesis paired_round_trip :
  forall s r data c s',
    paired s r -> Encrypt s data = (Some c, s') ->
    exists r', Decrypt r c = (Some data, r') /\ paired s' r' /\
               length c = (length data + DefaultOverhead)%nat.

Lemma payload_in_step s1 r1 payload ep s2 :
  paired s1 r1 ->
  Z.of_nat (length payload) + Z.of_nat DefaultOverhead < 65536 ->
  (payload = [] /\ ep = [] /\ s2 = s1) \/
  (payload <> [] /\ Encrypt s1 payload = (Some ep, s2)) ->
  exists r2,
    paired s2 r2 /\
    ((payload = [] /\ ep = [] /\ r2 = r1) \/
     (payload <> [] /\
      length ep = Z.to_nat (uint16 (Z.of_nat (length payload)
                                    + Z.of_nat DefaultOverhead)) /\
      (DefaultOverhead <= length ep)%nat /\
      Decrypt r1 ep = (Some payload, r2))).
Proof.
  intros Hp Hb [(H1 & H2 & H3) | (H1 & HE)].
  - subst. exists r1. split; [exact Hp | left; auto].
  - destruct (paired_round_trip _ _ _ _ _ Hp HE) as (r2 & HD & Hp2 & Hl).
    exists r2. split; [exact Hp2 |]. right.
    split; [exact H1 |]. split; [| split; [lia | exact HD]].
    unfold uint16. rewrite Z.mod_small by lia. lia.
Qed.

(** X8: a session segment that [writeOneSegment] has written is read
    back by the peer's [readOneSegment]: when the writer's send cipher
    and the reader's receive cipher are in step, the codec decodes what
    it encoded, and the metadata announces the payload's length, the
    reader returns the very metadata that was marshalled (with the suffix
    length drawn by the writer) and the very payload, has taken exactly
    the written bytes, and leaves the two ciphers in step. *)
Theorem session_round_trip (ww ww' wr : World) seg ss s0 r0 data rest :
  toSessionStruct (seg_metadata seg) = Some ss ->
  writeOneSegment (Some seg) ww = (Ok tt, ww') ->
  let ss' := ss_with_suffixLen ss (fst (rng_Intn 255 (rng ww))) in
  ss_Unmarshal (ss_Marshal ss') = Some ss' ->
  length (ss_Marshal ss') = metadataLength ->
  (exists tl, ss_Marshal ss' = ss_protocol ss :: tl) ->
  isSessionProtocol (ss_protocol ss) = true ->
  ss_payloadLen ss = Z.of_nat (length (seg_payload seg)) ->
  Z.of_nat (length (seg_payload seg)) + Z.of_nat DefaultOverhead < 65536 ->
  send (underlay (snd (maybeInitSendBlockCipher ww))) = Some s0 ->
  paired s0 r0 ->
  writes ww' = writes ww ++ [data] ->
  reader_at wr r0 (data ++ rest) ->
  exists wr' s2 r2,
    readOneSegment wr
    = (Ok {| seg_metadata := MSession ss'; seg_payload := seg_payload seg |},
       wr') /\
    reader_at wr' r2 rest /\
    send (underlay ww') = Some s2 /\
    paired s2 r2.
Proof.
  intros Hss E ss' Hcodec Hlen [tl Hhd] Hproto Hpl Hbound Hs0 Hp Hdata Hat.
  destruct (writeOneSegment_session_inv _ _ _ _ Hss E)
    as (n & pad & s0' & s1 & s2 & em & ep
        & Hn & Hrange & Hpad & Hs0' & HE & Hpay & Hs2 & Hw).
  rewrite Hs0 in Hs0'. inversion Hs0'; subst s0'. subst n. fold ss' in HE.
  rewrite Hw in Hdata. apply app_inv_head in Hdata. inversion Hdata; subst data.
  destruct (paired_round_trip _ _ _ _ _ Hp HE) as (r1 & HD & Hp1 & Hl).
  destruct (payload_in_step _ _ _ _ _ Hp1 Hbound Hpay) as (r2 & Hp2 & Hread).
  rewrite <- !app_assoc in Hat.
  assert (Hpl' : ss_payloadLen ss' = Z.of_nat (length (seg_payload seg)))
    by exact Hpl.
  rewrite <- Hpl' in Hread.
  assert (Hle : length em = (metadataLength + DefaultOverhead)%nat) by lia.
  destruct (readOneSegment_session_image wr r0 em ep pad rest
              (ss_Marshal ss') r1 (ss_protocol ss) tl ss' (seg_payload seg) r2
              Hat Hle HD Hlen Hhd Hproto Hcodec Hpl' Hread Hpad)
    as (wr' & Hres & Hat').
  exists wr', s2, r2. auto.
Qed.

(** X9: the same for a data-ack segment, whose wire image has a prefix
    padding between the metadata and the payload. *)
Theorem dataAck_round_trip (ww ww' wr : World) seg das s0 r0 data rest :
  toSessionStruct (seg_metadata seg) = None ->
  toDataAckStruct (seg_metadata seg) = Some das ->
  writeOneSegment (Some seg) ww = (Ok tt, ww') ->
  let das' := das_with_padding das (fst (rng_Intn 255 (rng ww)))
                (fst (rng_Intn 255 (snd (rng_Intn 255 (rng ww))))) in
  das_Unmarshal (das_Marshal das') = Some das' ->
  length (das_Marshal das') = metadataLength ->
  (exists tl, das_Marshal das' = das_protocol das :: tl) ->
  isSessionProtocol (das_protocol das) = false ->
  isDataAckProtocol (das_protocol das) = true ->
  das_payloadLen das = Z.of_nat (length (seg_payload seg)) ->
  Z.of_nat (length (seg_payload seg)) + Z.of_nat DefaultOverhead < 65536 ->
  send (underlay (snd (maybeInitSendBlockCipher ww))) = Some s0 ->
  paired s0 r0 ->
  writes ww' = writes ww ++ [data] ->
  reader_at wr r0 (data ++ rest) ->
  exists wr' s2 r2,
    readOneSegment wr
    = (Ok {| seg_metadata := MDataAck das'; seg_payload := seg_payload seg |},
       wr') /\
    reader_at wr' r2 rest /\
    send (underlay ww') = Some s2 /\
    paired s2 r2.
Proof.
  intros Hss Hdas E das' Hcodec Hlen [tl Hhd] Hps Hpd Hpl Hbound Hs0 Hp
         Hdata Hat.
  destruct (writeOneSegment_dataAck_inv _ _ _ _ Hss Hdas E)
    as (n1 & n2 & pad1 & pad2 & s0' & s1 & s2 & em & ep
        & Hn1 & Hn2 & Hr1 & Hr2 & Hpad1 & Hpad2 & Hs0' & HE & Hpay & Hs2 & Hw).
  rewrite Hs0 in Hs0'. inversion Hs0'; subst s0'. subst n1 n2. fold das' in HE.
  rewrite Hw in Hdata. apply app_inv_head in Hdata. inversion Hdata; subst data.
  destruct (paired_round_trip _ _ _ _ _ Hp HE) as (r1 & HD & Hp1 & Hl).
  destruct (payload_in_step _ _ _ _ _ Hp1 Hbound Hpay) as (r2 & Hp2 & Hread).
  rewrite <- !app_assoc in Hat.
  assert (Hpl' : das_payloadLen das' = Z.of_nat (length (seg_payload seg)))
    by exact Hpl.
  rewrite <- Hpl' in Hread.
  assert (Hle : length em = (metadataLength + DefaultOverhead)%nat) by lia.
  destruct (readOneSegment_dataAck_image wr r0 em pad1 ep pad2 rest
              (das_Marshal das') r1 (das_protocol das) tl das'
              (seg_payload seg) r2
              Hat Hle HD Hlen Hhd Hps Hpd Hcodec Hpl' Hread Hpad1 Hpad2)
    as (wr' & Hres & Hat').
  exists wr', s2, r2. auto.
Qed.

End RoundTrip.

(** * Further properties of the event loop and of construction *)

Section LoopEdges.

Context {C : Type} `{BC : BlockCipher C} `{IM : Imports C}.
Local Open Scope go_scope.

(** X10: [RunEventLoop] looks at the connection before anything else: on
    an underlay without a connection it returns [ErrNullPointer], even
    with a cancelled context.  With a connection, a cancelled context or
    a closed [done] latch makes it return nil at once: nothing is read
    and nothing changes, whatever is waiting on the connection. *)
Theorem RunEventLoop_edges (w : World) :
  (conn (underlay w) = None ->
   forall ctx, RunEventLoop ctx w = (Err ErrNullPointer, w)) /\
  (conn (underlay w) <> None ->
   forall cancelled ctx,
     cancelled = true \/ done (base (underlay w)) = true ->
     RunEventLoop (cancelled :: ctx) w = (Ok Returned, w)).
Proof.
  split.
  - intros Hc ctx. unfold RunEventLoop, bind, gets. now rewrite Hc.
  - intros Hc cancelled ctx Hstop. unfold RunEventLoop, bind at 1, gets.
    destruct (conn (underlay w)); [| contradiction]. cbn [isNil].
    cbn [eventLoop]. unfold bind at 1, iteration, bind at 1, gets.
    assert (Hor : cancelled || done (base (underlay w)) = true)
      by (destruct Hstop as [-> | ->]; [reflexivity | apply orb_true_r]).
    now rewrite Hor.
Qed.

(** X11: the event loop has no business with close-conn segments: a
    [closeConnRequest] or a [closeConnResponse] changes nothing (the
    connection is not closed, no session hears of it) and the loop goes
    on to the next segment. *)
Theorem closeConn_ignored (w : World) seg :
  let p := Protocol (seg_metadata seg) in
  isSessionProtocol p = true ->
  p = closeConnRequest \/ p = closeConnResponse ->
  p <> openSessionRequest -> p <> openSessionResponse ->
  p <> closeSessionRequest -> p <> closeSessionResponse ->
  dispatch seg w = (Ok true, w) /\
  (forall w0,
     done (base (underlay w0)) = false ->
     readOneSegment w0 = (Ok seg, w) ->
     forall ctx, eventLoop (false :: ctx) w0 = eventLoop ctx w).
Proof.
  intros p Hs Hp H1 H2 H3 H4.
  assert (Hdis : dispatch seg w = (Ok true, w)).
  { unfold dispatch. fold p. rewrite Hs, !eqb_other by assumption.
    cbn [orb].
    destruct Hp as [Hp | Hp].
    - rewrite <- Hp, eqb_same. reflexivity.
    - rewrite <- Hp, eqb_same. destruct (Byte.eqb p closeConnRequest);
        reflexivity. }
  split; [exact Hdis |].
  intros w0 Hd E ctx. eapply eventLoop_dispatch_next; eauto.
Qed.

(** X12: the open handshake has a direction.  An open-session request
    that reaches a client, and an open-session response that reaches a
    server, are refused with [ErrInvalidOperation] before the segment is
    even looked at: the state is untouched and the event loop returns
    the error. *)
Theorem wrong_role (w : World) seg :
  let p := Protocol (seg_metadata seg) in
  isSessionProtocol p = true ->
  (p = openSessionRequest ->
   isClient (base (underlay w)) = true ->
   dispatch seg w
   = (Err (Errorw "onOpenSessionRequest() failed: %v" ErrInvalidOperation), w)) /\
  (p = openSessionResponse -> p <> openSessionRequest ->
   isClient (base (underlay w)) = false ->
   dispatch seg w
   = (Err (Errorw "onOpenSessionResponse() failed: %v" ErrInvalidOperation), w)).
Proof.
  intros p Hs. split.
  - intros Hp Hc. unfold dispatch. fold p. rewrite Hs, Hp, eqb_same.
    unfold bind, wrap, onOpenSessionRequest, bind, gets. now rewrite Hc.
  - intros Hp Hne Hc. unfold dispatch. fold p.
    rewrite Hs, (eqb_other _ _ Hne), Hp, eqb_same.
    unfold bind, wrap, onOpenSessionResponse, bind, gets. now rewrite Hc.
Qed.

Lemma recvChan_send_delivers seg s (w : World) :
  delivered_to seg s w (snd (recvChan_send s seg w)).
Proof.
  unfold recvChan_send, modify, delivered_to. simpl.
  split; [reflexivity |]. split; [apply length_alter |]. split.
  - intros q Hq. now apply list_lookup_alter_ne.
  - intros x Hx. now rewrite list_lookup_alter_eq, Hx.
Qed.

(** X13: a segment for a session that is in the table goes to that
    session and to no other: a data-ack segment on either side, and an
    open-session response on a client, are put at the end of the
    channel of the session the table gives for their session ID; the
    table, the other sessions and the rest of the underlay are as
    before, and the event loop goes on. *)
Theorem delivery (w : World) seg s :
  let p := Protocol (seg_metadata seg) in
  (forall das,
     isSessionProtocol p = false ->
     isDataAckProtocol p = true ->
     toDataAckStruct (seg_metadata seg) = Some das ->
     sessionMap (base (underlay w)) !! das_sessionID das = Some s ->
     exists w', dispatch seg w = (Ok true, w') /\ delivered_to seg s w w') /\
  (forall ss,
     isSessionProtocol p = true ->
     p = openSessionResponse -> p <> openSessionRequest ->
     isClient (base (underlay w)) = true ->
     seg_metadata seg = MSession ss ->
     sessionMap (base (underlay w)) !! ss_sessionID ss = Some s ->
     exists w', dispatch seg w = (Ok true, w') /\ delivered_to seg s w w').
Proof.
  intros p. split.
  - intros das Hs Hd Hdas Hmap. eexists. split.
    + unfold dispatch. fold p. rewrite Hs, Hd, Hdas.
      unfold bind at 1, gets. rewrite Hmap. unfold bind, ret.
      unfold recvChan_send, modify. reflexivity.
    + apply (recvChan_send_delivers seg s w).
  - intros ss Hs Hp Hne Hc Hm Hmap. eexists. split.
    + unfold dispatch. fold p. rewrite Hs, (eqb_other _ _ Hne), Hp, eqb_same.
      unfold bind at 1, wrap, onOpenSessionResponse, bind at 1, gets.
      rewrite Hc. cbn [negb]. unfold bind at 1, assertSessionStruct.
      rewrite Hm. unfold ret at 1. rewrite Hmap.
      unfold recvChan_send, modify, ret. reflexivity.
    + apply (recvChan_send_delivers seg s w).
Qed.

End LoopEdges.

Section Closing.

Context {C : Type} `{BC : BlockCipher C} `{IM : Imports C}.
Local Open Scope go_scope.

(** What [baseUnderlay]'s methods are relied on for, as in the section on
    the last session. *)
Hypothesis base_Close_done :
  forall bh, done (fst (base_Close bh)) = true.
Hypothesis base_RemoveSession_done :
  forall s bh, done (fst (snd (base_RemoveSession s bh))) = done (fst bh).

Lemma conn_Close_base (w : World) :
  base (underlay (snd (conn_Close w))) = base (underlay w).
Proof.
  unfold conn_Close. destruct (conn (underlay w)) as [c|]; [| reflexivity].
  destruct (closed c); reflexivity.
Qed.

Lemma Close_done (w : World) : done (base (underlay (snd (Close w)))) = true.
Proof.
  unfold Close. destruct (done (base (underlay w))) eqn:Hd; [exact Hd |].
  rewrite conn_Close_base. unfold run_base.
  specialize (base_Close_done (base (underlay w), sessions w)).
  destruct (base_Close _) as [b h]. exact base_Close_done.
Qed.

(** Once the table is empty after [RemoveSession], [Close] has run on
    an underlay whose connection was open or already closed with
    [done]. *)
Lemma RemoveSession_closes (w : World) (s : ptr) c :
  conn (underlay w) = Some c ->
  (done (base (underlay w)) = true -> closed c = true) ->
  sessionMap (base (underlay (snd (RemoveSession s w)))) = ∅ ->
  done (base (underlay (snd (RemoveSession s w)))) = true /\
  connClosed (snd (RemoveSession s w)) = true.
Proof.
  intros Hc Hinv. rewrite RemoveSession_state.
  pose proof (base_RemoveSession_done s (base (underlay w), sessions w)) as Hrm.
  destruct (base_RemoveSession s _) as [err [b h]]. simpl in Hrm.
  cbn [snd]. cbv zeta.
  set (w1 := run_base (fun _ => (b, h)) w).
  assert (Hc1 : conn (underlay w1) = Some c) by exact Hc.
  assert (Hd1 : done (base (underlay w1)) = done (base (underlay w)))
    by exact Hrm.
  case_bool_decide as Hsz.
  - intros _. apply (Close_closes base_Close_done w1 c Hc1).
    rewrite Hd1. exact Hinv.
  - intros Hempty. exfalso. apply Hsz.
    rewrite Hempty. apply map_size_empty.
Qed.

(** X14: [Close] can be called again: once it has run, the latch [done]
    is closed, and every further call returns nil and changes nothing
    (the connection is not closed a second time). *)
Theorem Close_again (w : World) :
  done (base (underlay (snd (Close w)))) = true /\
  Close (snd (Close w)) = (Ok tt, snd (Close w)).
Proof.
  split; [apply Close_done |].
  unfold Close at 1. now rewrite Close_done.
Qed.

(** With a connection, [Close] and [RemoveSession] do not panic. *)
Lemma Close_with_conn (w : World) c :
  conn (underlay w) = Some c -> fst (Close w) <> Panic.
Proof.
  intros Hc. unfold Close. destruct (done (base (underlay w)));
    [discriminate |].
  unfold conn_Close, run_base. destruct (base_Close _) as [b h]. simpl.
  rewrite Hc. destruct (closed c); discriminate.
Qed.

Lemma RemoveSession_with_conn (s : ptr) (w : World) c :
  conn (underlay w) = Some c ->
  exists r, RemoveSession s w = (r, snd (RemoveSession s w)) /\ r <> Panic.
Proof.
  intros Hc. unfold RemoveSession.
  destruct (base_RemoveSession s _) as [err bh]. cbv zeta.
  case_bool_decide.
  - assert (Hc1 : conn (underlay (run_base (fun _ => bh) w)) = Some c).
    { unfold run_base. destruct bh. exact Hc. }
    pose proof (Close_with_conn _ c Hc1) as Hn.
    destruct (Close _) as [[[]|e|] w2]; simpl in *;
      [| | now elim Hn]; (eexists; split; [reflexivity |]);
      destruct err; discriminate.
  - eexists; split; [reflexivity |]. destruct err; discriminate.
Qed.

(** X15: a close-session request or response for the last session of
    the table shuts the underlay down from inside the loop: the segment
    is put on the channel of the session the table gives (and on no
    other), that session is then removed by [RemoveSession], and, the
    table being empty, the underlay closes; [onCloseSession] returns
    nil, and the loop returns nil (not an error) at its next
    iteration. *)
Theorem close_last_session (w : World) seg ss s c :
  let p := Protocol (seg_metadata seg) in
  isSessionProtocol p = true ->
  p = closeSessionRequest \/ p = closeSessionResponse ->
  p <> openSessionRequest -> p <> openSessionResponse ->
  seg_metadata seg = MSession ss ->
  sessionMap (base (underlay w)) !! ss_sessionID ss = Some s ->
  conn (underlay w) = Some c ->
  (done (base (underlay w)) = true -> closed c = true) ->
  let w' := snd (dispatch seg w) in
  sessionMap (base (underlay w')) = ∅ ->
  (exists w1,
     delivered_to seg s w w1 /\
     sessions w1 = alter (chanSend seg) s (sessions w) /\
     w' = snd (RemoveSession s w1)) /\
  dispatch seg w = (Ok true, w') /\
  done (base (underlay w')) = true /\
  connClosed w' = true /\
  (forall w0,
     done (base (underlay w0)) = false ->
     readOneSegment w0 = (Ok seg, w) ->
     forall cancelled ctx,
       eventLoop (false :: cancelled :: ctx) w0 = (Ok Returned, w')).
Proof.
  intros p Hs Hp H1 H2 Hm Hmap Hc Hinv.
  set (w1 := set_sessions (alter (chanSend seg) s (sessions w)) w).
  assert (Hdel : delivered_to seg s w w1)
    by apply (recvChan_send_delivers seg s w).
  assert (Hdis : dispatch seg w
                 = (Ok true, snd (RemoveSession s w1))).
  { unfold dispatch. fold p. rewrite Hs, !eqb_other by assumption.
    assert (Hor : Byte.eqb p closeSessionRequest
                  || Byte.eqb p closeSessionResponse = true).
    { destruct Hp as [-> | ->]; rewrite eqb_same;
        [reflexivity | apply orb_true_r]. }
    rewrite Hor.
    unfold bind at 1, wrap, onCloseSession, bind at 1, gets.
    unfold bind at 1, assertSessionStruct. rewrite Hm. unfold ret at 1.
    rewrite Hmap.
    unfold bind at 1, recvChan_send, modify. fold w1.
    unfold ignore_error.
    destruct (RemoveSession_with_conn s w1 c Hc) as (r & Hr & Hn).
    rewrite Hr. destruct r as [[]|e|]; [reflexivity .. | now elim Hn]. }
  rewrite Hdis. cbn [snd]. intros Hempty.
  destruct (RemoveSession_closes w1 s c Hc Hinv Hempty) as (Hd & Hcl).
  split; [exists w1; split; [exact Hdel |]; split; reflexivity |].
  split; [reflexivity |]. split; [exact Hd |]. split; [exact Hcl |].
  intros w0 Hd0 E cancelled ctx.
  rewrite (eventLoop_dispatch_next _ _ _ _ Hd0 E Hdis).
  cbn [eventLoop]. unfold bind.
  now rewrite (iteration_done _ cancelled Hd).
Qed.

End Closing.

Section Accepting.

Context {C : Type} `{BC : BlockCipher C} `{IM : Imports C}.
Local Open Scope go_scope.

(** X16: a server accepts an open-session request with a fresh,
    non-zero session ID: a new session with that ID is made, registered
    through [AddSession] (here taken to succeed without touching the
    sessions), started, handed the request as the first segment of its
    channel and announced on [readySessions]; the sessions there were
    are as before and the event loop goes on. *)
Theorem openSessionRequest_accepted (w : World) seg ss b' :
  let u := underlay w in
  let fresh := NewSession (ss_sessionID ss) false (mtu (base u)) in
  let s := length (sessions w) in
  seg_metadata seg = MSession ss ->
  ss_protocol ss = openSessionRequest ->
  isSessionProtocol openSessionRequest = true ->
  isClient (base u) = false ->
  ss_sessionID ss <> 0%N ->
  sessionMap (base u) !! ss_sessionID ss = None ->
  base_AddSession s (base u, sessions w ++ [fresh])
  = (None, (b', sessions w ++ [fresh])) ->
  exists w',
    dispatch seg w = (Ok true, w') /\
    sessions w'
    = sessions w ++ [chanSend seg (start (set_attached fresh))] /\
    readySessions (base (underlay w')) = readySessions b' ++ [s] /\
    sessionMap (base (underlay w')) = sessionMap b'.
Proof.
  intros u fresh s Hm Hp Hs Hc Hid Hfree Hadd.
  assert (Hlook : (sessions w ++ [fresh]) !! s = Some fresh)
    by (unfold s; apply list_lookup_middle; reflexivity).
  assert (Halter : forall f x, alter f s (sessions w ++ [x])
                               = sessions w ++ [f x]).
  { intros f x. unfold s. rewrite alter_app_r_alt by lia.
    now rewrite Nat.sub_diag. }
  assert (Hnew : new_Session (ss_sessionID ss) false (mtu (base u)) w
                 = (Ok s, set_sessions (sessions w ++ [fresh]) w))
    by reflexivity.
  assert (Hreg : AddSession s (set_sessions (sessions w ++ [fresh]) w)
                 = (Ok tt,
                    set_sessions
                      (sessions w ++ [start (set_attached fresh)])
                      (with_t (set_base b') w))).
  { unfold AddSession. cbn [set_sessions sessions underlay].
    fold u. rewrite Hadd. unfold run_base.
    cbn [set_sessions sessions underlay with_t]. rewrite Hlook.
    cbn [s_ready fresh NewSession]. rewrite !Halter. reflexivity. }
  eexists. split; [| split; [| split]].
  - unfold dispatch. rewrite Hm. cbn [Protocol]. rewrite Hp, Hs, eqb_same.
    unfold bind at 1, wrap, onOpenSessionRequest, bind at 1, gets.
    fold u. rewrite Hc.
    unfold bind at 1, assertSessionStruct. rewrite Hm. unfold ret at 1.
    apply N.eqb_neq in Hid. rewrite Hid. rewrite Hfree.
    rewrite (bind_ok _ _ _ _ _ Hnew).
    unfold bind at 1, ignore_error. rewrite Hreg.
    unfold bind, recvChan_send, readySessions_send, modify, ret.
    reflexivity.
  - cbn [sessions set_sessions with_t]. rewrite Halter. reflexivity.
  - reflexivity.
  - reflexivity.
Qed.

End Accepting.

(** * Further properties of the construction *)

Section Dialing.

Context {C : Type} `{BC : BlockCipher C} `{IM : Imports C}.
Local Open Scope go_scope.

Lemma network_refused network :
  network <> "tcp"%string -> network <> "tcp4"%string ->
  network <> "tcp6"%string ->
  (String.eqb network "tcp" || String.eqb network "tcp4"
   || String.eqb network "tcp6") = false.
Proof.
  intros H1 H2 H3.
  apply String.eqb_neq in H1, H2, H3. now rewrite H1, H2, H3.
Qed.

Lemma network_accepted network :
  (String.eqb network "tcp" || String.eqb network "tcp4"
   || String.eqb network "tcp6") = true ->
  network = "tcp"%string \/ network = "tcp4"%string \/ network = "tcp6"%string.
Proof.
  intros H. apply orb_prop in H as [H | H]; [apply orb_prop in H as [H | H] |];
    apply String.eqb_eq in H; auto.
Qed.

(** X17: the calls [NewTCPUnderlay] makes to package [net].  A network
    other than tcp, tcp4 and tcp6 is refused before anything else, also
    before the cipher is looked at, and without a call.  In every case
    the calls are one of: none; one [DialContext] without a local address
    (empty [laddr]); one [ResolveTCPAddr] that failed, whose error is
    returned (a failed resolution is never followed by a dial); one
    [ResolveTCPAddr] followed by one [DialContext] from the address it
    gave. *)
Theorem NewTCPUnderlay_net_calls network laddr raddr m (block : C) :
  let r := NewTCPUnderlay network laddr raddr m block in
  (network <> "tcp"%string -> network <> "tcp4"%string ->
   network <> "tcp6"%string ->
   r = (Err (Errorf "network %s is not supported for TCP underlay"), [])) /\
  ((snd r = [] /\ isErr (fst r) = true) \/
   (laddr = ""%string /\ snd r = [CallDialContext network None raddr]) \/
   (laddr <> ""%string /\ ResolveTCPAddr network laddr = None /\
    r = (Err (Errorw "net.ResolveTCPAddr() failed: %w" (ErrIO "resolve")),
         [CallResolveTCPAddr network laddr])) \/
   (laddr <> ""%string /\
    exists a, ResolveTCPAddr network laddr = Some a /\
              snd r = [CallResolveTCPAddr network laddr;
                       CallDialContext network (Some a) raddr])).
Proof.
  intros r. subst r. unfold NewTCPUnderlay. split.
  - intros H1 H2 H3. now rewrite network_refused.
  - destruct (negb _); [left; now split |].
    destruct (IsStateless block); [left; now split |].
    destruct (String.eqb laddr "") eqn:Hl; simpl.
    + apply String.eqb_eq in Hl. right; left. split; [exact Hl |].
      now destruct (DialContext network None raddr).
    + apply String.eqb_neq in Hl.
      destruct (ResolveTCPAddr network laddr) as [a|] eqn:Hr.
      * right; right; right. split; [exact Hl |]. exists a.
        split; [reflexivity |].
        now destruct (DialContext network (Some a) raddr).
      * right; right; left. now repeat split.
Qed.

(** X18: what [NewTCPUnderlay] returns when it returns an underlay: the
    network was one of the three, the cipher is not stateless, the last
    call made was the [DialContext] that gave the connection, and the
    underlay has that connection, the base underlay made by
    [newBaseUnderlay(true, mtu)], the cipher as its only candidate and
    neither a send nor a receive cipher.  Such an underlay is ready for
    use as a client: the event loop does not refuse it for a nil
    connection, and its first write initializes the send cipher with a
    clone of [block] (the candidate list is not empty). *)
Theorem NewTCPUnderlay_client network laddr raddr m (block : C) u calls :
  NewTCPUnderlay network laddr raddr m block = (Ok u, calls) ->
  (network = "tcp"%string \/ network = "tcp4"%string \/
   network = "tcp6"%string) /\
  IsStateless block = false /\
  base u = newBaseUnderlay true m /\
  send u = None /\ recv u = None /\ candidates u = [block] /\
  (exists c localAddr pre,
     conn u = Some c /\
     DialContext network localAddr raddr = Some c /\
     calls = pre ++ [CallDialContext network localAddr raddr] /\
     (laddr = ""%string -> localAddr = None /\ pre = []) /\
     (laddr <> ""%string ->
      ResolveTCPAddr network laddr = localAddr /\
      pre = [CallResolveTCPAddr network laddr])) /\
  (forall w : World,
     underlay w = u ->
     isClient (newBaseUnderlay true m) = true ->
     maybeInitSendBlockCipher w
     = (Ok tt, with_t (set_send (Some (Clone block))) w) /\
     forall ctx, RunEventLoop ctx w = eventLoop ctx w).
Proof.
  unfold NewTCPUnderlay.
  destruct (String.eqb network "tcp" || String.eqb network "tcp4"
            || String.eqb network "tcp6") eqn:Hn; simpl; [| discriminate].
  apply network_accepted in Hn.
  destruct (IsStateless block) eqn:Hs; [discriminate |].
  intros E.
  assert (Hdial : exists c localAddr pre,
            u = {| base := newBaseUnderlay true m; conn := Some c;
                   send := None; recv := None; candidates := [block] |} /\
            DialContext network localAddr raddr = Some c /\
            calls = pre ++ [CallDialContext network localAddr raddr] /\
            (laddr = ""%string -> localAddr = None /\ pre = []) /\
            (laddr <> ""%string ->
             ResolveTCPAddr network laddr = localAddr /\
             pre = [CallResolveTCPAddr network laddr])).
  { destruct (String.eqb laddr "") eqn:Hl; simpl in E.
    - apply String.eqb_eq in Hl.
      destruct (DialContext network None raddr) as [c|] eqn:Hd;
        [| discriminate].
      inversion E; subst u calls. exists c, None, [].
      split; [reflexivity |]. split; [exact Hd |]. split; [reflexivity |].
      split; [now intros _ | intros Hne; now elim Hne].
    - apply String.eqb_neq in Hl.
      destruct (ResolveTCPAddr network laddr) as [a|] eqn:Hr;
        [| discriminate].
      destruct (DialContext network (Some a) raddr) as [c|] eqn:Hd;
        [| discriminate].
      inversion E; subst u calls.
      exists c, (Some a), [CallResolveTCPAddr network laddr].
      split; [reflexivity |]. split; [exact Hd |]. split; [reflexivity |].
      split; [intros He; now elim Hl | now intros _]. }
  destruct Hdial as (c & a & pre & Hu & Hd & Hc & He & Hne).
  split; [exact Hn |]. split; [reflexivity |]. subst u.
  do 4 (split; [reflexivity |]).
  split; [exists c, a, pre; auto |].
  intros w Hw Hcl. split.
  - unfold maybeInitSendBlockCipher. rewrite Hw. simpl. now rewrite Hcl.
  - intros ctx. unfold RunEventLoop, bind, gets. rewrite Hw. reflexivity.
Qed.

End Dialing.

(** * Run-time panics *)

(** The Go code indexes [t.candidates[0]], calls methods on [t.send] and
    [t.recv], slices buffers and asserts the type of a metadata; each of
    these panics when its operand is not what the code expects. *)

Section Panics.

Context {C : Type} `{BC : BlockCipher C} `{IM : Imports C}.
Local Open Scope go_scope.

Lemma bind_no_panic {A B} (m : M A) (k : A -> M B) (w : World) :
  fst (m w) <> Panic ->
  (forall a w1, m w = (Ok a, w1) -> fst (k a w1) <> Panic) ->
  fst (bind m k w) <> Panic.
Proof.
  intros Hm Hk. unfold bind. destruct (m w) as [[a|e|] w1] eqn:E; simpl in *.
  - now apply Hk.
  - discriminate.
  - now elim Hm.
Qed.

Lemma wrap_no_panic {A} format (m : M A) (w : World) :
  fst (m w) <> Panic -> fst (wrap format m w) <> Panic.
Proof.
  unfold wrap. destruct (m w) as [[a|e|] w1]; simpl; auto; discriminate.
Qed.

Lemma wrap_panic {A} format (m : M A) (w : World) :
  fst (wrap format m w) = Panic <-> fst (m w) = Panic.
Proof.
  unfold wrap. destruct (m w) as [[a|e|] w1]; simpl; split; auto; discriminate.
Qed.

Lemma conn_Write_no_panic data (w : World) :
  conn (underlay w) <> None -> fst (conn_Write data w) <> Panic.
Proof.
  intros Hc. unfold conn_Write.
  destruct (conn (underlay w)) as [c|]; [| now elim Hc].
  destruct (closed c); discriminate.
Qed.

Lemma send_Encrypt_no_panic data (w : World) :
  send (underlay w) <> None -> fst (send_Encrypt data w) <> Panic.
Proof.
  intros Hs. unfold send_Encrypt. destruct (send (underlay w)) as [s|];
    [| now elim Hs].
  destruct (Encrypt s data) as [[c|] s']; discriminate.
Qed.

Lemma send_Encrypt_conn data (w : World) :
  conn (underlay (snd (send_Encrypt data w))) = conn (underlay w).
Proof.
  unfold send_Encrypt. destruct (send (underlay w)) as [s|]; [| reflexivity].
  destruct (Encrypt s data) as [[c|] s']; reflexivity.
Qed.

Lemma maybeInitSendBlockCipher_conn (w : World) :
  conn (underlay (snd (maybeInitSendBlockCipher w))) = conn (underlay w).
Proof.
  unfold maybeInitSendBlockCipher.
  destruct (send (underlay w)); [reflexivity |].
  destruct (isClient (base (underlay w))).
  - destruct (candidates (underlay w)); reflexivity.
  - destruct (recv (underlay w)); reflexivity.
Qed.

(** What follows the initialization of the send cipher in
    [writeOneSegment]. *)
Lemma write_tail_no_panic plain (head : bytes -> bytes) payload pad (w : World) :
  send (underlay w) <> None ->
  conn (underlay w) <> None ->
  fst (bind (send_Encrypt plain)
         (fun em => bind (appendEncryptedPayload (head em) payload)
              (fun d => wrap "Write() failed: %w" (conn_Write (d ++ pad)))) w)
  <> Panic.
Proof.
  intros Hs Hc. apply bind_no_panic; [now apply send_Encrypt_no_panic |].
  intros em w1 E1.
  assert (Hc1 : conn (underlay w1) <> None).
  { pose proof (send_Encrypt_conn plain w) as K. rewrite E1 in K.
    simpl in K. now rewrite K. }
  apply send_Encrypt_sets in E1.
  apply bind_no_panic.
  - unfold appendEncryptedPayload. destruct (0 <? length payload)%nat;
      [| discriminate].
    apply bind_no_panic; [now apply send_Encrypt_no_panic |].
    intros; discriminate.
  - intros d w2 E2. apply wrap_no_panic, conn_Write_no_panic.
    unfold appendEncryptedPayload in E2.
    destruct (0 <? length payload)%nat;
      [| inversion E2; subst; exact Hc1].
    apply bind_inv_ok in E2 as (ep & w3 & E3 & E2).
    inversion E2; subst w2.
    pose proof (send_Encrypt_conn payload w1) as K. rewrite E3 in K.
    simpl in K. now rewrite K.
Qed.

Lemma maybeInitSendBlockCipher_panic (w : World) :
  fst (maybeInitSendBlockCipher w) = Panic <->
  send (underlay w) = None /\ isClient (base (underlay w)) = true /\
  candidates (underlay w) = [].
Proof.
  unfold maybeInitSendBlockCipher.
  destruct (send (underlay w)) as [s|]; simpl;
    [split; [discriminate | now intros (? & _)] |].
  destruct (isClient (base (underlay w))); simpl.
  - destruct (candidates (underlay w)) as [| c l]; simpl;
      [now split | split; [discriminate | now intros (_ & _ & ?)]].
  - destruct (recv (underlay w)); simpl;
      (split; [discriminate | now intros (_ & ? & _)]).
Qed.

Lemma maybeInitSendBlockCipher_ok (w w1 : World) :
  maybeInitSendBlockCipher w = (Ok tt, w1) -> send (underlay w1) <> None.
Proof.
  unfold maybeInitSendBlockCipher.
  destruct (send (underlay w)) as [s|] eqn:Hs.
  - intros E; inversion E; subst. now rewrite Hs.
  - destruct (isClient (base (underlay w))).
    + destruct (candidates (underlay w)); intros E; inversion E; discriminate.
    + destruct (recv (underlay w)); intros E; inversion E; discriminate.
Qed.

(** [writeOneSegment] from the initialization of the send cipher on, in
    a state that differs from the initial one by the random generator
    only. *)
Lemma write_from_init_panic plain (head : bytes -> bytes) payload pad
    (w : World) :
  conn (underlay w) <> None ->
  fst (bind (wrap "maybeInitSendBlockCipher() failed: %w"
               maybeInitSendBlockCipher)
         (fun _ => bind (send_Encrypt plain)
            (fun em => bind (appendEncryptedPayload (head em) payload)
               (fun d => wrap "Write() failed: %w" (conn_Write (d ++ pad)))))
         w) = Panic <->
  send (underlay w) = None /\ isClient (base (underlay w)) = true /\
  candidates (underlay w) = [].
Proof.
  intros Hc. rewrite <- maybeInitSendBlockCipher_panic.
  unfold bind at 1, wrap at 1.
  pose proof (maybeInitSendBlockCipher_conn w) as Hk.
  destruct (maybeInitSendBlockCipher w) as [[[]|e|] w1] eqn:E; simpl in *.
  - split; [| discriminate]. intros F. exfalso.
    revert F. apply write_tail_no_panic.
    + now apply maybeInitSendBlockCipher_ok in E.
    + now rewrite Hk.
  - split; discriminate.
  - now split.
Qed.

(** The same on an underlay without a connection: the call cannot
    return nil, and where it would with an open connection [c] in the
    place of the nil one, it panics in [Write]. *)
Lemma write_from_init_nil plain (head : bytes -> bytes) payload pad
    (w : World) :
  conn (underlay w) = None ->
  let run := bind (wrap "maybeInitSendBlockCipher() failed: %w"
                     maybeInitSendBlockCipher)
               (fun _ => bind (send_Encrypt plain)
                  (fun em => bind (appendEncryptedPayload (head em) payload)
                     (fun d => wrap "Write() failed: %w"
                                    (conn_Write (d ++ pad))))) in
  fst (run w) <> Ok tt /\
  (forall c w', run (with_t (set_conn (Some c)) w) = (Ok tt, w') ->
                fst (run w) = Panic).
Proof.
  intros Hc run. subst run.
  destruct w as [u h ca n1 n2 g]. destruct u as [b co sn rc cands].
  simpl in Hc. subst co.
  unfold appendEncryptedPayload.
  unfold bind, wrap, maybeInitSendBlockCipher, send_Encrypt, conn_Write, ret.
  simpl.
  destruct sn as [s0|]; simpl.
  - destruct (Encrypt s0 plain) as [[em|] s1]; simpl;
      [| split; [discriminate | intros; discriminate]].
    destruct (0 <? length payload)%nat; simpl;
      [| split; [discriminate | reflexivity]].
    destruct (Encrypt s1 payload) as [[ep|] s2]; simpl;
      [split; [discriminate | reflexivity]
      | split; [discriminate | intros; discriminate]].
  - destruct (isClient b); simpl.
    + destruct cands as [| c0 l]; simpl;
        [split; [discriminate | reflexivity] |].
      destruct (Encrypt (Clone c0) plain) as [[em|] s1]; simpl;
        [| split; [discriminate | intros; discriminate]].
      destruct (0 <? length payload)%nat; simpl;
        [| split; [discriminate | reflexivity]].
      destruct (Encrypt s1 payload) as [[ep|] s2]; simpl;
        [split; [discriminate | reflexivity]
        | split; [discriminate | intros; discriminate]].
    + destruct rc as [r|]; simpl;
        [| split; [discriminate | intros; discriminate]].
      destruct (Encrypt _ plain) as [[em|] s1]; simpl;
        [| split; [discriminate | intros; discriminate]].
      destruct (0 <? length payload)%nat; simpl;
        [| split; [discriminate | reflexivity]].
      destruct (Encrypt s1 payload) as [[ep|] s2]; simpl;
        [split; [discriminate | reflexivity]
        | split; [discriminate | intros; discriminate]].
Qed.

(** [writeOneSegment] up to the initialization of the send cipher: the
    draws, which change the random generator only. *)
Lemma writeOneSegment_session_draws seg ss (w : World) :
  toSessionStruct (seg_metadata seg) = Some ss ->
  let n := fst (rng_Intn 255 (rng w)) in
  let r1 := snd (rng_Intn 255 (rng w)) in
  let pad := fst (rng_padding n r1) in
  let r2 := snd (rng_padding n r1) in
  writeOneSegment (Some seg) w
  = bind (wrap "maybeInitSendBlockCipher() failed: %w"
            maybeInitSendBlockCipher)
      (fun _ => bind (send_Encrypt
                        (ss_Marshal (ss_with_suffixLen ss (uint8 n))))
         (fun em => bind (appendEncryptedPayload em (seg_payload seg))
            (fun d => wrap "Write() failed: %w" (conn_Write (d ++ pad)))))
      (set_rng r2 (set_rng r1 w)).
Proof.
  intros Hss. cbv zeta. unfold writeOneSegment. rewrite Hss.
  unfold bind at 1, Intn. destruct (rng_Intn 255 (rng w)) as [n r1].
  unfold bind at 1, newPadding. cbn [rng set_rng fst snd].
  destruct (rng_padding n r1) as [pad r2]. reflexivity.
Qed.

Lemma writeOneSegment_dataAck_draws seg das (w : World) :
  toSessionStruct (seg_metadata seg) = None ->
  toDataAckStruct (seg_metadata seg) = Some das ->
  let n1 := fst (rng_Intn 255 (rng w)) in
  let r1 := snd (rng_Intn 255 (rng w)) in
  let n2 := fst (rng_Intn 255 r1) in
  let r2 := snd (rng_Intn 255 r1) in
  let p1 := fst (rng_padding n1 r2) in
  let r3 := snd (rng_padding n1 r2) in
  let p2 := fst (rng_padding n2 r3) in
  let r4 := snd (rng_padding n2 r3) in
  writeOneSegment (Some seg) w
  = bind (wrap "maybeInitSendBlockCipher() failed: %w"
            maybeInitSendBlockCipher)
      (fun _ => bind (send_Encrypt
                        (das_Marshal
                           (das_with_padding das (uint8 n1) (uint8 n2))))
         (fun em => bind (appendEncryptedPayload (em ++ p1) (seg_payload seg))
            (fun d => wrap "Write() failed: %w" (conn_Write (d ++ p2)))))
      (set_rng r4 (set_rng r3 (set_rng r2 (set_rng r1 w)))).
Proof.
  intros Hss Hdas. cbv zeta. unfold writeOneSegment. rewrite Hss, Hdas.
  unfold bind at 1, Intn. destruct (rng_Intn 255 (rng w)) as [n1 r1].
  unfold bind at 1. cbn [rng set_rng fst snd].
  destruct (rng_Intn 255 r1) as [n2 r2].
  unfold bind at 1, newPadding. cbn [rng set_rng fst snd].
  destruct (rng_padding n1 r2) as [p1 r3].
  unfold bind at 1. cbn [rng set_rng fst snd].
  destruct (rng_padding n2 r3) as [p2 r4]. reflexivity.
Qed.

(** X19: when [writeOneSegment] panics.  On an underlay that has a
    connection it does so in one situation only: a session or data-ack
    segment is to be written by a client that has no send cipher yet and
    whose candidate list is empty ([t.candidates[0]] is out of range); a
    nil segment, a foreign metadata, a closed connection and a cipher
    that fails are errors, never panics.  On an underlay whose
    connection is nil the call never returns nil: wherever it would
    with a connection in the place of the nil one, it panics in
    [t.conn.Write]. *)
Theorem writeOneSegment_panics (seg : option segment) (w : World) :
  (conn (underlay w) <> None ->
   (fst (writeOneSegment seg w) = Panic <->
    (exists s, seg = Some s /\
               (toSessionStruct (seg_metadata s) <> None \/
                toDataAckStruct (seg_metadata s) <> None)) /\
    send (underlay w) = None /\ isClient (base (underlay w)) = true /\
    candidates (underlay w) = [])) /\
  (conn (underlay w) = None ->
   fst (writeOneSegment seg w) <> Ok tt /\
   (forall c w',
      writeOneSegment seg (with_t (set_conn (Some c)) w) = (Ok tt, w') ->
      fst (writeOneSegment seg w) = Panic)).
Proof.
  split.
  - intros Hconn.
    destruct seg as [s|];
      [| split; [discriminate | now intros ((s & Hs & _) & _)]].
    destruct (toSessionStruct (seg_metadata s)) as [ss|] eqn:Hss.
    + rewrite (writeOneSegment_session_draws s ss w Hss). cbv zeta.
      rewrite (write_from_init_panic _ (fun em => em)) by exact Hconn.
      split; [intros H; split; [exists s; split; [reflexivity |];
                                left; rewrite Hss; discriminate
                               | exact H]
             | now intros (_ & H)].
    + destruct (toDataAckStruct (seg_metadata s)) as [das|] eqn:Hdas.
      * rewrite (writeOneSegment_dataAck_draws s das w Hss Hdas). cbv zeta.
        rewrite (write_from_init_panic
                   _ (fun em => em ++ fst (rng_padding _ _)))
          by exact Hconn.
        split; [intros H; split; [exists s; split; [reflexivity |];
                                  right; rewrite Hdas; discriminate
                                 | exact H]
               | now intros (_ & H)].
      * unfold writeOneSegment. rewrite Hss, Hdas.
        split; [discriminate |].
        intros ((s' & Hs & [H | H]) & _); inversion Hs; subst s'; now elim H.
  - intros Hconn.
    destruct seg as [s|];
      [| split; [discriminate | intros; discriminate]].
    destruct (toSessionStruct (seg_metadata s)) as [ss|] eqn:Hss.
    + rewrite (writeOneSegment_session_draws s ss w Hss).
      split; [apply (write_from_init_nil _ (fun em => em)); exact Hconn |].
      intros c w' E.
      rewrite (writeOneSegment_session_draws s ss _ Hss) in E.
      eapply (write_from_init_nil _ (fun em => em)); [exact Hconn |].
      exact E.
    + destruct (toDataAckStruct (seg_metadata s)) as [das|] eqn:Hdas.
      * rewrite (writeOneSegment_dataAck_draws s das w Hss Hdas).
        split; [apply (write_from_init_nil
                         _ (fun em => em ++ fst (rng_padding _ _)));
                exact Hconn |].
        intros c w' E.
        rewrite (writeOneSegment_dataAck_draws s das _ Hss Hdas) in E.
        eapply (write_from_init_nil
                  _ (fun em => em ++ fst (rng_padding _ _)));
          [exact Hconn |].
        exact E.
      * unfold writeOneSegment. rewrite Hss, Hdas.
        split; [discriminate | intros; discriminate].
Qed.

Lemma ReadFull_no_panic n (w : World) :
  conn (underlay w) <> None -> fst (ReadFull n w) <> Panic.
Proof.
  intros Hc. unfold ReadFull. destruct (n =? 0)%nat; [discriminate |].
  destruct (conn (underlay w)) as [c|]; [| now elim Hc].
  destruct (closed c); [discriminate |].
  destruct (n <=? length (unread c))%nat; discriminate.
Qed.

Lemma ReadFull_conn_stays n : keeps conn_stays (ReadFull n).
Proof.
  intros v. unfold ReadFull, conn_stays. intros Hc.
  destruct (n =? 0)%nat; [exact Hc |].
  destruct (conn (underlay v)) as [c|] eqn:E; [| now elim Hc].
  destruct (closed c); [simpl; now rewrite E |].
  destruct (n <=? length (unread c))%nat; simpl; discriminate.
Qed.

Lemma conn_stays_trans (a b c : World) :
  conn_stays a b -> conn_stays b c -> conn_stays a c.
Proof. unfold conn_stays. auto. Qed.

Ltac conn_side :=
  first [ apply conn_stays_trans
        | apply ReadFull_conn_stays
        | unfold conn_stays; intros; simpl; assumption ].

Ltac recv_kept :=
  first [ apply recv_stays_trans
        | apply ReadFull_recv_stays
        | unfold recv_stays; intros; simpl; first [discriminate | assumption] ].

Lemma read_no_panic format n (w : World) :
  conn (underlay w) <> None -> fst (wrap format (ReadFull n) w) <> Panic.
Proof. intros Hc. now apply wrap_no_panic, ReadFull_no_panic. Qed.

Lemma read_ok format n (w : World) b w1 :
  wrap format (ReadFull n) w = (Ok b, w1) ->
  length b = n /\
  (recv (underlay w) <> None -> recv (underlay w1) <> None) /\
  (conn (underlay w) <> None -> conn (underlay w1) <> None).
Proof.
  intros E. apply wrap_inv_ok in E.
  split; [now apply ReadFull_ok in E |]. split.
  - pose proof (ReadFull_recv_stays n w) as K. now rewrite E in K.
  - pose proof (ReadFull_conn_stays n w) as K. now rewrite E in K.
Qed.

Lemma readPadding_no_panic len (w : World) :
  conn (underlay w) <> None -> fst (readPadding len w) <> Panic.
Proof.
  intros Hc. unfold readPadding. destruct (0 <? len); [| discriminate].
  apply bind_no_panic; [now apply read_no_panic | intros; discriminate].
Qed.

Lemma readPadding_recv len (w : World) :
  recv (underlay w) <> None -> recv (underlay (snd (readPadding len w))) <> None.
Proof. apply (readPadding_keeps recv_stays); recv_kept. Qed.

Lemma readPadding_conn len (w : World) :
  conn (underlay w) <> None -> conn (underlay (snd (readPadding len w))) <> None.
Proof. apply (readPadding_keeps conn_stays); conn_side. Qed.

Lemma recv_Decrypt_no_panic data (w : World) :
  recv (underlay w) <> None -> fst (recv_Decrypt data w) <> Panic.
Proof.
  intros Hr. unfold recv_Decrypt. destruct (recv (underlay w)) as [r|];
    [| now elim Hr].
  destruct (Decrypt r data) as [[p|] r']; discriminate.
Qed.

(** A payload length that does not wrap around in [uint16] gives a buffer
    that holds a whole tag. *)
Lemma readEncryptedPayload_no_panic pl (w : World) :
  conn (underlay w) <> None ->
  recv (underlay w) <> None ->
  0 < pl -> pl + Z.of_nat DefaultOverhead < 65536 ->
  fst (readEncryptedPayload pl w) <> Panic.
Proof.
  intros Hc Hr Hpos Hlt. unfold readEncryptedPayload.
  apply bind_no_panic; [now apply read_no_panic |].
  intros ep w1 E. apply read_ok in E as (Hl & Hr1 & _). specialize (Hr1 Hr).
  unfold slice_to. unfold uint16 in Hl. rewrite Z.mod_small in Hl by lia.
  assert (Hle : (DefaultOverhead <=? length ep)%nat = true)
    by (apply Nat.leb_le; lia).
  rewrite Hle. unfold bind at 1, ret at 1.
  unfold bind at 1, tcpReplayCache_IsDuplicate.
  destruct (IsDuplicate (tcpReplayCache w1) (take DefaultOverhead ep) EmptyTag)
    as [dup ca].
  apply bind_no_panic; [destruct dup; discriminate |].
  intros [] w2 E2. apply recv_Decrypt_no_panic.
  destruct dup; inversion E2; subst w2; exact Hr1.
Qed.

Lemma optional_payload_no_panic pl (w : World) :
  conn (underlay w) <> None ->
  recv (underlay w) <> None ->
  (0 < pl -> pl + Z.of_nat DefaultOverhead < 65536) ->
  fst ((if 0 <? pl then readEncryptedPayload pl else ret []) w) <> Panic.
Proof.
  intros Hc Hr Hb. destruct (0 <? pl) eqn:Hp; [| discriminate].
  apply Z.ltb_lt in Hp. apply readEncryptedPayload_no_panic; auto.
Qed.

Lemma optional_payload_conn pl (w : World) :
  conn (underlay w) <> None ->
  conn (underlay
          (snd ((if 0 <? pl then readEncryptedPayload pl else ret []) w)))
  <> None.
Proof.
  destruct (0 <? pl); [| auto].
  apply (readEncryptedPayload_keeps conn_stays); conn_side.
Qed.

Lemma readSessionSegment_no_panic ss (w : World) :
  conn (underlay w) <> None ->
  recv (underlay w) <> None ->
  (0 < ss_payloadLen ss ->
   ss_payloadLen ss + Z.of_nat DefaultOverhead < 65536) ->
  fst (readSessionSegment ss w) <> Panic.
Proof.
  intros Hc Hr Hb. unfold readSessionSegment.
  apply bind_no_panic; [now apply optional_payload_no_panic |].
  intros p w1 E1.
  assert (Hc1 : conn (underlay w1) <> None).
  { pose proof (optional_payload_conn (ss_payloadLen ss) w Hc) as K.
    now rewrite E1 in K. }
  apply bind_no_panic; [now apply readPadding_no_panic |].
  intros; discriminate.
Qed.

Lemma readDataAckSegment_no_panic das (w : World) :
  conn (underlay w) <> None ->
  recv (underlay w) <> None ->
  (0 < das_payloadLen das ->
   das_payloadLen das + Z.of_nat DefaultOverhead < 65536) ->
  fst (readDataAckSegment das w) <> Panic.
Proof.
  intros Hc Hr Hb. unfold readDataAckSegment.
  apply bind_no_panic; [now apply readPadding_no_panic |].
  intros [] w1 E1.
  assert (Hr1 : recv (underlay w1) <> None).
  { pose proof (readPadding_recv (das_prefixLen das) w Hr) as K.
    now rewrite E1 in K. }
  assert (Hc1 : conn (underlay w1) <> None).
  { pose proof (readPadding_conn (das_prefixLen das) w Hc) as K.
    now rewrite E1 in K. }
  apply bind_no_panic; [now apply optional_payload_no_panic |].
  intros p w2 E2.
  assert (Hc2 : conn (underlay w2) <> None).
  { pose proof (optional_payload_conn (das_payloadLen das) w1 Hc1) as K.
    now rewrite E2 in K. }
  apply bind_no_panic; [now apply readPadding_no_panic |].
  intros; discriminate.
Qed.

Section Codec.

(** What is relied on from the codec: a payload length that
    [Unmarshal] lets through does not wrap around in [uint16] once the
    cipher's overhead is added. *)
Hypothesis ss_payloadLen_bounded :
  forall b ss, ss_Unmarshal b = Some ss -> 0 < ss_payloadLen ss ->
               ss_payloadLen ss + Z.of_nat DefaultOverhead < 65536.
Hypothesis das_payloadLen_bounded :
  forall b das, das_Unmarshal b = Some das -> 0 < das_payloadLen das ->
                das_payloadLen das + Z.of_nat DefaultOverhead < 65536.

Lemma readPayload_no_panic dec (w : World) :
  dec <> [] -> conn (underlay w) <> None -> recv (underlay w) <> None ->
  fst (readPayload dec w) <> Panic.
Proof.
  intros Hne Hc Hr. unfold readPayload. destruct dec as [| p rest];
    [now elim Hne |].
  destruct (isSessionProtocol p).
  - destruct (ss_Unmarshal (p :: rest)) as [ss|] eqn:Hu; [| discriminate].
    apply readSessionSegment_no_panic; eauto.
  - destruct (isDataAckProtocol p); [| discriminate].
    destruct (das_Unmarshal (p :: rest)) as [das|] eqn:Hu; [| discriminate].
    apply readDataAckSegment_no_panic; eauto.
Qed.

Lemma decryptMetadata_no_panic enc (w : World) :
  (recv (underlay w) = None -> isClient (base (underlay w)) = true ->
   candidates (underlay w) <> []) ->
  fst (decryptMetadata enc w) <> Panic.
Proof.
  unfold decryptMetadata, bind, gets, modify, ret, fail, panic, recv_Decrypt.
  destruct w as [u h ca n1 n2 g]. destruct u as [b co sn rc cands]. simpl.
  intros Hc. destruct rc as [r|]; simpl.
  - destruct (Decrypt r enc) as [[p|] r2]; [| discriminate].
    destruct (negb _); discriminate.
  - destruct (isClient b); simpl.
    + destruct cands as [|c rest]; [now elim Hc |]. simpl.
      destruct (Decrypt (Clone c) enc) as [[p|] r2]; [| discriminate].
      destruct (negb _); discriminate.
    + destruct (SelectDecrypt enc (CloneBlockCiphers cands)) as [[pb p]|];
        [| discriminate].
      simpl. destruct (negb _); discriminate.
Qed.

Lemma decryptMetadata_length enc (w : World) dec w' :
  decryptMetadata enc w = (Ok dec, w') -> length dec = metadataLength.
Proof.
  unfold decryptMetadata. intros E.
  apply bind_inv_ok in E as (u & w0 & _ & E).
  apply bind_inv_ok in E as ([] & w1 & _ & E).
  apply bind_inv_ok in E as (u1 & w2 & _ & E).
  apply bind_inv_ok in E as (d & w3 & _ & E).
  destruct (length d =? metadataLength)%nat eqn:Hl; simpl in E;
    [| discriminate].
  inversion E; subst. now apply Nat.eqb_eq.
Qed.

(** X20: on an underlay that has a connection, [readOneSegment] does not
    panic on a server, nor on a client that has a receive cipher or a
    candidate, whatever the peer sends and whether the connection is
    open, closed or short of bytes, provided the metadata is not empty
    and the codec refuses payload lengths that wrap around: every buffer
    that is sliced holds a whole tag, [t.recv] is set before its
    [Decrypt] is called and the decrypted metadata has its first byte.
    On an underlay whose connection is nil the first read panics
    ([io.ReadFull] calls [Read] through the nil pointer) and nothing has
    changed. *)
Theorem readOneSegment_no_panic (w : World) :
  (0 < metadataLength)%nat ->
  (conn (underlay w) <> None ->
   (recv (underlay w) = None -> isClient (base (underlay w)) = true ->
    candidates (underlay w) <> []) ->
   fst (readOneSegment w) <> Panic) /\
  (conn (underlay w) = None -> readOneSegment w = (Panic, w)).
Proof.
  intros Hm. split.
  - intros Hconn Hc. unfold readOneSegment.
    apply bind_no_panic.
    { unfold readEncryptedMetadata.
      apply bind_no_panic; [discriminate |]. intros u w0 E0.
      inversion E0; subst w0.
      apply bind_no_panic; [now apply read_no_panic | intros; discriminate]. }
    intros [fr enc] w1 E1.
    pose proof (readEncryptedMetadata_ok _ _ _ _ E1) as (_ & Hl & _).
    assert (Hu1 : recv (underlay w1) = recv (underlay w) /\
                  base (underlay w1) = base (underlay w) /\
                  candidates (underlay w1) = candidates (underlay w) /\
                  conn (underlay w1) <> None).
    { unfold readEncryptedMetadata, bind, gets, wrap, ret in E1.
      revert E1. unfold ReadFull.
      destruct (_ =? 0)%nat; [intros E; inversion E; now subst |].
      destruct (conn (underlay w)) as [c|]; [| discriminate].
      destruct (closed c); [discriminate |].
      destruct (_ <=? length (unread c))%nat; [| discriminate].
      intros E. inversion E; subst. repeat split; discriminate. }
    destruct Hu1 as (Hr1 & Hb1 & Hc1 & Hconn1).
    assert (Hle : (DefaultOverhead <= length enc)%nat)
      by (rewrite Hl; unfold wireMetadataLength; lia).
    apply bind_no_panic.
    { rewrite (checkReplay_run _ _ _ Hle). cbv zeta.
      destruct (fst (IsDuplicate _ _ _)); [destruct fr |]; discriminate. }
    intros [] w2 E2.
    assert (Hu2 : underlay w2 = underlay w1).
    { rewrite (checkReplay_run _ _ _ Hle) in E2. cbv zeta in E2.
      destruct (fst (IsDuplicate _ _ _)); [destruct fr |];
        inversion E2; reflexivity. }
    apply bind_no_panic.
    { apply decryptMetadata_no_panic. rewrite Hu2, Hr1, Hb1, Hc1. exact Hc. }
    intros dec w3 E3.
    apply readPayload_no_panic.
    + apply decryptMetadata_length in E3. destruct dec; [simpl in E3; lia |].
      discriminate.
    + assert (K : keeps conn_stays (decryptMetadata enc))
        by (apply (decryptMetadata_keeps conn_stays); conn_side).
      specialize (K w2). rewrite E3 in K. apply K. now rewrite Hu2.
    + now apply decryptMetadata_sets_recv in E3.
  - intros Hconn. unfold readOneSegment, bind at 1, readEncryptedMetadata.
    unfold bind at 1, gets. unfold bind at 1, wrap, ReadFull.
    assert (Hn : (metadataLength + DefaultOverhead +
                  (if isNil (recv (underlay w)) then DefaultNonceSize else 0)
                  =? 0)%nat = false) by (apply Nat.eqb_neq; lia).
    rewrite Hn, Hconn. reflexivity.
Qed.

End Codec.

(** X21: the two operands that the read path does not check itself.  On
    a client without a receive cipher and without a candidate, the read
    panics as soon as the metadata has been read and has passed the
    replay check ([t.candidates[0]]).  And a metadata that announces a
    payload whose length wraps around in [uint16] to less than the
    overhead makes the read of the payload panic once the bytes are
    there: the buffer is shorter than the tag that is sliced off it. *)
Theorem readOneSegment_panics (w : World) :
  (forall fr enc w1 w2,
     readEncryptedMetadata w = (Ok (fr, enc), w1) ->
     checkReplay fr enc w1 = (Ok tt, w2) ->
     recv (underlay w) = None -> isClient (base (underlay w)) = true ->
     candidates (underlay w) = [] ->
     fst (readOneSegment w) = Panic) /\
  (forall pl c,
     0 < pl ->
     let n := Z.to_nat (uint16 (pl + Z.of_nat DefaultOverhead)) in
     (n < DefaultOverhead)%nat ->
     conn (underlay w) = Some c -> closed c = false ->
     (n <= length (unread c))%nat ->
     fst (readEncryptedPayload pl w) = Panic /\
     (forall ss, ss_payloadLen ss = pl ->
                 fst (readSessionSegment ss w) = Panic)).
Proof.
  split.
  - intros fr enc w1 w2 E1 E2 Hr Hcl Hc.
    unfold readOneSegment.
    rewrite (bind_ok _ _ _ _ _ E1). rewrite (bind_ok _ _ _ _ _ E2).
    assert (Hu1 : underlay w2 = underlay w1).
    { pose proof (readEncryptedMetadata_ok _ _ _ _ E1) as (_ & Hl & _).
      assert (Hle : (DefaultOverhead <= length enc)%nat)
        by (rewrite Hl; unfold wireMetadataLength; lia).
      rewrite (checkReplay_run _ _ _ Hle) in E2. cbv zeta in E2.
      destruct (fst (IsDuplicate _ _ _)); [destruct fr |];
        inversion E2; reflexivity. }
    assert (Hu : recv (underlay w1) = None /\
                 isClient (base (underlay w1)) = true /\
                 candidates (underlay w1) = []).
    { unfold readEncryptedMetadata, bind, gets, wrap, ret in E1.
      revert E1. unfold ReadFull.
      destruct (_ =? 0)%nat; [intros E; inversion E; now subst |].
      destruct (conn (underlay w)) as [c|]; [| discriminate].
      destruct (closed c); [discriminate |].
      destruct (_ <=? length (unread c))%nat; [| discriminate].
      intros E. inversion E; now subst. }
    destruct Hu as (Hr1 & Hcl1 & Hc1).
    unfold decryptMetadata, bind, gets. rewrite Hu1, Hr1, Hcl1, Hc1.
    reflexivity.
  - intros pl c Hpos n Hlt Hconn Hopen Hle.
    assert (Hp : fst (readEncryptedPayload pl w) = Panic).
    { unfold readEncryptedPayload. fold n.
      destruct (ReadFull_enough n w c Hconn Hopen Hle) as (w1 & E).
      unfold bind at 1, wrap. rewrite E.
      unfold bind at 1, slice_to.
      assert (Hs : (DefaultOverhead <=? length (take n (unread c)))%nat = false).
      { apply Nat.leb_gt. rewrite length_take. lia. }
      now rewrite Hs. }
    split; [exact Hp |].
    intros ss Hss. unfold readSessionSegment. rewrite Hss.
    apply Z.ltb_lt in Hpos. rewrite Hpos.
    unfold bind at 1.
    destruct (readEncryptedPayload pl w) as [[p|e|] w1]; simpl in Hp;
      try discriminate. reflexivity.
Qed.

End Panics.

(** * The further properties at work on the small instance *)

Section FurtherRuns.

Import Byte.
Local Open Scope go_scope.

(** A fresh server that has read its first message has a receive cipher
    and expects seven bytes of metadata next; a server in mid-connection
    whose read fails on an empty stream keeps its receive cipher. *)
Lemma readOneSegment_recv_ready_run :
  (recv (underlay (snd (readOneSegment Sim.server_fresh))) <> None /\
   wireMetadataLength (snd (readOneSegment Sim.server_fresh)) = 7%nat) /\
  recv (underlay (snd (readOneSegment (Sim.server_idle [])))) <> None.
Proof.
  split.
  - assert (E : fst (readOneSegment Sim.server_fresh) = Ok Sim.request7)
      by (vm_compute; reflexivity).
    destruct (readOneSegment_recv_ready Sim.server_fresh) as (H & _).
    exact (H _ _ (run_outcome _ _ _ E)).
  - destruct (readOneSegment_recv_ready (Sim.server_idle [])) as (_ & H).
    apply H. discriminate.
Defined.

(** A data segment with two bytes of payload, two of prefix and three of
    suffix padding takes its sixteen bytes off the stream and leaves the
    byte that follows. *)
Lemma readOneSegment_takes_run :
  let w := Sim.server_on (Sim.payload_message ++ [x00]) [] in
  takes 16 w (snd (readOneSegment w)) /\
  unreadBytes (snd (readOneSegment w)) = [x00].
Proof.
  intros w.
  assert (E : fst (readOneSegment w)
              = Ok {| seg_metadata :=
                        MDataAck {| das_protocol := x06; das_sessionID := 7;
                                    das_seq := 0; das_ack := 0;
                                    das_payloadLen := 2; das_prefixLen := 2;
                                    das_suffixLen := 3; das_window := 0 |};
                      seg_payload := [x01; x02] |})
    by (vm_compute; reflexivity).
  destruct (readOneSegment_takes w _ _ (run_outcome _ _ _ E)) as (H & _).
  split; [exact H |].
  destruct H as (taken & Hu & Hl).
  rewrite <- (drop_app_length' taken _ 16 (eq_sym Hl)), <- Hu. reflexivity.
Defined.

(** The first message of user [x11] on a fresh server that knows the
    user, and on one that does not. *)
Lemma readOneSegment_server_first_run :
  (recv (underlay (snd (readOneSegment Sim.server_fresh)))
   = Some Sim.started /\
   candidates (underlay (snd (readOneSegment Sim.server_fresh)))
   = [Sim.user x22; Sim.user x11]) /\
  (fst (readOneSegment Sim.server_stranger)
   = Err (Errorw "cipher.SelectDecrypt() failed: %w"
            (ErrCipher "SelectDecrypt")) /\
   recv (underlay (snd (readOneSegment Sim.server_stranger))) = None /\
   isErr (fst (eventLoop [false] Sim.server_stranger)) = true).
Proof.
  split.
  - set (w := Sim.server_fresh).
    assert (E1 : fst (readEncryptedMetadata w) = Ok (true, Sim.first_message))
      by (vm_compute; reflexivity).
    apply run_outcome in E1.
    assert (E2 : fst (checkReplay true Sim.first_message
                        (snd (readEncryptedMetadata w))) = Ok tt)
      by (vm_compute; reflexivity).
    apply run_outcome in E2.
    destruct (readOneSegment_server_first w _ _ _ _ E1 E2 eq_refl eq_refl)
      as [Hm Hc].
    split; [| exact Hc].
    assert (Hsel : SelectDecrypt Sim.first_message
                     (CloneBlockCiphers (candidates (underlay w)))
                   = Some (Sim.started, [x02; x07; x00; x00; x00]))
      by (vm_compute; reflexivity).
    rewrite Hsel in Hm. rewrite Hm. vm_compute. reflexivity.
  - set (w := Sim.server_stranger).
    assert (E1 : fst (readEncryptedMetadata w) = Ok (true, Sim.first_message))
      by (vm_compute; reflexivity).
    apply run_outcome in E1.
    assert (E2 : fst (checkReplay true Sim.first_message
                        (snd (readEncryptedMetadata w))) = Ok tt)
      by (vm_compute; reflexivity).
    apply run_outcome in E2.
    destruct (readOneSegment_server_first w _ _ _ _ E1 E2 eq_refl eq_refl)
      as [Hm _].
    assert (Hsel : SelectDecrypt Sim.first_message
                     (CloneBlockCiphers (candidates (underlay w)))
                   = None)
      by (vm_compute; reflexivity).
    rewrite Hsel in Hm. destruct Hm as (E & Hr & Hl).
    rewrite E. split; [reflexivity |]. split; [exact Hr |].
    exact (Hl eq_refl []).
Defined.

(** A client's first write sets its send cipher, a write never takes
    the send cipher away, and a server that has read nothing cannot
    send. *)
Lemma writeOneSegment_send_ready_run :
  send (underlay (snd (writeOneSegment (Some Sim.request7)
                         (Sim.client_fresh [])))) <> None /\
  send (underlay (snd (writeOneSegment None (Sim.client_idle [])))) <> None /\
  (fst (writeOneSegment (Some Sim.request7) Sim.server_fresh)
   = Err (Errorw "maybeInitSendBlockCipher() failed: %w"
            (Errorf "recv cipher is nil")) /\
   writes (snd (writeOneSegment (Some Sim.request7) Sim.server_fresh)) = []).
Proof.
  split; [| split].
  - assert (E : fst (writeOneSegment (Some Sim.request7) (Sim.client_fresh []))
                = Ok tt) by (vm_compute; reflexivity).
    destruct (writeOneSegment_send_ready (Some Sim.request7)
                (Sim.client_fresh [])) as (H & _).
    exact (H _ (run_outcome _ _ _ E)).
  - destruct (writeOneSegment_send_ready None (Sim.client_idle []))
      as (_ & H & _).
    apply H. discriminate.
  - destruct (writeOneSegment_send_ready (Some Sim.request7) Sim.server_fresh)
      as (_ & _ & H).
    destruct (H Sim.request7 eq_refl) as (E & Hw & _);
      [left; discriminate | reflexivity .. |].
    split; [exact E | exact Hw].
Defined.

Lemma Sim_paired_round_trip :
  forall (s r : Sim.cipher) data c s',
    Sim.paired s r -> Encrypt s data = (Some c, s') ->
    exists r', Decrypt r c = (Some data, r') /\ Sim.paired s' r' /\
               length c = (length data + DefaultOverhead)%nat.
Proof.
  intros s r data c s' (Hk & Hs & Hr) E. simpl in E. unfold Sim.encrypt in E.
  destruct (Sim.count s) as [| n] eqn:Hn; [lia |]. simpl in E.
  inversion E; subst c s'. exists (Sim.tick r).
  simpl. unfold Sim.decrypt.
  destruct (Sim.count r) as [| k] eqn:Hc; [lia |]. simpl.
  rewrite Hk, (Byte.byte_dec_lb eq_refl). simpl.
  split; [reflexivity |]. split; [| lia].
  unfold Sim.paired. simpl. rewrite Hk. repeat split; lia.
Qed.

(** A client in mid-connection writes an open-session request with a
    payload, then a data segment; the server whose receive cipher is in
    step reads each of them back as written, with the paddings that were
    drawn, and is left at the byte that follows. *)
Lemma session_round_trip_run :
  let ww := Sim.client_idle [] in
  let wr := Sim.server_idle (Sim.hello_message ++ [x00]) in
  writes (snd (writeOneSegment (Some (Sim.hello7 [x01; x02])) ww))
  = [Sim.hello_message] /\
  fst (readOneSegment wr)
  = Ok {| seg_metadata :=
            MSession {| ss_protocol := x02; ss_sessionID := 7; ss_seq := 0;
                        ss_payloadLen := 2; ss_suffixLen := 2;
                        ss_flags := 0 |};
          seg_payload := [x01; x02] |} /\
  unreadBytes (snd (readOneSegment wr)) = [x00].
Proof.
  intros ww wr.
  assert (E : fst (writeOneSegment (Some (Sim.hello7 [x01; x02])) ww) = Ok tt)
    by (vm_compute; reflexivity).
  apply run_outcome in E.
  assert (Hw : writes (snd (writeOneSegment (Some (Sim.hello7 [x01; x02])) ww))
               = writes ww ++ [Sim.hello_message])
    by (vm_compute; reflexivity).
  split; [exact Hw |].
  destruct (session_round_trip Sim.paired Sim_paired_round_trip
              ww _ wr (Sim.hello7 [x01; x02]) _ Sim.started Sim.started
              Sim.hello_message [x00] eq_refl E)
    as (wr' & s2 & r2 & Hread & (_ & _ & Hu) & _).
  - reflexivity.
  - reflexivity.
  - eexists. reflexivity.
  - reflexivity.
  - reflexivity.
  - vm_compute. reflexivity.
  - reflexivity.
  - unfold Sim.paired. vm_compute. repeat split; lia.
  - exact Hw.
  - repeat split.
  - rewrite Hread. split; [reflexivity | exact Hu].
Defined.

Lemma dataAck_round_trip_run :
  let ww := Sim.client_idle [] in
  let wr := Sim.server_idle (Sim.payload_message ++ [x00]) in
  writes (snd (writeOneSegment (Some (Sim.data7 [x01; x02])) ww))
  = [Sim.payload_message] /\
  fst (readOneSegment wr)
  = Ok {| seg_metadata :=
            MDataAck {| das_protocol := x06; das_sessionID := 7;
                        das_seq := 0; das_ack := 0;
                        das_payloadLen := 2; das_prefixLen := 2;
                        das_suffixLen := 3; das_window := 0 |};
          seg_payload := [x01; x02] |} /\
  unreadBytes (snd (readOneSegment wr)) = [x00].
Proof.
  intros ww wr.
  assert (E : fst (writeOneSegment (Some (Sim.data7 [x01; x02])) ww) = Ok tt)
    by (vm_compute; reflexivity).
  apply run_outcome in E.
  assert (Hw : writes (snd (writeOneSegment (Some (Sim.data7 [x01; x02])) ww))
               = writes ww ++ [Sim.payload_message])
    by (vm_compute; reflexivity).
  split; [exact Hw |].
  destruct (dataAck_round_trip Sim.paired Sim_paired_round_trip
              ww _ wr (Sim.data7 [x01; x02]) _ Sim.started Sim.started
              Sim.payload_message [x00] eq_refl eq_refl E)
    as (wr' & s2 & r2 & Hread & (_ & _ & Hu) & _).
  - reflexivity.
  - reflexivity.
  - eexists. reflexivity.
  - reflexivity.
  - reflexivity.
  - reflexivity.
  - vm_compute. reflexivity.
  - reflexivity.
  - unfold Sim.paired. vm_compute. repeat split; lia.
  - exact Hw.
  - repeat split.
  - rewrite Hread. split; [reflexivity | exact Hu].
Defined.

(** An underlay without a connection, and a server with a data segment
    waiting whose context is cancelled. *)
Lemma RunEventLoop_edges_run :
  RunEventLoop [true] Sim.unconnected = (Err ErrNullPointer, Sim.unconnected) /\
  RunEventLoop [true; false] (Sim.server_on Sim.data_message [])
  = (Ok Returned, Sim.server_on Sim.data_message []).
Proof.
  split.
  - destruct (RunEventLoop_edges Sim.unconnected) as (H & _).
    exact (H eq_refl [true]).
  - destruct (RunEventLoop_edges (Sim.server_on Sim.data_message []))
      as (_ & H).
    apply H; [discriminate | left; reflexivity].
Defined.

(** A server that serves session 7 reads a close-conn request: nothing
    changes and the loop goes on. *)
Lemma closeConn_ignored_run :
  let w0 := Sim.server_on Sim.closeConn_message [] in
  let w := snd (readOneSegment w0) in
  dispatch Sim.closeConn0 w = (Ok true, w) /\
  eventLoop [false; true] w0 = eventLoop [true] w.
Proof.
  intros w0 w.
  assert (E : fst (readOneSegment w0) = Ok Sim.closeConn0)
    by (vm_compute; reflexivity).
  apply run_outcome in E.
  destruct (closeConn_ignored w Sim.closeConn0) as (Hd & Hl);
    [reflexivity | left; reflexivity | discriminate .. |].
  split; [exact Hd |].
  exact (Hl w0 eq_refl E [true]).
Defined.

(** An open-session request on a client and an open-session response on
    a server. *)
Lemma wrong_role_run :
  dispatch Sim.request7 (Sim.client_idle [])
  = (Err (Errorw "onOpenSessionRequest() failed: %v" ErrInvalidOperation),
     Sim.client_idle []) /\
  dispatch Sim.response7 (Sim.server_idle [])
  = (Err (Errorw "onOpenSessionResponse() failed: %v" ErrInvalidOperation),
     Sim.server_idle []).
Proof.
  split.
  - destruct (wrong_role (Sim.client_idle []) Sim.request7 eq_refl)
      as (H & _).
    exact (H eq_refl eq_refl).
  - destruct (wrong_role (Sim.server_idle []) Sim.response7 eq_refl)
      as (_ & H).
    apply H; [reflexivity | discriminate | reflexivity].
Defined.

(** A data segment for session 7 on a server that serves it, and the
    open-session response for session 7 on the client that asked. *)
Lemma delivery_run :
  (exists w', dispatch (Sim.data7 []) (Sim.server_on [] []) = (Ok true, w') /\
              delivered_to (Sim.data7 []) 0%nat (Sim.server_on [] []) w') /\
  (exists w', dispatch Sim.response7 (Sim.client_on []) = (Ok true, w') /\
              delivered_to Sim.response7 0%nat (Sim.client_on []) w').
Proof.
  split.
  - destruct (delivery (Sim.server_on [] []) (Sim.data7 []) 0%nat) as (H & _).
    apply (H _ eq_refl eq_refl eq_refl). vm_compute. reflexivity.
  - destruct (delivery (Sim.client_on []) Sim.response7 0%nat) as (_ & H).
    eapply H; [reflexivity | reflexivity | discriminate | reflexivity
               | reflexivity |].
    vm_compute. reflexivity.
Defined.

(** Closing a server twice. *)
Lemma Close_again_run :
  let w := snd (Close (Sim.server_on [] [])) in
  done (base (underlay w)) = true /\ Close w = (Ok tt, w).
Proof.
  exact (Close_again Sim_base_Close_done (Sim.server_on [] [])).
Defined.

(** A server whose only session is session 7 reads the close-session
    request for it. *)
Lemma close_last_session_run :
  let w0 := Sim.server_on Sim.close_message [] in
  let w := snd (readOneSegment w0) in
  let w' := snd (dispatch Sim.close7 w) in
  (exists w1, s_recvChan <$> sessions w1 = [[Sim.close7]] /\
              w' = snd (RemoveSession 0 w1)) /\
  dispatch Sim.close7 w = (Ok true, w') /\
  done (base (underlay w')) = true /\
  connClosed w' = true /\
  eventLoop [false; false] w0 = (Ok Returned, w').
Proof.
  intros w0 w w'.
  assert (E : fst (readOneSegment w0) = Ok Sim.close7)
    by (vm_compute; reflexivity).
  apply run_outcome in E.
  assert (Hempty : sessionMap (base (underlay w')) = ∅)
    by (vm_compute; reflexivity).
  assert (Hlook : sessionMap (base (underlay w)) !! 7%N = Some 0%nat)
    by (vm_compute; reflexivity).
  assert (Hconn : conn (underlay w)
                  = Some {| unread := []; written := []; closed := false |})
    by (vm_compute; reflexivity).
  assert (Hdone : done (base (underlay w)) = false)
    by (vm_compute; reflexivity).
  destruct (close_last_session Sim_base_Close_done Sim_base_RemoveSession_done
              w Sim.close7 _ 0%nat _ eq_refl (or_introl eq_refl)
              ltac:(discriminate) ltac:(discriminate) eq_refl Hlook Hconn)
    as ((w1 & _ & Hs1 & Hw1) & Hd & Hdn & Hc & Hl).
  - rewrite Hdone. discriminate.
  - exact Hempty.
  - split.
    { exists w1. split; [rewrite Hs1; vm_compute; reflexivity | exact Hw1]. }
    split; [exact Hd |]. split; [exact Hdn |]. split; [exact Hc |].
    exact (Hl w0 eq_refl E false []).
Defined.

(** A server in mid-connection without sessions accepts the
    open-session request for session 7. *)
Lemma openSessionRequest_accepted_run :
  exists w',
    dispatch Sim.request7 (Sim.server_idle []) = (Ok true, w') /\
    s_recvChan <$> sessions w' = [[Sim.request7]] /\
    readySessions (base (underlay w')) = [0%nat] /\
    sessionMap (base (underlay w')) !! 7%N = Some 0%nat.
Proof.
  set (w := Sim.server_idle []).
  set (fresh := NewSession 7 false (mtu (base (underlay w)))).
  set (b' := fst (snd (base_AddSession 0 (base (underlay w), [fresh])))).
  assert (Hadd : base_AddSession (length (sessions w))
                   (base (underlay w), sessions w ++ [fresh])
                 = (None, (b', sessions w ++ [fresh])))
    by (vm_compute; reflexivity).
  destruct (openSessionRequest_accepted w Sim.request7 _ b' eq_refl eq_refl
              eq_refl eq_refl ltac:(discriminate) ltac:(vm_compute; reflexivity)
              Hadd)
    as (w' & Hd & Hs & Hr & Hm).
  exists w'. split; [exact Hd |].
  split; [rewrite Hs; reflexivity |].
  split; [rewrite Hr; reflexivity |].
  rewrite Hm. vm_compute. reflexivity.
Defined.

(** A network that is not TCP is refused without a call. *)
Lemma NewTCPUnderlay_net_calls_run :
  NewTCPUnderlay "udp" "198.51.100.2:0" "203.0.113.7:443" 1400 (Sim.user x11)
  = (Err (Errorf "network %s is not supported for TCP underlay"), []).
Proof.
  apply (NewTCPUnderlay_net_calls "udp" "198.51.100.2:0" "203.0.113.7:443" 1400
           (Sim.user x11)); discriminate.
Defined.

(** A client underlay dialed from a given local address. *)
Lemma NewTCPUnderlay_client_run :
  let r := NewTCPUnderlay "tcp" "198.51.100.2:0" "203.0.113.7:443" 1400
             (Sim.user x11) in
  snd r = [CallResolveTCPAddr "tcp" "198.51.100.2:0";
           CallDialContext "tcp" (Some "198.51.100.2:0"%string)
             "203.0.113.7:443"] /\
  forall u, fst r = Ok u ->
    candidates u = [Sim.user x11] /\
    send (underlay (snd (maybeInitSendBlockCipher (Sim.world u [] []))))
    = Some (Sim.user x11).
Proof.
  intros r. split; [reflexivity |].
  intros u Hu.
  assert (E : NewTCPUnderlay "tcp" "198.51.100.2:0" "203.0.113.7:443" 1400
                (Sim.user x11) = (Ok u, snd r)).
  { fold r. rewrite <- Hu. now destruct r. }
  destruct (NewTCPUnderlay_client _ _ _ _ _ _ _ E)
    as (_ & _ & _ & _ & _ & Hc & _ & Huse).
  split; [exact Hc |].
  destruct (Huse (Sim.world u [] []) eq_refl eq_refl) as (Hi & _).
  now rewrite Hi.
Defined.

Lemma Sim_ss_payloadLen_bounded :
  forall b ss,
    ss_Unmarshal (C:=Sim.cipher) b = Some ss -> 0 < ss_payloadLen ss ->
    ss_payloadLen ss + Z.of_nat (DefaultOverhead (C:=Sim.cipher)) < 65536.
Proof.
  intros b ss E _. simpl in E. unfold Sim.unmarshalSession in E.
  destruct b as [|p [|id [|len [|suf [|x [|]]]]]]; try discriminate.
  inversion E; subst; simpl. unfold Sim.Z_of_byte.
  pose proof (Byte.to_N_bounded len). lia.
Qed.

Lemma Sim_das_payloadLen_bounded :
  forall b das,
    das_Unmarshal (C:=Sim.cipher) b = Some das -> 0 < das_payloadLen das ->
    das_payloadLen das + Z.of_nat (DefaultOverhead (C:=Sim.cipher)) < 65536.
Proof.
  intros b das E _. simpl in E. unfold Sim.unmarshalDataAck in E.
  destruct b as [|p [|id [|len [|pre [|suf [|]]]]]]; try discriminate.
  inversion E; subst; simpl. unfold Sim.Z_of_byte.
  pose proof (Byte.to_N_bounded len). lia.
Qed.

(** A fresh server and a fresh client read whatever comes without a
    panic; an underlay without a connection panics in its first read. *)
Lemma readOneSegment_no_panic_run :
  fst (readOneSegment Sim.server_fresh) <> Panic /\
  fst (readOneSegment (Sim.client_fresh Sim.novel_message)) <> Panic /\
  readOneSegment Sim.unconnected = (Panic, Sim.unconnected).
Proof.
  assert (Hm : (0 < metadataLength (C:=Sim.cipher))%nat) by (simpl; lia).
  split; [| split].
  - apply (readOneSegment_no_panic Sim_ss_payloadLen_bounded
             Sim_das_payloadLen_bounded Sim.server_fresh Hm); discriminate.
  - apply (readOneSegment_no_panic Sim_ss_payloadLen_bounded
             Sim_das_payloadLen_bounded (Sim.client_fresh Sim.novel_message)
             Hm); discriminate.
  - apply (readOneSegment_no_panic Sim_ss_payloadLen_bounded
             Sim_das_payloadLen_bounded Sim.unconnected Hm). reflexivity.
Defined.

(** A client made without a candidate reads its first message; a server
    is told of a payload of 65535 bytes, which with the overhead of two
    wraps around to a buffer of one byte. *)
Lemma readOneSegment_panics_run :
  fst (readOneSegment
         (Sim.world (Sim.underlay_on true Sim.first_message ∅ None None [])
            [] [])) = Panic /\
  fst (readEncryptedPayload 65535 (Sim.server_idle [x00])) = Panic.
Proof.
  split.
  - set (w := Sim.world (Sim.underlay_on true Sim.first_message ∅ None None [])
                [] []).
    assert (E1 : fst (readEncryptedMetadata w) = Ok (true, Sim.first_message))
      by (vm_compute; reflexivity).
    apply run_outcome in E1.
    assert (E2 : fst (checkReplay true Sim.first_message
                        (snd (readEncryptedMetadata w))) = Ok tt)
      by (vm_compute; reflexivity).
    apply run_outcome in E2.
    destruct (readOneSegment_panics w) as (H & _).
    exact (H _ _ _ _ E1 E2 eq_refl eq_refl eq_refl).
  - destruct (readOneSegment_panics (Sim.server_idle [x00])) as (_ & H).
    assert (Hpos : 0 < 65535) by lia.
    assert (Hlt : (Z.to_nat (uint16 (65535 + Z.of_nat
                                       (DefaultOverhead (C:=Sim.cipher))))
                   < DefaultOverhead (C:=Sim.cipher))%nat)
      by (vm_compute; lia).
    assert (Hle : (Z.to_nat (uint16 (65535 + Z.of_nat
                                       (DefaultOverhead (C:=Sim.cipher))))
                   <= length [x00])%nat)
      by (vm_compute; lia).
    exact (proj1 (H 65535 {| unread := [x00]; written := []; closed := false |}
                    Hpos Hlt eq_refl eq_refl Hle)).
Defined.

(** A client made without a candidate panics on its first write; a
    fresh client with its candidate does not; and a client without a
    connection panics in the write that an open connection would have
    taken. *)
Lemma writeOneSegment_panics_run :
  fst (writeOneSegment (Some Sim.request7)
         (Sim.world (Sim.underlay_on true [] ∅ None None []) [] [])) = Panic /\
  fst (writeOneSegment (Some Sim.request7) (Sim.client_fresh [])) <> Panic /\
  fst (writeOneSegment (Some Sim.request7) Sim.unconnected) = Panic.
Proof.
  split; [| split].
  - apply writeOneSegment_panics; [discriminate |].
    split; [| repeat split].
    exists Sim.request7. split; [reflexivity | left; discriminate].
  - intros H.
    apply writeOneSegment_panics in H as (_ & _ & _ & Hc);
      [discriminate Hc | discriminate].
  - set (c := {| unread := []; written := []; closed := false |}).
    assert (E : fst (writeOneSegment (Some Sim.request7)
                       (with_t (set_conn (Some c)) Sim.unconnected)) = Ok tt)
      by (vm_compute; reflexivity).
    destruct (writeOneSegment_panics (Some Sim.request7) Sim.unconnected)
      as (_ & H).
    destruct (H eq_refl) as (_ & Hp).
    exact (Hp c _ (run_outcome _ _ _ E)).
Defined.

End FurtherRuns.
